(** * launcheq: the patch client (client/client.go)

    A shallow embedding of the reconciliation pass [patch], the per-file
    download procedure [downloadPatchFile], the archive expander [unpack],
    the checksum utility [md5Checksum] and the self-updater [selfUpdate],
    followed by the properties checked against the specification.

    The Go code talks to the operating system and to the network.  Both are
    modelled explicitly: the filesystem is a finite map from cleaned paths to
    nodes, every call that leaves the process is appended to a trace, and the
    answers of the outside world (transport results, spurious I/O failures)
    come from an environment that is a function of the trace so far.

    Not modelled: the closing of files and response bodies, the duration in
    the summary of a pass, the text that [generateSize] prints (a log line
    keeps the number), symbolic links, and the backslash as a second path
    separator on Windows. *)

From Stdlib Require Import ZArith List Ascii String Bool Lia.
From Stdlib.Strings Require Import Byte.
From stdpp Require Import base option gmap strings list.

Open Scope string_scope.
Open Scope Z_scope.

(** ** Go's [strings] package, on byte strings

    Names and hashes handled by the client are ASCII; the case mappings below
    act on the ASCII letters and leave every other byte alone. *)
Module Strings.

Fixpoint HasPrefix (s prefix : string) : bool :=
  match prefix, s with
  | EmptyString, _ => true
  | String p prefix', String c s' => if Ascii.eqb c p then HasPrefix s' prefix' else false
  | String _ _, EmptyString => false
  end.

Fixpoint Contains (s substr : string) : bool :=
  HasPrefix s substr ||
  match s with
  | EmptyString => false
  | String _ s' => Contains s' substr
  end.

Definition rev (s : string) : string :=
  string_of_list_ascii (List.rev (list_ascii_of_string s)).

Definition HasSuffix (s suffix : string) : bool :=
  HasPrefix (rev s) (rev suffix).

Definition TrimSuffix (s suffix : string) : string :=
  if HasSuffix s suffix
  then substring 0 (String.length s - String.length suffix) s
  else s.

Definition upper_ascii (c : ascii) : ascii :=
  let n := nat_of_ascii c in
  if (97 <=? n)%nat && (n <=? 122)%nat then ascii_of_nat (n - 32) else c.

Definition lower_ascii (c : ascii) : ascii :=
  let n := nat_of_ascii c in
  if (65 <=? n)%nat && (n <=? 90)%nat then ascii_of_nat (n + 32) else c.

(** [strings.ToUpper] and [strings.ToLower] on the letters of ASCII; what
    Go makes of other runes is not modelled. No other rune gives a digit or
    a letter of ASCII from [a] to [f] in upper case, or one of [m], [a],
    [p] and [s] in lower case, so neither the comparison of two hashes nor
    the prefix [maps/] depends on them. *)
Fixpoint ToUpper (s : string) : string :=
  match s with
  | EmptyString => EmptyString
  | String c s' => String (upper_ascii c) (ToUpper s')
  end.

Fixpoint ToLower (s : string) : string :=
  match s with
  | EmptyString => EmptyString
  | String c s' => String (lower_ascii c) (ToLower s')
  end.

(** The white space of [unicode.IsSpace] in one byte: tab, line feed,
    vertical tab, form feed, carriage return and space. *)
Definition is_space (c : ascii) : bool :=
  let n := nat_of_ascii c in
  ((9 <=? n)%nat && (n <=? 13)%nat) || (n =? 32)%nat.

(** The white space of [unicode.IsSpace] that takes two bytes of UTF-8:
    U+0085 and U+00A0. *)
Definition is_space2 (a b : ascii) : bool :=
  let m := nat_of_ascii a in
  let n := nat_of_ascii b in
  (m =? 194)%nat && ((n =? 133)%nat || (n =? 160)%nat).

(** And that takes three: U+1680, U+2000 to U+200A, U+2028, U+2029,
    U+202F, U+205F and U+3000. *)
Definition is_space3 (a b c : ascii) : bool :=
  let l := nat_of_ascii a in
  let m := nat_of_ascii b in
  let n := nat_of_ascii c in
  ((l =? 225)%nat && (m =? 154)%nat && (n =? 128)%nat) ||
  ((l =? 226)%nat && (m =? 128)%nat &&
   (((128 <=? n)%nat && (n <=? 138)%nat) || (n =? 168)%nat || (n =? 169)%nat ||
    (n =? 175)%nat)) ||
  ((l =? 226)%nat && (m =? 129)%nat && (n =? 159)%nat) ||
  ((l =? 227)%nat && (m =? 128)%nat && (n =? 128)%nat).

(** Runes are taken off the front of [s] as long as they are white space:
    [one], [two] and [three] say which sequences of one, two and three
    bytes are. A byte that starts no such sequence ends the trimming, as a
    rune that is not white space, or a byte that is no rune at all, does in
    Go. *)
Fixpoint trim_runes (one : ascii -> bool) (two : ascii -> ascii -> bool)
    (three : ascii -> ascii -> ascii -> bool) (s : string) : string :=
  match s with
  | EmptyString => EmptyString
  | String a s1 =>
      if one a then trim_runes one two three s1
      else
        match s1 with
        | EmptyString => s
        | String b s2 =>
            if two a b then trim_runes one two three s2
            else
              match s2 with
              | EmptyString => s
              | String c s3 => if three a b c then trim_runes one two three s3 else s
              end
        end
  end.

Definition trim_left (s : string) : string := trim_runes is_space is_space2 is_space3 s.

(** From the end, Go steps back to the byte that starts the last rune; the
    sequences above are then met last byte first. *)
Definition trim_right (s : string) : string :=
  rev (trim_runes is_space (fun b a => is_space2 a b) (fun c b a => is_space3 a b c)
         (rev s)).

(** [strings.TrimSpace]: the white space of Unicode goes from both ends of
    a text in UTF-8. *)
Definition TrimSpace (s : string) : string := trim_right (trim_left s).

(** [strings.EqualFold] on ASCII: equality up to letter case. *)
Definition EqualFold (s t : string) : bool :=
  String.eqb (ToLower s) (ToLower t).

End Strings.

(** ** [crypto/md5] and the [%x] verb

    [md5Checksum] streams the file through [md5.New()] and formats the sum
    with [fmt.Sprintf("%x", ...)], which prints lower-case digits. *)
Module MD5.

Definition w32 (x : Z) : Z := x mod 2 ^ 32.

Definition rotl (x c : Z) : Z :=
  Z.lor (w32 (Z.shiftl x c)) (Z.shiftr x (32 - c)).

Definition not32 (x : Z) : Z := Z.lxor x 4294967295.

Definition shifts : list Z :=
  [7; 12; 17; 22; 7; 12; 17; 22; 7; 12; 17; 22; 7; 12; 17; 22;
   5; 9; 14; 20; 5; 9; 14; 20; 5; 9; 14; 20; 5; 9; 14; 20;
   4; 11; 16; 23; 4; 11; 16; 23; 4; 11; 16; 23; 4; 11; 16; 23;
   6; 10; 15; 21; 6; 10; 15; 21; 6; 10; 15; 21; 6; 10; 15; 21].

Definition table : list Z :=
  [0xd76aa478; 0xe8c7b756; 0x242070db; 0xc1bdceee;
   0xf57c0faf; 0x4787c62a; 0xa8304613; 0xfd469501;
   0x698098d8; 0x8b44f7af; 0xffff5bb1; 0x895cd7be;
   0x6b901122; 0xfd987193; 0xa679438e; 0x49b40821;
   0xf61e2562; 0xc040b340; 0x265e5a51; 0xe9b6c7aa;
   0xd62f105d; 0x02441453; 0xd8a1e681; 0xe7d3fbc8;
   0x21e1cde6; 0xc33707d6; 0xf4d50d87; 0x455a14ed;
   0xa9e3e905; 0xfcefa3f8; 0x676f02d9; 0x8d2a4c8a;
   0xfffa3942; 0x8771f681; 0x6d9d6122; 0xfde5380c;
   0xa4beea44; 0x4bdecfa9; 0xf6bb4b60; 0xbebfbc70;
   0x289b7ec6; 0xeaa127fa; 0xd4ef3085; 0x04881d05;
   0xd9d4d039; 0xe6db99e5; 0x1fa27cf8; 0xc4ac5665;
   0xf4292244; 0x432aff97; 0xab9423a7; 0xfc93a039;
   0x655b59c3; 0x8f0ccc92; 0xffeff47d; 0x85845dd1;
   0x6fa87e4f; 0xfe2ce6e0; 0xa3014314; 0x4e0811a1;
   0xf7537e82; 0xbd3af235; 0x2ad7d2bb; 0xeb86d391].

Definition nthZ (l : list Z) (i : Z) : Z := nth (Z.to_nat i) l 0.

Record digest := { dA : Z; dB : Z; dC : Z; dD : Z }.

Definition init : digest :=
  {| dA := 0x67452301; dB := 0xefcdab89; dC := 0x98badcfe; dD := 0x10325476 |}.

(** One of the 64 operations of a block; [m] holds its sixteen words. *)
Definition op (m : list Z) (d : digest) (i : Z) : digest :=
  let '(Build_digest a b c dd) := d in
  let '(f, g) :=
    if i <? 16 then (Z.lor (Z.land b c) (Z.land (not32 b) dd), i)
    else if i <? 32 then (Z.lor (Z.land dd b) (Z.land (not32 dd) c), (5 * i + 1) mod 16)
    else if i <? 48 then (Z.lxor (Z.lxor b c) dd, (3 * i + 5) mod 16)
    else (Z.lxor c (Z.lor b (not32 dd)), (7 * i) mod 16) in
  let f' := w32 (f + a + nthZ table i + nthZ m g) in
  {| dA := dd; dB := w32 (b + rotl f' (nthZ shifts i)); dC := b; dD := c |}.

Definition block (d : digest) (m : list Z) : digest :=
  let d' := fold_left (op m) (map Z.of_nat (seq 0 64)) d in
  {| dA := w32 (dA d + dA d'); dB := w32 (dB d + dB d');
     dC := w32 (dC d + dC d'); dD := w32 (dD d + dD d') |}.

(** Little-endian bytes of a [n]-byte word, and back. *)
Fixpoint le_bytes (n : nat) (x : Z) : list Z :=
  match n with
  | O => []
  | S n' => (x mod 256) :: le_bytes n' (x / 256)
  end.

Fixpoint le_word (bs : list Z) : Z :=
  match bs with
  | [] => 0
  | b :: bs' => b + 256 * le_word bs'
  end.

Definition pad (msg : list Z) : list Z :=
  let len := Z.of_nat (length msg) in
  let zeros := (55 - len) mod 64 in
  msg ++ [128] ++ repeat 0 (Z.to_nat zeros) ++ le_bytes 8 ((8 * len) mod 2 ^ 64).

(** Cut a list into pieces of [k] elements; [fuel] bounds the number of
    pieces. *)
Fixpoint chunks {A} (fuel k : nat) (l : list A) : list (list A) :=
  match fuel, l with
  | O, _ | _, [] => []
  | S fuel', _ => firstn k l :: chunks fuel' k (skipn k l)
  end.

Definition words (blk : list Z) : list Z := map le_word (chunks 16 4 blk).

Definition sum (msg : list Z) : list Z :=
  let p := pad msg in
  let d := fold_left block (map words (chunks (length p) 64 p)) init in
  le_bytes 4 (dA d) ++ le_bytes 4 (dB d) ++ le_bytes 4 (dC d) ++ le_bytes 4 (dD d).

Definition hex_digit (n : Z) : ascii :=
  if n <? 10 then ascii_of_nat (Z.to_nat (48 + n)) else ascii_of_nat (Z.to_nat (87 + n)).

(** [fmt.Sprintf("%x", bs)] for a byte slice. *)
Fixpoint hex (bs : list Z) : string :=
  match bs with
  | [] => EmptyString
  | b :: bs' => String (hex_digit (b / 16)) (String (hex_digit (b mod 16)) (hex bs'))
  end.

Definition hexsum (data : list byte) : string :=
  hex (sum (map (fun b => Z.of_N (Byte.to_N b)) data)).

Definition bytes_of_string (s : string) : list byte := list_byte_of_string s.

End MD5.

(** ** [path/filepath], with the slash as separator *)
Module Filepath.

Definition is_sep (c : ascii) : bool := Ascii.eqb c "/".

(** [strings.Split(s, "/")]: never empty, one more piece than separators. *)
Fixpoint split (s : string) : list string :=
  match s with
  | EmptyString => [EmptyString]
  | String c s' =>
      if is_sep c then EmptyString :: split s'
      else match split s' with
           | [] => [String c EmptyString]
           | x :: xs => String c x :: xs
           end
  end.

Definition join (l : list string) : string := String.concat "/" l.

(** [Clean] keeps a stack of the elements seen so far (innermost first):
    empty and [.] elements vanish, [..] removes the element before it unless
    there is none to remove, in which case it is kept on a relative path and
    dropped on a rooted one. *)
Definition clean_step (rooted : bool) (stack : list string) (seg : string) : list string :=
  if String.eqb seg "" || String.eqb seg "." then stack
  else if String.eqb seg ".." then
    match stack with
    | top :: rest => if String.eqb top ".." then seg :: stack else rest
    | [] => if rooted then [] else [seg]
    end
  else seg :: stack.

Definition Clean (path : string) : string :=
  let rooted := Strings.HasPrefix path "/" in
  let segs := List.rev (fold_left (clean_step rooted) (split path) []) in
  let out := (if rooted then "/" else "") +:+ join segs in
  if String.eqb out "" then "." else out.

(** [Join(a, b)]: leading empty elements are dropped, the rest is joined
    with the separator and cleaned. *)
Definition Join (a b : string) : string :=
  if String.eqb a "" then (if String.eqb b "" then "" else Clean b)
  else Clean (a +:+ "/" +:+ b).

Fixpoint drop_seps (s : string) : string :=
  match s with
  | String c s' => if is_sep c then drop_seps s' else s
  | EmptyString => EmptyString
  end.

Definition Base (path : string) : string :=
  if String.eqb path "" then "."
  else
    let p := Strings.rev (drop_seps (Strings.rev path)) in
    let l := List.last (split p) "" in
    if String.eqb l "" then "/" else l.

(** [Dir]: everything up to and including the last separator, cleaned. *)
Definition Dir (path : string) : string :=
  match List.removelast (split path) with
  | [] => Clean ""
  | d => Clean (join d +:+ "/")
  end.

Fixpoint ext_rev (r acc : string) : string :=
  match r with
  | EmptyString => ""
  | String c r' =>
      if Ascii.eqb c "." then String c acc
      else if is_sep c then ""
      else ext_rev r' (String c acc)
  end.

Definition Ext (path : string) : string := ext_rev (Strings.rev path) "".

(** The names of the directories on the way to [path], outermost first,
    ending with [path] itself. *)
Definition prefixes (path : string) : list string :=
  let segs := split path in
  map (fun k => join (firstn k segs)) (seq 1 (length segs)).

(** A cleaned path that never needs creating: the working directory, the
    root, and chains of [..] above the working directory. *)
Definition implicit_dir (path : string) : bool :=
  forallb (fun s => String.eqb s "" || String.eqb s "." || String.eqb s "..") (split path).

(** A cleaned relative path stays below the directory it is relative to
    when it is not rooted and does not climb out through [..]. *)
Definition is_local (path : string) : bool :=
  negb (Strings.HasPrefix path "/") &&
  negb (String.eqb path "..") && negb (Strings.HasPrefix path "../").

End Filepath.

(** ** The outside world *)

(** A filesystem node: a regular file with its mode and content, or a
    directory. *)
Inductive node :=
| File (mode : Z) (data : list byte)
| Directory.

Definition IsDir (n : node) : bool :=
  match n with Directory => true | File _ _ => false end.

(** The four places of the client that issue a GET. *)
Inductive purpose :=
| MapsArchive
| PatchFile
| SelfHash
| SelfBinary.

(** Every call that leaves the process; the trace is the list of them,
    oldest first. A GET carries the place that issued it. *)
Inductive call :=
| CExecutable
| CStat (path : string)
| CMkdirAll (path : string)
| CCreate (path : string)
| COpenFile (path : string) (mode : Z)
| COpen (path : string)
| CRead (path : string)
| CWrite (path : string)
| CRemove (path : string)
| CRename (oldpath newpath : string)
| CGet (why : purpose) (url : string)
| CReadAll (url : string)
| CZipOpenReader (path : string)
| CZipOpen (name : string)
| CApply
| CSave (version : string).

(** Go errors, as far as the client looks at them: a failed system call
    (with whether [os.IsNotExist] holds of it), an unexpected HTTP status, a
    plain message, and [fmt.Errorf("...: %w", err)]. *)
Inductive error :=
| ESys (c : call) (notexist : bool)
| EStatus (url : string) (code : Z)
| EMsg (msg : string)
| EWrap (prefix : string) (e : error).

Fixpoint IsNotExist (e : error) : bool :=
  match e with
  | ESys _ b => b
  | EWrap _ e' => IsNotExist e'
  | _ => false
  end.

(** An entry of an opened zip archive: its stored name, whether
    [FileInfo().IsDir()] holds, its mode and its uncompressed content. *)
Record zipFile := {
  zName : string;
  zIsDir : bool;
  zMode : Z;
  zData : list byte;
}.

(** What the program cannot decide: given the calls made so far,
    - [io_error h c]: call [c] fails for a reason outside the model
      (permissions, a full disk, a broken connection while reading), with
      an error of which [os.IsNotExist] is as given; [None] lets it through;
    - [http h url]: the answer to a GET, [None] for a transport error,
      otherwise status and body;
    - [short h]: how many bytes a failing copy still wrote;
    - [zip_reader bytes]: the entries [zip.OpenReader] finds in a file;
    - [executable]: the path returned by [os.Executable];
    - [umask]: the file mode creation mask of the process, whose bits a
      file that is created does not get. *)
Record Env := {
  io_error : list call -> call -> option bool;
  http : list call -> string -> option (Z * list byte);
  short : list call -> nat;
  zip_reader : list byte -> option (list zipFile);
  executable : string;
  umask : Z;
}.

(** One argument of a [logf] call. [ASize n] stands for the text
    [generateSize(n)], [AErr e] for the text of an error. *)
Inductive arg :=
| AStr (s : string)
| ASize (n : Z)
| AErr (e : error).

Record logline := { lfmt : string; largs : list arg }.

(** [patchSummary] without its duration. *)
Inductive summary :=
| NoSummary
| FinishedIn
| FinishedOf (size : Z).

(** The mutable state: the filesystem, the trace, the package variable
    [isMapsDownloaded], and the fields of [Client] and of its [cfg] that the
    pass writes. [persisted] is what [cfg.Save] last wrote. *)
Record State := {
  fs : gmap string node;
  trace : list call;
  cacheLog : list logline;
  isMapsDownloaded : bool;
  isPatched : bool;
  patchSummary : summary;
  FileListVersion : string;
  persisted : option string;
}.

Definition set_fs (f : gmap string node -> gmap string node) (s : State) : State :=
  {| fs := f (fs s); trace := trace s; cacheLog := cacheLog s;
     isMapsDownloaded := isMapsDownloaded s; isPatched := isPatched s;
     patchSummary := patchSummary s; FileListVersion := FileListVersion s;
     persisted := persisted s |}.

Definition record_call (c : call) (s : State) : State :=
  {| fs := fs s; trace := trace s ++ [c]; cacheLog := cacheLog s;
     isMapsDownloaded := isMapsDownloaded s; isPatched := isPatched s;
     patchSummary := patchSummary s; FileListVersion := FileListVersion s;
     persisted := persisted s |}.

Definition set_trace (t : list call) (s : State) : State :=
  {| fs := fs s; trace := t; cacheLog := cacheLog s;
     isMapsDownloaded := isMapsDownloaded s; isPatched := isPatched s;
     patchSummary := patchSummary s; FileListVersion := FileListVersion s;
     persisted := persisted s |}.

Definition add_log (l : logline) (s : State) : State :=
  {| fs := fs s; trace := trace s; cacheLog := cacheLog s ++ [l];
     isMapsDownloaded := isMapsDownloaded s; isPatched := isPatched s;
     patchSummary := patchSummary s; FileListVersion := FileListVersion s;
     persisted := persisted s |}.

Definition set_isMapsDownloaded (b : bool) (s : State) : State :=
  {| fs := fs s; trace := trace s; cacheLog := cacheLog s;
     isMapsDownloaded := b; isPatched := isPatched s;
     patchSummary := patchSummary s; FileListVersion := FileListVersion s;
     persisted := persisted s |}.

Definition set_isPatched (b : bool) (s : State) : State :=
  {| fs := fs s; trace := trace s; cacheLog := cacheLog s;
     isMapsDownloaded := isMapsDownloaded s; isPatched := b;
     patchSummary := patchSummary s; FileListVersion := FileListVersion s;
     persisted := persisted s |}.

Definition set_patchSummary (p : summary) (s : State) : State :=
  {| fs := fs s; trace := trace s; cacheLog := cacheLog s;
     isMapsDownloaded := isMapsDownloaded s; isPatched := isPatched s;
     patchSummary := p; FileListVersion := FileListVersion s;
     persisted := persisted s |}.

Definition set_FileListVersion (v : string) (s : State) : State :=
  {| fs := fs s; trace := trace s; cacheLog := cacheLog s;
     isMapsDownloaded := isMapsDownloaded s; isPatched := isPatched s;
     patchSummary := patchSummary s; FileListVersion := v;
     persisted := persisted s |}.

Definition set_persisted (v : string) (s : State) : State :=
  {| fs := fs s; trace := trace s; cacheLog := cacheLog s;
     isMapsDownloaded := isMapsDownloaded s; isPatched := isPatched s;
     patchSummary := patchSummary s; FileListVersion := FileListVersion s;
     persisted := Some v |}.

(** ** The monad of the client: environment, state, and an error result *)

Inductive result (A : Type) :=
| Ok (a : A)
| Err (e : error).
Arguments Ok {A} a.
Arguments Err {A} e.

Definition M (A : Type) : Type := Env -> State -> result A * State.

#[export] Instance M_ret : MRet M := fun A a _ s => (Ok a, s).

#[export] Instance M_bind : MBind M := fun A B f m env s =>
  match m env s with
  | (Ok a, s') => f a env s'
  | (Err e, s') => (Err e, s')
  end.

Definition throw {A} (e : error) : M A := fun _ s => (Err e, s).

(** [if err != nil { return fmt.Errorf(prefix + ": %w", err) }] *)
Definition wrap {A} (prefix : string) (m : M A) : M A := fun env s =>
  match m env s with
  | (Ok a, s') => (Ok a, s')
  | (Err e, s') => (Err (EWrap prefix e), s')
  end.

(** Run [m] and hand its error, if any, to the caller as a value. *)
Definition try {A} (m : M A) : M (result A) := fun env s =>
  let '(r, s') := m env s in (Ok r, s').

Definition gets {A} (f : State -> A) : M A := fun _ s => (Ok (f s), s).
Definition modify (f : State -> State) : M unit := fun _ s => (Ok tt, f s).

(** [c.logf(format, args...)] *)
Definition logf (format : string) (args : list arg) : M unit :=
  modify (add_log {| lfmt := format; largs := args |}).

(** Make call [c]: it enters the trace, and fails when the environment says
    so; otherwise [k] computes its outcome on the filesystem. *)
Definition syscall {A} (c : call)
    (k : gmap string node -> result A * gmap string node) : M A := fun env s =>
  let s' := record_call c s in
  match io_error env (trace s) c with
  | Some notexist => (Err (ESys c notexist), s')
  | None => let '(r, f) := k (fs s) in (r, set_fs (fun _ => f) s')
  end.

Module OS.

(** The node at a cleaned path. *)
Definition node_at (f : gmap string node) (p : string) : option node :=
  if Filepath.implicit_dir p then Some Directory else f !! p.

Definition is_file (f : gmap string node) (p : string) : bool :=
  match node_at f p with
  | Some (File _ _) => true
  | _ => false
  end.

(** The directories that have to be there for a cleaned path to make sense,
    other than the ones that always are. *)
Definition parents (p : string) : list string :=
  List.filter (fun q => negb (Filepath.implicit_dir q))
    (List.removelast (Filepath.prefixes p)).

(** A regular file sits where the cleaned path [p] needs a directory. *)
Definition blocked (f : gmap string node) (p : string) : bool :=
  existsb (is_file f) (parents p).

(** A path that ends in a separator, or in a separator and a dot, names a
    directory or nothing. *)
Definition wants_dir (path : string) : bool :=
  Strings.HasSuffix path "/" || Strings.HasSuffix path "/.".

(** What the system finds at a path as the program gives it: a node,
    nothing ([ENOENT], also for the empty path), or a regular file where a
    directory is needed ([ENOTDIR]). *)
Inductive found :=
| Found (n : node)
| Missing
| NotDir.

Definition lookup (f : gmap string node) (path : string) : found :=
  if String.eqb path "" then Missing
  else
    let p := Filepath.Clean path in
    if blocked f p then NotDir
    else match node_at f p with
         | None => Missing
         | Some Directory => Found Directory
         | Some (File m data) => if wants_dir path then NotDir else Found (File m data)
         end.

Definition Executable : M string := fun env s =>
  let s' := record_call CExecutable s in
  match io_error env (trace s) CExecutable with
  | Some notexist => (Err (ESys CExecutable notexist), s')
  | None => (Ok (executable env), s')
  end.

Definition Stat (path : string) : M node :=
  syscall (CStat path) (fun f =>
    match lookup f path with
    | Found n => (Ok n, f)
    | Missing => (Err (ESys (CStat path) true), f)
    | NotDir => (Err (ESys (CStat path) false), f)
    end).

(** [os.MkdirAll]: fails, creating nothing, on the empty path and when a
    regular file is in the way; otherwise every missing directory on the
    way is created. *)
Definition MkdirAll (path : string) : M unit :=
  syscall (CMkdirAll path) (fun f =>
    let ps := List.filter (fun p => negb (Filepath.implicit_dir p))
                (Filepath.prefixes (Filepath.Clean path)) in
    if String.eqb path "" then (Err (ESys (CMkdirAll path) true), f)
    else if existsb (is_file f) ps then (Err (ESys (CMkdirAll path) false), f)
    else (Ok tt, fold_left (fun m p => <[p := Directory]> m) ps f)).

(** Open for writing with [O_CREATE|O_TRUNC]: the path must not ask for a
    directory, the parent must be a directory and the target must not be
    one; an existing file keeps its mode and loses its content, a new one
    gets the bits of [mode] that are not in the mask of the process. *)
Definition open_trunc (c : call) (path : string) (mode : Z) : M unit := fun env =>
  syscall c (fun f =>
    let p := Filepath.Clean path in
    if String.eqb path "" then (Err (ESys c true), f)
    else if wants_dir path || blocked f p then (Err (ESys c false), f)
    else match node_at f (Filepath.Dir p) with
         | Some Directory =>
             match node_at f p with
             | Some Directory => (Err (ESys c false), f)
             | Some (File m _) => (Ok tt, <[p := File m []]> f)
             | None => (Ok tt, <[p := File (Z.ldiff mode (umask env)) []]> f)
             end
         | Some (File _ _) => (Err (ESys c false), f)
         | None => (Err (ESys c true), f)
         end) env.

Definition Create (path : string) : M unit := open_trunc (CCreate path) path 438.

Definition OpenFile (path : string) (mode : Z) : M unit :=
  open_trunc (COpenFile path mode) path mode.

Definition set_data (path : string) (data : list byte) (f : gmap string node)
    : gmap string node :=
  let p := Filepath.Clean path in
  match f !! p with
  | Some (File m _) => <[p := File m data]> f
  | _ => f
  end.

(** [io.Copy(w, src)] into the file just opened at [path]: all of [data]
    arrives, or the copy fails after some of it did. *)
Definition Copy (path : string) (data : list byte) : M unit := fun env s =>
  let c := CWrite path in
  let s' := record_call c s in
  match io_error env (trace s) c with
  | Some notexist =>
      (Err (ESys c notexist), set_fs (set_data path (firstn (short env (trace s)) data)) s')
  | None => (Ok tt, set_fs (set_data path data) s')
  end.

(** [os.Open(path)] for reading. *)
Definition Open (path : string) : M unit :=
  syscall (COpen path) (fun f =>
    match lookup f path with
    | Found _ => (Ok tt, f)
    | Missing => (Err (ESys (COpen path) true), f)
    | NotDir => (Err (ESys (COpen path) false), f)
    end).

(** Reading the open file at [path] to its end; a directory cannot be
    read. *)
Definition ReadAll (path : string) : M (list byte) :=
  syscall (CRead path) (fun f =>
    match lookup f path with
    | Found (File _ data) => (Ok data, f)
    | _ => (Err (ESys (CRead path) false), f)
    end).

Definition has_children (f : gmap string node) (p : string) : bool :=
  existsb (fun q => Strings.HasPrefix q (p +:+ "/")) (map fst (map_to_list f)).

(** [os.Remove]: a file, or an empty directory. *)
Definition Remove (path : string) : M unit :=
  syscall (CRemove path) (fun f =>
    let p := Filepath.Clean path in
    match lookup f path with
    | Missing => (Err (ESys (CRemove path) true), f)
    | NotDir => (Err (ESys (CRemove path) false), f)
    | Found (File _ _) => (Ok tt, delete p f)
    | Found Directory =>
        if Filepath.implicit_dir p || has_children f p
        then (Err (ESys (CRemove path) false), f)
        else (Ok tt, delete p f)
    end).

(** [dir] with everything below it, at [target] instead. *)
Definition move_tree (dir target : string) (f : gmap string node) : gmap string node :=
  list_to_map
    (map (fun '(k, n) =>
            (if String.eqb k dir then target
             else if Strings.HasPrefix k (dir +:+ "/")
                  then target +:+ substring (String.length dir)
                                    (String.length k - String.length dir) k
                  else k, n))
       (map_to_list f)).

(** [os.Rename]: what is at [oldpath] is at [newpath] afterwards. A
    regular file takes the place of the regular file that is there; Go
    refuses a target that is a directory; a directory moves with what is
    below it, and not into itself. *)
Definition Rename (oldpath newpath : string) : M unit :=
  syscall (CRename oldpath newpath) (fun f =>
    let c := CRename oldpath newpath in
    let o := Filepath.Clean oldpath in
    let n := Filepath.Clean newpath in
    match lookup f oldpath with
    | Missing => (Err (ESys c true), f)
    | NotDir => (Err (ESys c false), f)
    | Found src =>
        match lookup f newpath with
        | NotDir | Found Directory => (Err (ESys c false), f)
        | Found (File _ _) =>
            match src with
            | File m data =>
                if String.eqb o n then (Ok tt, f)
                else (Ok tt, <[n := File m data]> (delete o f))
            | Directory => (Err (ESys c false), f)
            end
        | Missing =>
            if String.eqb newpath "" then (Err (ESys c true), f)
            else
              match node_at f (Filepath.Dir n) with
              | Some Directory =>
                  match src with
                  | File m data =>
                      if wants_dir newpath then (Err (ESys c false), f)
                      else (Ok tt, <[n := File m data]> (delete o f))
                  | Directory =>
                      if Filepath.implicit_dir o || Strings.HasPrefix n (o +:+ "/")
                      then (Err (ESys c false), f)
                      else (Ok tt, move_tree o n f)
                  end
              | _ => (Err (ESys c true), f)
              end
        end
    end).

End OS.

Module HTTP.

Record Response := { StatusCode : Z; Body : list byte; Url : string }.

(** [client.Get(url)], issued for [why]. *)
Definition Get (why : purpose) (url : string) : M Response := fun env s =>
  let s' := record_call (CGet why url) s in
  match http env (trace s) url with
  | None => (Err (ESys (CGet why url) false), s')
  | Some (code, body) => (Ok {| StatusCode := code; Body := body; Url := url |}, s')
  end.

(** [io.ReadAll(resp.Body)] *)
Definition ReadAll (resp : Response) : M (list byte) := fun env s =>
  let c := CReadAll (Url resp) in
  let s' := record_call c s in
  match io_error env (trace s) c with
  | Some notexist => (Err (ESys c notexist), s')
  | None => (Ok (Body resp), s')
  end.

End HTTP.

(** ** Collaborators of the client that live in other packages *)

Module Zip.

(** [zip.OpenReader(path)]: the file is read and its central directory
    decoded. *)
Definition OpenReader (path : string) : M (list zipFile) := fun env s =>
  let c := CZipOpenReader path in
  let s' := record_call c s in
  match io_error env (trace s) c with
  | Some notexist => (Err (ESys c notexist), s')
  | None =>
      match OS.lookup (fs s) path with
      | OS.Missing => (Err (ESys c true), s')
      | OS.NotDir | OS.Found Directory => (Err (ESys c false), s')
      | OS.Found (File _ data) =>
          match zip_reader env data with
          | Some files => (Ok files, s')
          | None => (Err (EMsg "zip: not a valid zip file"), s')
          end
      end
  end.

(** [f.Open()] on an entry of the archive. *)
Definition Open (f : zipFile) : M unit :=
  syscall (CZipOpen (zName f)) (fun m => (Ok tt, m)).

End Zip.

Module Selfupdate.

(** Modelled from the spec: package [selfupdate]
    (github.com/fynelabs/selfupdate) is not part of the sources. The spec
    has the new body applied "as a replacement for the running binary",
    and has the updater clean up "a leftover previous version backup file
    from a prior self-update", which [selfUpdate] looks for at
    [.<name>.exe.old]. The model follows the steps that the library
    documents for [Apply] with empty options:
    - the body is written to [.<file>.new] beside the executable, with
      mode [0755];
    - what is at [.<file>.old] is removed, if the system lets it;
    - the executable is renamed to [.<file>.old], and the new file to the
      executable; when this second renaming fails, the first is undone, if
      the system lets it, and the error of the second is returned;
    - after both renamings the backup is removed, and stays when the
      system refuses, as Windows does while the program runs. *)
Definition replace (body : list byte) : M unit :=
  target ← OS.Executable;
  let updateDir := Filepath.Dir target in
  let filename := Filepath.Base target in
  let newPath := Filepath.Join updateDir ("." +:+ filename +:+ ".new") in
  let oldPath := Filepath.Join updateDir ("." +:+ filename +:+ ".old") in
  OS.OpenFile newPath 493 ;;
  OS.Copy newPath body ;;
  try (OS.Remove oldPath) ;;
  OS.Rename target oldPath ;;
  r ← try (OS.Rename newPath target);
  match r with
  | Err err => try (OS.Rename oldPath target) ;; throw err
  | Ok _ => try (OS.Remove oldPath) ;; mret tt
  end.

(** [selfupdate.Apply(body, Options{})]. Of all the calls that the library
    makes for it, the trace keeps the one of the client, [CApply]; the
    environment is asked about each of the others after [CApply] and those
    made before it. *)
Definition Apply (body : list byte) : M unit := fun env s =>
  let '(r, s') := replace body env (record_call CApply s) in
  (r, set_trace (trace s ++ [CApply]) s').

End Selfupdate.

Module Config.

(** Modelled from the spec: package [config] is not part of the sources.
    The spec describes it as a key-value store exposing [FileListVersion]
    and a [Save()] operation that may fail; [Save] persists the current
    value of the field. *)
Definition Save : M unit := fun env s =>
  let c := CSave (FileListVersion s) in
  let s' := record_call c s in
  match io_error env (trace s) c with
  | Some notexist => (Err (ESys c notexist), s')
  | None => (Ok tt, set_persisted (FileListVersion s) s')
  end.

End Config.

(** ** The client *)

(** Modelled from the spec: the declarations of [FileEntry] and [FileList]
    are not part of the sources. The spec gives a Download Entry a name, a
    size and an md5 hash, a Delete Entry a name, and the manifest a version,
    a download prefix and the two sequences of entries; the field names are
    those [client.go] uses. *)
Record FileEntry := {
  Name : string;
  Md5 : string;
  Size : Z;
}.

Record FileList := {
  Version : string;
  DownloadPrefix : string;
  Downloads : list FileEntry;
  Deletes : list FileEntry;
}.

(** The fields of [Client] that a pass only reads. *)
Record Client := {
  baseName : string;
  patcherUrl : string;
  clientVersion : string;
  cacheFileList : FileList;
}.

(** [int64] arithmetic wraps around. *)
Definition int64 (x : Z) : Z := (x + 2 ^ 63) mod 2 ^ 64 - 2 ^ 63.
Definition add64 (a b : Z) : Z := int64 (a + b).

(** [for _, x := range l { body }], where the body may return an error. *)
Fixpoint forM_ {A} (l : list A) (body : A -> M unit) : M unit :=
  match l with
  | [] => mret tt
  | x :: l' => body x ;; forM_ l' body
  end.

(** The same loop with variables that live across iterations. *)
Fixpoint foldM {A V} (body : A -> V -> M V) (l : list A) (v : V) : M V :=
  match l with
  | [] => mret v
  | x :: l' => v' ← body x v; foldM body l' v'
  end.

Definition md5Checksum (path : string) : M string :=
  OS.Open path ;;
  data ← wrap "new" (OS.ReadAll path);
  mret (MD5.hexsum data).

(** The body of the loop of [unpack], for one entry of the archive. *)
Definition unpack_file (dstDir : string) (f : zipFile) : M unit :=
  let filePath := Filepath.Join dstDir (zName f) in
  if zIsDir f then wrap "mkdirall" (OS.MkdirAll filePath)
  else
    wrap "mkdirall" (OS.MkdirAll (Filepath.Dir filePath)) ;;
    wrap "openfile" (OS.OpenFile filePath (zMode f)) ;;
    wrap "open" (Zip.Open f) ;;
    wrap "copy" (OS.Copy filePath (zData f)).

Definition unpack (srcFile dstDir : string) : M unit :=
  let ext := Filepath.Ext srcFile in
  if negb (String.eqb ext ".zip") then throw (EMsg ("invalid extension: " +:+ ext))
  else
    r ← wrap "open" (Zip.OpenReader srcFile);
    forM_ r (unpack_file dstDir).

Definition is_maps (name : string) : bool :=
  Strings.HasPrefix (Strings.ToLower name) "maps/".

Definition maps_url (c : Client) : string := patcherUrl c +:+ "/maps.zip".

Definition file_url (c : Client) (entry : FileEntry) : string :=
  DownloadPrefix (cacheFileList c) +:+ "/" +:+ clientVersion c +:+ "/" +:+ Name entry.

Definition downloadPatchFile (c : Client) (entry : FileEntry) : M unit :=
  downloaded ← gets isMapsDownloaded;
  if negb downloaded && is_maps (Name entry) then
    logf "Downloading maps.zip..." [] ;;
    let url := maps_url c in
    resp ← wrap ("download " +:+ url) (HTTP.Get MapsArchive url);
    if negb (HTTP.StatusCode resp =? 200) then throw (EStatus url (HTTP.StatusCode resp))
    else
      wrap ("create " +:+ Name entry) (OS.Create "maps.zip") ;;
      wrap ("write " +:+ Name entry) (OS.Copy "maps.zip" (HTTP.Body resp)) ;;
      wrap ("unzip " +:+ Name entry) (unpack "maps.zip" ".") ;;
      modify (set_isMapsDownloaded true)
  else
    logf "%s (%s)" [AStr (Name entry); ASize (Size entry)] ;;
    wrap ("create " +:+ Name entry) (OS.Create (Name entry)) ;;
    let url := file_url c entry in
    resp ← wrap ("download " +:+ url) (HTTP.Get PatchFile url);
    if negb (HTTP.StatusCode resp =? 200) then throw (EStatus url (HTTP.StatusCode resp))
    else wrap ("write " +:+ Name entry) (OS.Copy (Name entry) (HTTP.Body resp)).

(** The variables of [patch] that the download loop updates. *)
Record loopVars := {
  totalDownloaded : Z;
  progressSize : Z;
  isMapsSkippedBefore : bool;
}.

Definition downloaded (entry : FileEntry) (v : loopVars) : loopVars :=
  {| totalDownloaded := add64 (totalDownloaded v) (int64 (Size entry));
     progressSize := add64 (progressSize v) (int64 (Size entry));
     isMapsSkippedBefore := isMapsSkippedBefore v |}.

Definition satisfied (entry : FileEntry) (skipped : bool) (v : loopVars) : loopVars :=
  {| totalDownloaded := totalDownloaded v;
     progressSize := add64 (progressSize v) (int64 (Size entry));
     isMapsSkippedBefore := skipped |}.

(** Lines 429 to 435 of [patch]: the directories of an entry. *)
Definition ensure_dir (entry : FileEntry) : M unit :=
  if Strings.Contains (Name entry) "/" then
    let newPath := Strings.TrimSuffix (Name entry) (Filepath.Base (Name entry)) in
    wrap ("mkdir " +:+ newPath) (OS.MkdirAll newPath)
  else mret tt.

(** One iteration of the first loop of [patch]; returning the variables is
    [continue], an error is [return err]. *)
Definition download_entry (c : Client) (entry : FileEntry) (v : loopVars) : M loopVars :=
  if Strings.Contains (Name entry) ".." then
    logf "Skipping %s, has .. inside it" [AStr (Name entry)] ;;
    mret v
  else
    ensure_dir entry ;;
    st ← try (OS.Stat (Name entry));
    match st with
    | Err err =>
        if IsNotExist err then
          wrap "download new file" (downloadPatchFile c entry) ;;
          modify (set_isPatched true) ;;
          mret (downloaded entry v)
        else throw (EWrap ("stat " +:+ Name entry) err)
    | Ok _ =>
        hash ← wrap "md5checksum" (md5Checksum (Name entry));
        if String.eqb hash (Md5 entry) then
          if is_maps (Name entry) then
            if isMapsSkippedBefore v then mret (satisfied entry true v)
            else
              logf "%s skipped (up to date)" [AStr (Name entry)] ;;
              mret (satisfied entry true v)
          else
            logf "%s skipped (up to date)" [AStr (Name entry)] ;;
            mret (satisfied entry (isMapsSkippedBefore v) v)
        else
          wrap "download new file" (downloadPatchFile c entry) ;;
          modify (set_isPatched true) ;;
          mret (downloaded entry v)
    end.

(** One iteration of the second loop of [patch]. *)
Definition delete_entry (entry : FileEntry) : M unit :=
  if Strings.Contains (Name entry) ".." then
    logf "Skipping %s, has .. inside it" [AStr (Name entry)]
  else
    st ← try (OS.Stat (Name entry));
    match st with
    | Err err =>
        if IsNotExist err then mret tt
        else throw (EWrap ("stat " +:+ Name entry) err)
    | Ok fi =>
        if IsDir fi then
          logf "Skipping deleting %s, it is a directory" [AStr (Name entry)]
        else
          r ← try (OS.Remove (Name entry));
          match r with
          | Err err => logf "Failed to delete %s: %s" [AStr (Name entry); AErr err]
          | Ok _ => logf "%s removed" [AStr (Name entry)]
          end
    end.

Definition initVars : loopVars :=
  {| totalDownloaded := 0; progressSize := 1; isMapsSkippedBefore := false |}.

Definition short_version (v : string) : string := substring 0 8 v.

Definition patch (c : Client) : M unit :=
  let fileList := cacheFileList c in
  recorded ← gets FileListVersion;
  if String.eqb recorded (Version fileList) then
    if (String.length (Version fileList) <? 8)%nat then logf "We are up to date" []
    else logf "We are up to date latest patch %s" [AStr (short_version (Version fileList))]
  else
    let totalSize :=
      fold_left (fun acc entry => add64 acc (int64 (Size entry))) (Downloads fileList) 0 in
    (if (String.length (Version fileList) <? 8)%nat
     then logf "Total patch size: %s" [ASize totalSize]
     else logf "Total patch size: %s, version: %s"
            [ASize totalSize; AStr (short_version (Version fileList))]) ;;
    v ← foldM (download_entry c) (Downloads fileList) initVars;
    forM_ (Deletes fileList) delete_entry ;;
    modify (set_FileListVersion (Version fileList)) ;;
    r ← try Config.Save;
    match r with
    | Err err => logf "Failed to save version to eqemupatch.yml: %s" [AErr err]
    | Ok _ => mret tt
    end ;;
    if totalDownloaded v =? 0 then modify (set_patchSummary FinishedIn)
    else modify (set_patchSummary (FinishedOf (totalDownloaded v))).

Definition string_of_bytes (data : list byte) : string := string_of_list_byte data.

Definition hash_url (c : Client) : string := patcherUrl c +:+ "/launcheq-hash.txt".

Definition exe_url (c : Client) : string := patcherUrl c +:+ "/" +:+ baseName c +:+ ".exe".

(** Lines 270 to 314 of [selfUpdate]: the clean-up of an earlier update,
    the hash of the running executable and the answer of the hash
    endpoint, both as they come. *)
Definition selfUpdate_hashes (c : Client) : M (string * string) :=
  exeName ← wrap "executable" OS.Executable;
  r ← try (OS.Remove (baseName c +:+ ".bat"));
  match r with
  | Err err =>
      if negb (IsNotExist err)
      then logf "Failed to remove %s.bat: %s" [AStr (baseName c); AErr err]
      else mret tt
  | Ok _ => logf "Removed %s.bat" [AStr (baseName c)]
  end ;;
  r ← try (OS.Remove ("." +:+ baseName c +:+ ".exe.old"));
  match r with
  | Err err =>
      if negb (IsNotExist err)
      then logf "Failed to remove .%s.exe.old: %s" [AStr (baseName c); AErr err]
      else mret tt
  | Ok _ => logf "Removed .%s.exe.old" [AStr (baseName c)]
  end ;;
  myHash ← wrap "checksum" (md5Checksum exeName);
  let url := hash_url c in
  logf "Checking for self update at %s" [AStr url] ;;
  resp ← wrap ("download " +:+ url) (HTTP.Get SelfHash url);
  if negb (HTTP.StatusCode resp =? 200) then throw (EStatus url (HTTP.StatusCode resp))
  else
    data ← wrap ("read " +:+ url) (HTTP.ReadAll resp);
    mret (myHash, string_of_bytes data).

(** Lines 316 to 381 of [selfUpdate]: the comparison and the update. *)
Definition selfUpdate_decide (c : Client) (myHash data : string) : M unit :=
  let myHash := Strings.ToUpper (Strings.TrimSpace myHash) in
  let remoteHash := Strings.ToUpper (Strings.TrimSpace data) in
  if String.eqb remoteHash "Not Found" then
    logf "Remote site down, ignoring self update" []
  else if String.eqb myHash remoteHash then
    logf "Self update not needed" []
  else
    logf "Updating %s... %s vs %s" [AStr (baseName c); AStr myHash; AStr remoteHash] ;;
    let url := exe_url c in
    logf "Downloading %s at %s" [AStr (baseName c); AStr url] ;;
    resp ← wrap "get" (HTTP.Get SelfBinary url);
    if negb (HTTP.StatusCode resp =? 200) then throw (EStatus url (HTTP.StatusCode resp))
    else
      logf "Applying update (will be used next launch)" [] ;;
      wrap "apply" (Selfupdate.Apply (HTTP.Body resp)).

Definition selfUpdate (c : Client) : M unit :=
  '(myHash, data) ← selfUpdate_hashes c;
  selfUpdate_decide c myHash data.

(** ** Reading a trace *)

Definition is_get (why : purpose) (c : call) : bool :=
  match c, why with
  | CGet MapsArchive _, MapsArchive
  | CGet PatchFile _, PatchFile
  | CGet SelfHash _, SelfHash
  | CGet SelfBinary _, SelfBinary => true
  | _, _ => false
  end.


Definition count (p : call -> bool) (t : list call) : nat := length (List.filter p t).

(** How often the archive of the maps was requested. *)
Definition bulk (t : list call) : nat := count (is_get MapsArchive) t.

(** ** The lines the pass writes to the log *)

Definition skip_line (name : string) : logline :=
  {| lfmt := "Skipping %s, has .. inside it"; largs := [AStr name] |}.

Definition up_to_date_line (name : string) : logline :=
  {| lfmt := "%s skipped (up to date)"; largs := [AStr name] |}.




Definition download_line (entry : FileEntry) : logline :=
  {| lfmt := "%s (%s)"; largs := [AStr (Name entry); ASize (Size entry)] |}.

Definition total_line (fileList : FileList) : logline :=
  let totalSize :=
    fold_left (fun acc entry => add64 acc (int64 (Size entry))) (Downloads fileList) 0 in
  if (String.length (Version fileList) <? 8)%nat
  then {| lfmt := "Total patch size: %s"; largs := [ASize totalSize] |}
  else {| lfmt := "Total patch size: %s, version: %s";
          largs := [ASize totalSize; AStr (short_version (Version fileList))] |}.

(** Lines 501 to 513 of [patch], after the two loops, where [v] holds the
    variables of the download loop: the version of the manifest is
    recorded and saved, and the summary is set. *)
Definition patch_end (c : Client) (v : loopVars) : M unit :=
  modify (set_FileListVersion (Version (cacheFileList c))) ;;
  r ← try Config.Save;
  match r with
  | Err err => logf "Failed to save version to eqemupatch.yml: %s" [AErr err]
  | Ok _ => mret tt
  end ;;
  if totalDownloaded v =? 0 then modify (set_patchSummary FinishedIn)
  else modify (set_patchSummary (FinishedOf (totalDownloaded v))).

(** An "up to date" line for a name under [maps/]. *)
Definition is_maps_skip (l : logline) : bool :=
  match largs l with
  | [AStr name] => String.eqb (lfmt l) "%s skipped (up to date)" && is_maps name
  | _ => false
  end.

Definition maps_skips (log : list logline) : nat := length (List.filter is_maps_skip log).

(** The calls [cs], made one after the other from trace [t], are all let
    through by the environment. *)
Fixpoint io_ok (env : Env) (t : list call) (cs : list call) : bool :=
  match cs with
  | [] => true
  | c :: cs' =>
      match io_error env t c with
      | None => io_ok env (t ++ [c]) cs'
      | Some _ => false
      end
  end.

Definition record_calls (cs : list call) (s : State) : State :=
  fold_left (fun s c => record_call c s) cs s.

(** [frames R m]: whatever the environment answers, the state after [m] is
    related by [R] to the state before. *)
Definition frames {A} (R : State -> State -> Prop) (m : M A) : Prop :=
  forall env s, R s (snd (m env s)).

(** What the lemmas about [frames R] ask of [R]: it is a preorder, and it
    is kept by a change of the filesystem, by a call that is not [noisy],
    by a log line that is not an "up to date" line for a map, and by an
    assignment to a field other than [isMapsDownloaded]. Only requests can
    be [noisy]. *)
Record frame_laws (R : State -> State -> Prop) (noisy : call -> bool) : Prop := {
  fl_refl : forall s, R s s;
  fl_trans : forall s1 s2 s3, R s1 s2 -> R s2 s3 -> R s1 s3;
  fl_fs : forall g s, R s (set_fs g s);
  fl_call : forall c s, noisy c = false -> R s (record_call c s);
  fl_log : forall l s, is_maps_skip l = false -> R s (add_log l s);
  fl_patched : forall b s, R s (set_isPatched b s);
  fl_version : forall v s, R s (set_FileListVersion v s);
  fl_persisted : forall v s, R s (set_persisted v s);
  fl_summary : forall p s, R s (set_patchSummary p s);
  fl_get : forall c, noisy c = true -> exists why url, c = CGet why url;
}.

(** The number of "up to date" lines for maps stays the same. *)
Definition same_skips (s s' : State) : Prop :=
  maps_skips (cacheLog s') = maps_skips (cacheLog s).

(** The requests for [url], whatever place of the client issued them. *)
Definition is_request (url : string) (c : call) : bool :=
  match c with
  | CGet _ u => String.eqb u url
  | _ => false
  end.

Definition requests (url : string) (t : list call) : nat := count (is_request url) t.

(** The number of calls that [cnt] counts and [isMapsDownloaded] stay the
    same. *)
Definition same_count (cnt : call -> bool) (s s' : State) : Prop :=
  count cnt (trace s') = count cnt (trace s) /\
  isMapsDownloaded s' = isMapsDownloaded s.

(** How the download loop may move the "up to date" lines for maps and
    [isMapsSkippedBefore]: both stay, or the flag goes from [false] to
    [true] as one such line is written. *)
Definition step_skips (v : loopVars) (s : State) (r : result loopVars) (s' : State) : Prop :=
  match r with
  | Ok v' =>
      (isMapsSkippedBefore v' = isMapsSkippedBefore v /\ same_skips s s') \/
      (isMapsSkippedBefore v = false /\ isMapsSkippedBefore v' = true /\
       maps_skips (cacheLog s') = S (maps_skips (cacheLog s)))
  | Err _ =>
      same_skips s s' \/
      (isMapsSkippedBefore v = false /\ maps_skips (cacheLog s') = S (maps_skips (cacheLog s)))
  end.

(** How a computation may move the calls that [cnt] counts and
    [isMapsDownloaded]: both stay, or the flag is unset and at most one such
    call is made, after which the flag is set unless the computation
    fails. *)
Definition step_count {A} (cnt : call -> bool) (s : State) (r : result A) (s' : State)
    : Prop :=
  match r with
  | Ok _ =>
      same_count cnt s s' \/
      (isMapsDownloaded s = false /\ isMapsDownloaded s' = true /\
       (count cnt (trace s') <= S (count cnt (trace s)))%nat)
  | Err _ =>
      count cnt (trace s') = count cnt (trace s) \/
      (isMapsDownloaded s = false /\
       (count cnt (trace s') <= S (count cnt (trace s)))%nat)
  end.

Definition steps_count {A} (cnt : call -> bool) (m : M A) : Prop :=
  forall env s, step_count cnt s (fst (m env s)) (snd (m env s)).

(** The download loop, started on [entry] in state [s_pre], calls
    [downloadPatchFile] in state [s]: the name is free of [..], its
    directories are there, and either nothing is at the path, or a file
    whose hash is not the expected one. *)
Definition reaches_download (entry : FileEntry) (env : Env) (s_pre s : State) : Prop :=
  Strings.Contains (Name entry) ".." = false /\
  exists s1,
    ensure_dir entry env s_pre = (Ok tt, s1) /\
    ((exists err, OS.Stat (Name entry) env s1 = (Err err, s) /\ IsNotExist err = true) \/
     (exists fi s2 hash,
        OS.Stat (Name entry) env s1 = (Ok fi, s2) /\
        md5Checksum (Name entry) env s2 = (Ok hash, s) /\
        hash <> Md5 entry)).


(** ** Concrete runs

    A stock of small clients, environments and states on which the
    definitions above are evaluated. *)
Module Scenario.

Definition text (s : string) : list byte := MD5.bytes_of_string s.

(** A server as a table from URL to status and body; a URL that is not in
    the table does not connect. *)
Fixpoint page (table : list (string * (Z * list byte))) (url : string)
    : option (Z * list byte) :=
  match table with
  | [] => None
  | (u, answer) :: table' => if String.eqb u url then Some answer else page table' url
  end.

(** An environment in which no call fails on its own, with the usual mask
    [022]. *)
Definition quiet (table : list (string * (Z * list byte))) (archive : list zipFile) : Env :=
  {| io_error := fun _ _ => None;
     http := fun _ url => page table url;
     short := fun _ => O;
     zip_reader := fun _ => Some archive;
     executable := "launcheq.exe";
     umask := 18 |}.

(** The state of a process that has just started. *)
Definition fresh (files : gmap string node) (recorded : string) : State :=
  {| fs := files; trace := []; cacheLog := []; isMapsDownloaded := false;
     isPatched := false; patchSummary := NoSummary; FileListVersion := recorded;
     persisted := None |}.

Definition client (fileList : FileList) : Client :=
  {| baseName := "launcheq"; patcherUrl := "http://patch.example";
     clientVersion := "rof"; cacheFileList := fileList |}.

Definition manifest (version : string) (downloads deletes : list FileEntry) : FileList :=
  {| Version := version; DownloadPrefix := "http://files.example";
     Downloads := downloads; Deletes := deletes |}.

Definition entry (name md5 : string) (size : Z) : FileEntry :=
  {| Name := name; Md5 := md5; Size := size |}.

(** A file [readme.txt] holding [abc], and a manifest that lists it with
    the hash in upper case. *)
Definition readme_upper : FileEntry :=
  entry "readme.txt" "900150983CD24FB0D6963F7D28E17F72" 3.

Definition readme_lower : FileEntry :=
  entry "readme.txt" "900150983cd24fb0d6963f7d28e17f72" 3.

Definition readme_disk : gmap string node := {[ "readme.txt" := File 420 (text "abc") ]}.

Definition readme_server : list (string * (Z * list byte)) :=
  [("http://files.example/rof/readme.txt", (200, text "abc"))].

Definition readme_client : Client := client (manifest "20240101" [readme_upper] []).

Definition readme_env : Env := quiet readme_server [].

Definition readme_start : State := fresh readme_disk "20231201".

(** Three maps and a text file, all up to date on disk. *)
Definition map_a : FileEntry := entry "maps/a.txt" "0cc175b9c0f1b6a831c399e269772661" 1.
Definition map_b : FileEntry := entry "Maps/b.txt" "900150983cd24fb0d6963f7d28e17f72" 3.
Definition map_c : FileEntry := entry "maps/c.txt" "d41d8cd98f00b204e9800998ecf8427e" 0.

Definition maps_disk : gmap string node :=
  {[ "maps" := Directory; "Maps" := Directory;
     "maps/a.txt" := File 420 (text "a");
     "Maps/b.txt" := File 420 (text "abc");
     "maps/c.txt" := File 420 [];
     "readme.txt" := File 420 (text "abc") ]}.

Definition maps_client : Client :=
  client (manifest "20240101" [map_a; map_b; map_c; readme_lower] []).

Definition maps_env : Env := quiet [] [].

Definition maps_start : State := fresh maps_disk "20231201".

(** The pass after its first entry, and after the directory of the second
    one was seen to. *)
Definition after_a : State :=
  snd (foldM (download_entry maps_client) [map_a] initVars maps_env
         (add_log (total_line (cacheFileList maps_client)) maps_start)).

Definition after_dir_b : State := snd (ensure_dir map_b maps_env after_a).

(** Two maps that are not on disk, and an archive that holds the first of
    them. *)
Definition bulk_client : Client :=
  client (manifest "20240101"
    [entry "maps/a.txt" "0cc175b9c0f1b6a831c399e269772661" 1;
     entry "maps/b.txt" "900150983cd24fb0d6963f7d28e17f72" 3] []).

Definition bulk_archive : list zipFile :=
  [{| zName := "maps/"; zIsDir := true; zMode := 493; zData := [] |};
   {| zName := "maps/a.txt"; zIsDir := false; zMode := 420; zData := text "a" |}].

Definition bulk_env : Env :=
  quiet [("http://patch.example/maps.zip", (200, text "PK"));
         ("http://files.example/rof/maps/b.txt", (200, text "abc"))] bulk_archive.

Definition bulk_start : State := fresh ∅ "20231201".

Definition bulk_done : State := set_isMapsDownloaded true bulk_start.

(** The same start with a text file on disk that the manifest does not
    list. *)
Definition bulk_keep : State :=
  fresh {[ "readme.txt" := File 420 (text "abc") ]} "20231201".

(** The running executable holds [abc]; the server answers every request
    with the page [Not Found]. *)
Definition exe_disk : gmap string node := {[ "launcheq.exe" := File 493 (text "abc") ]}.

Definition down_env : Env :=
  quiet [("http://patch.example/launcheq-hash.txt", (200, text "Not Found"));
         ("http://patch.example/launcheq.exe", (200, text "Not Found"))] [].

Definition self_client : Client := client (manifest "20240101" [] []).

Definition self_start : State := fresh exe_disk "20240101".




(** An archive with an entry that climbs out of the directory it is
    expanded into, behind a manifest whose only entry is harmless. *)
Definition evil_file : zipFile :=
  {| zName := "../evil.txt"; zIsDir := false; zMode := 420; zData := text "x" |}.

Definition evil_client : Client :=
  client (manifest "20240101" [entry "maps/a.txt" "0cc175b9c0f1b6a831c399e269772661" 1] []).

Definition evil_env : Env :=
  quiet [("http://patch.example/maps.zip", (200, text "PK"))] [evil_file].

(** [readme.txt] is on disk with another content than the manifest wants,
    and the server has no such file. *)
Definition stale_entry : FileEntry := entry "readme.txt" "0cc175b9c0f1b6a831c399e269772661" 1.

Definition stale_client : Client :=
  client (manifest "20240101" [map_c; stale_entry; map_a] [entry "maps/c.txt" "" 0]).

Definition stale_env : Env := quiet [("http://files.example/rof/readme.txt", (404, []))] [].

(** The pass of [stale_client] from [maps_start], when it reaches
    [readme.txt]. *)
Definition stale_pre : State :=
  snd (foldM (download_entry stale_client) [map_c] initVars stale_env
         (add_log (total_line (cacheFileList stale_client)) maps_start)).

Definition stale_reached : State :=
  record_calls [CStat "readme.txt"; COpen "readme.txt"; CRead "readme.txt"] stale_pre.

Definition stale_created : State :=
  snd (OS.Create "readme.txt" stale_env (add_log (download_line stale_entry) stale_reached)).

(** The manifest "abc12345" lists [data/foo.dat], which is not on disk,
    and wants [old/bar.dat], which is, removed; nothing was recorded yet. *)
Definition foo : FileEntry := entry "data/foo.dat" "5d41402abc4b2a76b9719d911017c592" 5.

Definition sync_client : Client :=
  client (manifest "abc12345" [foo] [entry "old/bar.dat" "" 0]).

Definition sync_env : Env :=
  quiet [("http://files.example/rof/data/foo.dat", (200, text "hello"))] [].

Definition sync_start : State :=
  fresh {[ "old" := Directory; "old/bar.dat" := File 420 (text "bar") ]} "".

(** Three files on disk, and a manifest that wants them deleted under the
    names [a..b.txt], [readme.txt/] and [old.txt]. *)
Definition dots_disk : gmap string node :=
  {[ "a..b.txt" := File 420 (text "a"); "readme.txt" := File 420 (text "abc");
     "old.txt" := File 420 (text "x") ]}.

Definition dots_client : Client :=
  client (manifest "20240101" []
            [entry "a..b.txt" "" 0; entry "readme.txt/" "" 0; entry "old.txt" "" 0]).

Definition dots_start : State := fresh dots_disk "20231201".

End Scenario.

(** ** What a computation can reach *)

(** From one filesystem to the next, every node is still there, a directory
    as a directory, unless it is a file at a path in [D]. *)
Definition nodes_kept (D : string -> Prop) (f f' : gmap string node) : Prop :=
  forall k n, f !! k = Some n ->
    (exists n', f' !! k = Some n' /\ (n = Directory -> n' = Directory)) \/
    (D k /\ n <> Directory).

(** Every regular file is still there with its mode and its content,
    unless its path is in [D]. *)
Definition files_kept (D : string -> Prop) (f f' : gmap string node) : Prop :=
  forall k m data, f !! k = Some (File m data) -> D k \/ f' !! k = Some (File m data).

(** Nothing changes at the paths that are not in [D]. *)
Definition same_off (D : string -> Prop) (f f' : gmap string node) : Prop :=
  forall k, ~ D k -> f' !! k = f !! k.

(** The relations between filesystems that steps can be chained for. *)
Record fs_order (F : gmap string node -> gmap string node -> Prop) : Prop := {
  fo_refl : forall f, F f f;
  fo_trans : forall f1 f2 f3, F f1 f2 -> F f2 f3 -> F f1 f3;
}.

(** From state [s] to state [s']: the calls made in between all satisfy
    [P], the two filesystems are related by [F], and the version record is
    the same. *)
Record within (P : call -> Prop) (F : gmap string node -> gmap string node -> Prop)
    (s s' : State) : Prop := {
  w_calls : exists t, trace s' = (trace s ++ t)%list /\ Forall P t;
  w_nodes : F (fs s) (fs s');
  w_version : FileListVersion s' = FileListVersion s /\ persisted s' = persisted s;
}.

(** [stays P F env m]: in the environment [env], [m] stays [within] [P]
    and [F] from every state. *)
Definition stays {A} (P : call -> Prop) (F : gmap string node -> gmap string node -> Prop)
    (env : Env) (m : M A) : Prop :=
  forall s, within P F s (snd (m env s)).

(** What a step that writes the file at [p], removes the file at [p],
    removes whatever is at [p], or makes directories, has to keep. *)
Definition keeps_write (F : gmap string node -> gmap string node -> Prop) (p : string) : Prop :=
  forall f m data, f !! p <> Some Directory -> F f (<[p := File m data]> f).

Definition keeps_remove_file (F : gmap string node -> gmap string node -> Prop) (p : string)
    : Prop :=
  forall f m data, f !! p = Some (File m data) -> F f (delete p f).

Definition keeps_change (F : gmap string node -> gmap string node -> Prop) (p : string) : Prop :=
  forall f, F f (delete p f) /\ forall n, F f (<[p := n]> f).

Definition keeps_mkdir (F : gmap string node -> gmap string node -> Prop)
    (ps : list string) : Prop :=
  forall f,
    existsb (OS.is_file f) ps = false ->
    Forall (fun p => Filepath.implicit_dir p = false) ps ->
    F f (fold_left (fun m p => <[p := Directory]> m) ps f).

(** The directories that [os.MkdirAll(path)] may create. *)
Definition made_dirs (path : string) : list string :=
  List.filter (fun p => negb (Filepath.implicit_dir p))
    (Filepath.prefixes (Filepath.Clean path)).

(** *** A pass *)

(** The paths that the two loops of [patch] hand to the system themselves
    (and not through the archive) are the arguments of these calls. *)
Definition loop_path (c : call) : option string :=
  match c with
  | CStat p | CCreate p | CRemove p | COpen p | CRead p => Some p
  | _ => None
  end.

(** What a pass over the manifest of [c] may call: no path of its own with
    [..] in it, no request but for the archive of the maps and for the
    files of the manifest, no removal but of what the manifest wants
    deleted, and neither an update of the executable nor a save. *)
Definition pass_call (c : Client) (k : call) : Prop :=
  match k with
  | CStat p | COpen p | CRead p | CCreate p => Strings.Contains p ".." = false
  | CRemove p =>
      Strings.Contains p ".." = false /\
      exists entry, In entry (Deletes (cacheFileList c)) /\ Name entry = p
  | CGet MapsArchive url => url = maps_url c
  | CGet PatchFile url =>
      exists entry,
        In entry (Downloads (cacheFileList c)) /\
        Strings.Contains (Name entry) ".." = false /\
        url = file_url c entry
  | CGet _ _ | CApply | CSave _ | CExecutable | CReadAll _ | CRename _ _ => False
  | CMkdirAll _ | COpenFile _ _ | CWrite _ | CZipOpenReader _ | CZipOpen _ => True
  end.

(** The cleaned paths of the Delete Entries that the pass does not skip. *)
Definition to_delete (c : Client) (k : string) : Prop :=
  exists entry,
    In entry (Deletes (cacheFileList c)) /\
    Strings.Contains (Name entry) ".." = false /\
    Filepath.Clean (Name entry) = k.

(** What a pass keeps of the nodes on disk. *)
Definition pass_keeps (c : Client) (f f' : gmap string node) : Prop :=
  nodes_kept (to_delete c) f f'.

(** *** The archive that was fetched *)

(** The entries of the archive that a request for it, made after the calls
    [t], brings: those that the reader finds in the body of an answer with
    status 200. *)
Definition fetched_at (c : Client) (env : Env) (t : list call) (f : zipFile) : Prop :=
  exists body files,
    http env t (maps_url c) = Some (200, body) /\
    zip_reader env body = Some files /\
    In f files.

(** The entries of the archives requested among the calls [T], after the
    calls [t0] that [T] begins with. *)
Definition fetched_in (c : Client) (env : Env) (t0 T : list call) (f : zipFile) : Prop :=
  exists t1 t2,
    T = (t0 ++ t1 ++ CGet MapsArchive (maps_url c) :: t2)%list /\
    fetched_at c env (t0 ++ t1)%list f.

(** The paths at which a pass that starts after the calls [t0] and makes
    the calls that follow in [T] writes or removes a file: [maps.zip], the
    cleaned names of the entries of the manifest, and where the files of
    an archive it fetched go when it is expanded into the working
    directory. *)
Definition touched (c : Client) (env : Env) (t0 T : list call) (k : string) : Prop :=
  k = "maps.zip" \/
  (exists entry,
     (In entry (Downloads (cacheFileList c)) \/ In entry (Deletes (cacheFileList c))) /\
     Strings.Contains (Name entry) ".." = false /\
     Filepath.Clean (Name entry) = k) \/
  (exists f, fetched_in c env t0 T f /\ zIsDir f = false /\
     Filepath.Clean (Filepath.Join "." (zName f)) = k).

(** From state [s] to state [s'] calls were added to the trace; and when
    [s] was reached after the calls [t0] and [T] begins with the calls
    made up to [s'], the step stays [within] [P] and [F]. *)
Record between (t0 T : list call) (P : call -> Prop)
    (F : gmap string node -> gmap string node -> Prop) (s s' : State) : Prop := {
  b_grows : exists t, trace s' = (trace s ++ t)%list;
  b_within :
    (exists t1, trace s = (t0 ++ t1)%list) ->
    (exists t2, T = (trace s' ++ t2)%list) ->
    within P F s s';
}.

Definition stays_between {A} (t0 T : list call) (P : call -> Prop)
    (F : gmap string node -> gmap string node -> Prop) (env : Env) (m : M A) : Prop :=
  forall s, between t0 T P F s (snd (m env s)).

(** *** The update of the executable *)

Definition bat_name (c : Client) : string := baseName c +:+ ".bat".
Definition old_name (c : Client) : string := "." +:+ baseName c +:+ ".exe.old".

(** What [selfUpdate] may call. *)
Definition self_call (c : Client) (env : Env) (k : call) : Prop :=
  match k with
  | CExecutable | CApply => True
  | CRemove p => p = bat_name c \/ p = old_name c
  | COpen p | CRead p => p = executable env
  | CGet SelfHash url | CReadAll url => url = hash_url c
  | CGet SelfBinary url => url = exe_url c
  | _ => False
  end.

(** The paths at which [selfUpdate] itself changes the filesystem: those
    of the two leftovers of an earlier update that it removes. *)
Definition self_paths (c : Client) (k : string) : Prop :=
  k = Filepath.Clean (bat_name c) \/ k = Filepath.Clean (old_name c).

(** ** Checksums *)

(** A digit of [%x]. *)
Definition lower_hex (a : ascii) : bool :=
  existsb (Ascii.eqb a) (list_ascii_of_string "0123456789abcdef").

(** The texts that [md5Checksum] can return. *)
Definition is_checksum (h : string) : bool :=
  (String.length h =? 32)%nat && forallb lower_hex (list_ascii_of_string h).

(** ** The archive of the maps *)

(** Where [unpack] puts the entry [f] of an archive. *)
Definition destination (dstDir : string) (f : zipFile) : string :=
  Filepath.Clean (Filepath.Join dstDir (zName f)).

(** What the branch of [downloadPatchFile] that fetches the archive may
    call. *)
Definition archive_call (c : Client) (k : call) : Prop :=
  match k with
  | CGet MapsArchive url => url = maps_url c
  | CCreate p | CZipOpenReader p => p = "maps.zip"
  | CWrite _ | CMkdirAll _ | COpenFile _ _ | CZipOpen _ => True
  | _ => False
  end.

(** The paths at which that branch may change the filesystem when it
    starts after the calls [t]: the archive itself, and for each entry of
    the archive that its request brings, the directories that are made for
    it and the file it is written to. *)
Definition expanded (c : Client) (env : Env) (t : list call) (k : string) : Prop :=
  k = Filepath.Clean "maps.zip" \/
  exists f, fetched_at c env t f /\
    if zIsDir f then In k (made_dirs (Filepath.Join "." (zName f)))
    else In k (made_dirs (Filepath.Dir (Filepath.Join "." (zName f)))) \/
         k = destination "." f.

(** ** The manifest and the run *)

Definition list_url (c : Client) : string :=
  patcherUrl c +:+ "/filelist_" +:+ clientVersion c +:+ ".yml".

Definition legacy_url (c : Client) : string :=
  patcherUrl c +:+ "/" +:+ clientVersion c +:+ "/filelist_" +:+ clientVersion c +:+ ".yml".

Definition set_cacheFileList (fileList : FileList) (c : Client) : Client :=
  {| baseName := baseName c; patcherUrl := patcherUrl c;
     clientVersion := clientVersion c; cacheFileList := fileList |}.

(** [&FileList{}] *)
Definition no_list : FileList :=
  {| Version := ""; DownloadPrefix := ""; Downloads := []; Deletes := [] |}.

(** What [fetchFileList] leaves behind: the URLs it requested, in order,
    the client with its [cacheFileList], and the error it returns, if any.
    The requests for the manifest are not among the calls of a pass, and
    are kept here and not in the trace; a request that does not connect
    gives the error [EMsg] of [Get] and the URL. *)
Record fetched := {
  asked : list string;
  client_after : Client;
  fetch_error : option error;
}.

(** [decode] stands for [yaml.NewDecoder(resp.Body).Decode]. *)
Definition fetchFileList (decode : list byte -> result FileList) (c : Client)
    : Env -> State -> fetched * State := fun env s =>
  let url := list_url c in
  let s := add_log {| lfmt := "Downloading %s"; largs := [AStr url] |} s in
  let answered (urls : list string) (code : Z) (body : list byte) (s : State) :=
    if negb (code =? 200) then
      ({| asked := urls; client_after := set_cacheFileList no_list c;
          fetch_error := Some (EStatus url code) |}, s)
    else
      match decode body with
      | Err err =>
          ({| asked := urls; client_after := c;
              fetch_error := Some (EWrap "decode filelist" err) |}, s)
      | Ok fileList =>
          ({| asked := urls; client_after := set_cacheFileList fileList c;
              fetch_error := None |}, s)
      end in
  match http env (trace s) url with
  | Some (code, body) => answered [url] code body s
  | None =>
      let url' := legacy_url c in
      let s := add_log {| lfmt := "Downloading legacy %s"; largs := [AStr url'] |} s in
      match http env (trace s) url' with
      | Some (code, body) => answered [url; url'] code body s
      | None =>
          ({| asked := [url; url']; client_after := c;
              fetch_error := Some (EWrap ("download " +:+ url') (EMsg ("Get " +:+ url'))) |},
           s)
      end
  end.

(** How [selfUpdateAndPatch] ends: it returns, with an error or without,
    or it calls [Exit], which does not return. *)
Inductive outcome :=
| Returned (err : option error)
| Exited (code : Z).

Definition virus_text : string :=
  "because the file contains a virus or potentially unwanted software".

(** [text] stands for [err.Error()]. *)
Definition selfUpdateAndPatch (decode : list byte -> result FileList)
    (text : error -> string) (c : Client)
    : Env -> State -> (outcome * Client) * State := fun env s =>
  let '(f, s1) := fetchFileList decode c env s in
  let c' := client_after f in
  match fetch_error f with
  | Some err =>
      (Returned None, c',
       add_log {| lfmt := "Failed fetch file list, skipping: %s"; largs := [AErr err] |} s1)
  | None =>
      match patch c' env s1 with
      | (Err err, s2) => (Returned (Some (EWrap "patch" err)), c', s2)
      | (Ok _, s2) =>
          match selfUpdate c' env s2 with
          | (Err err, s3) =>
              if Strings.Contains (text err) virus_text then (Exited 1, c', s3)
              else
                (Returned None, c',
                 add_log {| lfmt := "Failed self update, skipping: %s";
                            largs := [AErr err] |} s3)
          | (Ok _, s3) => (Returned None, c', s3)
          end
      end
  end.

(** ** The login name *)

Definition LF : ascii := "010"%char.
Definition CR : ascii := "013"%char.

Fixpoint has_lf (s : string) : bool :=
  match s with
  | EmptyString => false
  | String a s' => Ascii.eqb a LF || has_lf s'
  end.

(** The lines of a text: the pieces between line feeds, where what follows
    the last line feed is a line when it is not empty. *)
Fixpoint raw_lines (s : string) : list string :=
  match s with
  | EmptyString => []
  | String a s' =>
      if Ascii.eqb a LF then EmptyString :: raw_lines s'
      else match raw_lines s' with
           | [] => [String a EmptyString]
           | l :: ls => String a l :: ls
           end
  end.

(** [dropCR] of [bufio]: a carriage return at the end goes. *)
Fixpoint dropCR (l : string) : string :=
  match l with
  | EmptyString => EmptyString
  | String a l' =>
      match l' with
      | EmptyString => if Ascii.eqb a CR then EmptyString else l
      | String _ _ => String a (dropCR l')
      end
  end.

(** [bufio.MaxScanTokenSize] *)
Definition MaxScanTokenSize : Z := 64 * 1024.

(** The tokens that a [bufio.Scanner] with [ScanLines] hands out: the
    lines in order, each without its carriage return, up to the first line
    that does not fit into the buffer, where scanning stops with
    [ErrTooLong]. *)
Fixpoint scan_tokens (ls : list string) : list string :=
  match ls with
  | [] => []
  | l :: ls' =>
      if Z.of_nat (String.length l) <? MaxScanTokenSize then dropCR l :: scan_tokens ls'
      else []
  end.

Definition scan_lines (text : string) : list string := scan_tokens (raw_lines text).

(** [s[n:]] *)
Fixpoint after (n : nat) (s : string) : string :=
  match n, s with
  | O, _ => s
  | S n', String _ s' => after n' s'
  | S _, EmptyString => EmptyString
  end.

Definition TrimPrefix (s prefix : string) : string :=
  if Strings.HasPrefix s prefix then after (String.length prefix) s else s.

(** The loop of [fetchUsername] over the tokens. *)
Fixpoint first_username (lines : list string) : string :=
  match lines with
  | [] => ""
  | line :: lines' =>
      if Strings.HasPrefix line "Username=" then TrimPrefix line "Username="
      else first_username lines'
  end.

Definition user_file : string := "eqlsPlayerData.ini".

(** What the scanner reads from the file opened at [path]: all of it, or
    what arrived before a read failed; nothing of a directory. The
    scanner keeps the error of the read to itself. *)
Definition scanned (path : string) : M string := fun env s =>
  let c := CRead path in
  let data := match OS.lookup (fs s) path with
              | OS.Found (File _ data) => data
              | _ => []
              end in
  match io_error env (trace s) c with
  | Some _ => (Ok (string_of_bytes (firstn (short env (trace s)) data)), record_call c s)
  | None => (Ok (string_of_bytes data), record_call c s)
  end.

Definition fetchUsername : M string :=
  OS.Open user_file ;;
  text ← scanned user_file;
  mret (first_username (scan_lines text)).

(** A text of whole lines. *)
Fixpoint unlines (ls : list string) : string :=
  match ls with
  | [] => ""
  | l :: ls' => l +:+ String LF (unlines ls')
  end.

(** A line that the loop of [fetchUsername] passes over. *)
Definition passed_over (l : string) : Prop :=
  has_lf l = false /\
  Z.of_nat (String.length l) < MaxScanTokenSize /\
  Strings.HasPrefix l "Username=" = false.

(** ** Sizes for the reader *)

(** [a / b] rounded to the nearest integer, a tie to the even one; for
    [0 <= a] and [0 < b]. *)
Definition round_half_even (a b : Z) : Z :=
  let q := a / b in
  let r := a mod b in
  if 2 * r <? b then q
  else if b <? 2 * r then q + 1
  else if Z.even q then q else q + 1.

(** [float64(n)] for an integer [n], as the integer that the float holds:
    [n] itself up to 53 bits, and beyond that the nearest integer with 53
    significant bits, a tie to the even one. *)
Definition float64_of_int (n : Z) : Z :=
  let a := Z.abs n in
  let k := Z.log2 a - 52 in
  if k <=? 0 then n else Z.sgn n * (round_half_even a (2 ^ k) * 2 ^ k).

Definition digit (d : Z) : ascii := ascii_of_nat (Z.to_nat (48 + d)).

Fixpoint digits (fuel : nat) (n : Z) (acc : string) : string :=
  match fuel with
  | O => acc
  | S fuel' =>
      let acc' := String (digit (n mod 10)) acc in
      if n <? 10 then acc' else digits fuel' (n / 10) acc'
  end.

(** [%d] of a natural number. *)
Definition decimal (n : Z) : string := digits (S (Z.to_nat (Z.log2 n))) n "".

Definition two_digits (d : Z) : string :=
  String (digit (d / 10)) (String (digit (d mod 10)) "").

(** [%0.2f] of the float [m / 2 ^ e], for an integer [m]: the hundredths
    nearest to it, a tie going to the even one. *)
Definition hundredths (m e : Z) : Z := round_half_even (Z.abs m * 100) (2 ^ e).

Definition fixed2 (m e : Z) : string :=
  let q := hundredths m e in
  (if m <? 0 then "-" else "") +:+ decimal (q / 100) +:+ "." +:+ two_digits (q mod 100).

(** [val] is kept as the integer of [float64(in)] and the power of two it
    was divided by, every division by 1024 being exact. *)
Definition generateSize (n : Z) : string :=
  let val := float64_of_int n in
  if val <? 1024 then fixed2 val 0 +:+ " bytes"
  else if val <? 1024 * 1024 then fixed2 val 10 +:+ " KB"
  else if val <? 1024 * 1024 * 1024 then fixed2 val 20 +:+ " MB"
  else if val <? 1024 * 1024 * 1024 * 1024 then fixed2 val 30 +:+ " GB"
  else fixed2 val 40 +:+ " TB".

(** The unit that a size is shown in, as the power of 1024 it stands for. *)
Definition unit_of (n : Z) : Z :=
  if n <? 1024 then 0
  else if n <? 1024 ^ 2 then 1
  else if n <? 1024 ^ 3 then 2
  else if n <? 1024 ^ 4 then 3
  else 4.

Definition unit_name (u : Z) : string :=
  if u =? 0 then " bytes"
  else if u =? 1 then " KB"
  else if u =? 2 then " MB"
  else if u =? 3 then " GB"
  else " TB".

(** ** The name of the client *)

(** [s[0:strings.Index(s, ".")]], for an [s] with a dot in it. *)
Fixpoint up_to_dot (s : string) : string :=
  match s with
  | EmptyString => EmptyString
  | String a s' => if Ascii.eqb a "." then EmptyString else String a (up_to_dot s')
  end.

(** Lines 62 to 65 of [New]: the name that the client goes by, from the
    path of its executable. *)
Definition base_name (exeName : string) : string :=
  let b := Filepath.Base exeName in
  if Strings.Contains b "." then up_to_dot b else b.

Fixpoint has_char (a : ascii) (s : string) : bool :=
  match s with
  | EmptyString => false
  | String b s' => Ascii.eqb b a || has_char a s'
  end.

(** * Properties *)

(** ** Checksum utility *)

(** The test vectors of RFC 1321. *)
Example md5_empty : MD5.hexsum [] = "d41d8cd98f00b204e9800998ecf8427e".
Proof. vm_compute. reflexivity. Qed.

Example md5_a : MD5.hexsum (MD5.bytes_of_string "a") = "0cc175b9c0f1b6a831c399e269772661".
Proof. vm_compute. reflexivity. Qed.

Example md5_abc : MD5.hexsum (MD5.bytes_of_string "abc") = "900150983cd24fb0d6963f7d28e17f72".
Proof. vm_compute. reflexivity. Qed.

Example md5_two_blocks :
  MD5.hexsum (MD5.bytes_of_string
    "12345678901234567890123456789012345678901234567890123456789012345678901234567890")
  = "57edf4a22be3c955ac49da2e2107b67a".
Proof. vm_compute. reflexivity. Qed.

(** ** The monad *)

Lemma bind_ok {A B} (m : M A) (f : A -> M B) env s a s' :
  m env s = (Ok a, s') -> (m ≫= f) env s = f a env s'.
Proof. intros H. unfold mbind, M_bind. now rewrite H. Qed.

Lemma bind_err {A B} (m : M A) (f : A -> M B) env s e s' :
  m env s = (Err e, s') -> (m ≫= f) env s = (Err e, s').
Proof. intros H. unfold mbind, M_bind. now rewrite H. Qed.

Lemma wrap_ok {A} p (m : M A) env s a s' :
  m env s = (Ok a, s') -> wrap p m env s = (Ok a, s').
Proof. intros H. unfold wrap. now rewrite H. Qed.

Lemma wrap_err {A} p (m : M A) env s e s' :
  m env s = (Err e, s') -> wrap p m env s = (Err (EWrap p e), s').
Proof. intros H. unfold wrap. now rewrite H. Qed.

Lemma wrap_Ok {A} p (m : M A) env s a s' :
  wrap p m env s = (Ok a, s') -> m env s = (Ok a, s').
Proof. unfold wrap. destruct (m env s) as [[a'|e] s1]; [trivial | discriminate]. Qed.


Lemma wrap_snd {A} p (m : M A) env s : snd (wrap p m env s) = snd (m env s).
Proof. unfold wrap. now destruct (m env s) as [[a|e] s1]. Qed.

Lemma bind_same {A B} (m m' : M A) (f : A -> M B) env s s' :
  m env s = m' env s' -> (m ≫= f) env s = (m' ≫= f) env s'.
Proof. intros H. unfold mbind, M_bind. now rewrite H. Qed.

Lemma try_run {A} (m : M A) env s r s' :
  m env s = (r, s') -> try m env s = (Ok r, s').
Proof. intros H. unfold try. now rewrite H. Qed.

Lemma logf_run fmt args env s :
  logf fmt args env s = (Ok tt, add_log {| lfmt := fmt; largs := args |} s).
Proof. reflexivity. Qed.

Lemma forM_cons {A} (body : A -> M unit) x l env s s' :
  body x env s = (Ok tt, s') ->
  forM_ (x :: l) body env s = forM_ l body env s'.
Proof. intros H. simpl. now rewrite (bind_ok _ _ _ _ _ _ H). Qed.

Lemma foldM_cons {A V} (body : A -> V -> M V) x l v env s v' s' :
  body x v env s = (Ok v', s') ->
  foldM body (x :: l) v env s = foldM body l v' env s'.
Proof. intros H. simpl. now rewrite (bind_ok _ _ _ _ _ _ H). Qed.

Lemma foldM_cons_err {A V} (body : A -> V -> M V) x l v env s e s' :
  body x v env s = (Err e, s') ->
  foldM body (x :: l) v env s = (Err e, s').
Proof. intros H. simpl. now rewrite (bind_err _ _ _ _ _ _ H). Qed.

Lemma foldM_app {A V} (body : A -> V -> M V) l1 l2 v env s v1 s1 :
  foldM body l1 v env s = (Ok v1, s1) ->
  foldM body (l1 ++ l2) v env s = foldM body l2 v1 env s1.
Proof.
  revert v s. induction l1 as [|x l1 IH]; intros v s H; simpl in *.
  - now inversion H.
  - unfold mbind, M_bind in *.
    destruct (body x v env s) as [[v'|e] s''] eqn:E; [|discriminate].
    now apply IH.
Qed.

(** ** Fast path of the synchronizer *)

(** C3. When the version of the manifest equals the recorded version,
    [patch] returns at once and successfully: apart from one more line in
    the log the state is the one it started from, so the filesystem is
    untouched, no call left the process (no download, delete, directory
    creation or save) and the version record is as it was. *)
Theorem patch_same_version_noop (c : Client) (env : Env) (s : State) :
  FileListVersion s = Version (cacheFileList c) ->
  exists l, patch c env s = (Ok tt, add_log l s) /\
    fs (add_log l s) = fs s /\ trace (add_log l s) = trace s /\
    FileListVersion (add_log l s) = FileListVersion s /\
    persisted (add_log l s) = persisted s /\
    isPatched (add_log l s) = isPatched s.
Proof.
  intros H. unfold patch, gets, mbind, M_bind. rewrite H, String.eqb_refl.
  destruct (String.length _ <? 8)%nat; rewrite logf_run;
    (eexists; split; [reflexivity | now repeat split]).
Qed.

Lemma patch_same_version_noop_witness :
  exists l,
    patch Scenario.self_client Scenario.down_env Scenario.self_start
      = (Ok tt, add_log l Scenario.self_start) /\
    fs (add_log l Scenario.self_start) = Scenario.exe_disk /\
    trace (add_log l Scenario.self_start) = [].
Proof.
  destruct (patch_same_version_noop Scenario.self_client Scenario.down_env
    Scenario.self_start eq_refl) as (l & H & Hf & Ht & _).
  exists l. split; [exact H|]. split; [exact Hf | exact Ht].
Defined.

(** ** Traversal safety *)

(** C6. A Download Entry and a Delete Entry whose name contains [..] are
    skipped: the only effect of the iteration is one line in the log, the
    filesystem is as before and no call left the process, and both loops
    go on with the entries that follow. *)
Theorem traversal_entry_skipped (c : Client) (env : Env) (s : State)
    (v : loopVars) (entry : FileEntry) (rest : list FileEntry) :
  Strings.Contains (Name entry) ".." = true ->
  let s' := add_log (skip_line (Name entry)) s in
  download_entry c entry v env s = (Ok v, s') /\
  delete_entry entry env s = (Ok tt, s') /\
  fs s' = fs s /\ trace s' = trace s /\
  foldM (download_entry c) (entry :: rest) v env s
    = foldM (download_entry c) rest v env s' /\
  forM_ (entry :: rest) delete_entry env s = forM_ rest delete_entry env s'.
Proof.
  intros H s'.
  assert (Hd : download_entry c entry v env s = (Ok v, s')).
  { unfold download_entry. rewrite H. reflexivity. }
  assert (Hr : delete_entry entry env s = (Ok tt, s')).
  { unfold delete_entry. rewrite H. reflexivity. }
  repeat split; try assumption.
  - now apply foldM_cons.
  - now apply forM_cons.
Qed.

Lemma traversal_entry_skipped_witness :
  download_entry Scenario.readme_client (Scenario.entry "maps/../../evil.txt" "" 0)
    initVars Scenario.readme_env Scenario.readme_start
    = (Ok initVars, add_log (skip_line "maps/../../evil.txt") Scenario.readme_start) /\
  delete_entry (Scenario.entry "maps/../../evil.txt" "" 0)
    Scenario.readme_env Scenario.readme_start
    = (Ok tt, add_log (skip_line "maps/../../evil.txt") Scenario.readme_start).
Proof.
  destruct (traversal_entry_skipped Scenario.readme_client Scenario.readme_env
    Scenario.readme_start initVars (Scenario.entry "maps/../../evil.txt" "" 0) [] eq_refl)
    as (H1 & H2 & _).
  split; [exact H1 | exact H2].
Defined.

(** ** Delete entries *)

Lemma syscall_run {A} (c : call) (k : gmap string node -> result A * gmap string node)
    env s :
  io_error env (trace s) c = None ->
  syscall c k env s = (fst (k (fs s)), set_fs (fun _ => snd (k (fs s))) (record_call c s)).
Proof. intros H. unfold syscall. rewrite H. now destruct (k (fs s)). Qed.


Lemma set_fs_same s : set_fs (fun _ => fs s) s = s.
Proof. now destruct s. Qed.

Lemma set_fs_record c s f :
  set_fs (fun _ => f) (record_call c s) = record_call c (set_fs (fun _ => f) s).
Proof. reflexivity. Qed.

Lemma Stat_run path env s :
  io_error env (trace s) (CStat path) = None ->
  OS.Stat path env s =
    (match OS.lookup (fs s) path with
     | OS.Found n => Ok n
     | OS.Missing => Err (ESys (CStat path) true)
     | OS.NotDir => Err (ESys (CStat path) false)
     end, record_call (CStat path) s).
Proof.
  intros H. unfold OS.Stat. rewrite (syscall_run _ _ _ _ H).
  destruct (OS.lookup (fs s) path); simpl; now rewrite set_fs_record, set_fs_same.
Qed.

(** A regular file that the system finds at a path is in the map, at the
    cleaned path. *)
Lemma lookup_file_key f path m data :
  OS.lookup f path = OS.Found (File m data) ->
  f !! Filepath.Clean path = Some (File m data).
Proof.
  unfold OS.lookup, OS.node_at.
  destruct (String.eqb path ""); [discriminate|].
  destruct (OS.blocked f _); [discriminate|].
  destruct (Filepath.implicit_dir _); [discriminate|].
  destruct (f !! Filepath.Clean path) as [[m' data'|]|]; try discriminate.
  destruct (OS.wants_dir path); [discriminate|]. now intros [= -> ->].
Qed.



(** ** What a computation leaves alone

    Every piece of the client keeps a relation for which [frame_laws]
    holds, as long as the requests it makes are not [noisy]. The two
    relations used below are [same_skips], on the log, and [same_count],
    on the trace and [isMapsDownloaded]. *)

Section Frames.

Context {R : State -> State -> Prop} {noisy : call -> bool} (L : frame_laws R noisy).

Lemma quiet_call c : (forall why url, c <> CGet why url) -> noisy c = false.
Proof.
  intros H. destruct (noisy c) eqn:E; [|reflexivity].
  destruct (fl_get _ _ L c E) as (why & url & Hc). now destruct (H why url).
Qed.

Lemma frames_ret {A} (a : A) : frames R (mret a).
Proof. intros env s. apply (fl_refl _ _ L). Qed.

Lemma frames_throw {A} e : frames R (throw (A := A) e).
Proof. intros env s. apply (fl_refl _ _ L). Qed.

Lemma frames_gets {A} (f : State -> A) : frames R (gets f).
Proof. intros env s. apply (fl_refl _ _ L). Qed.

Lemma frames_bind {A B} (m : M A) (f : A -> M B) :
  frames R m -> (forall a, frames R (f a)) -> frames R (m ≫= f).
Proof.
  intros Hm Hf env s. unfold mbind, M_bind.
  specialize (Hm env s). destruct (m env s) as [[a|e] s1]; simpl in *.
  - eapply (fl_trans _ _ L); [exact Hm | apply Hf].
  - exact Hm.
Qed.

Lemma frames_wrap {A} p (m : M A) : frames R m -> frames R (wrap p m).
Proof.
  intros Hm env s. unfold wrap. specialize (Hm env s).
  now destruct (m env s) as [[a|e] s1].
Qed.

Lemma frames_try {A} (m : M A) : frames R m -> frames R (try m).
Proof.
  intros Hm env s. unfold try. specialize (Hm env s).
  now destruct (m env s) as [r s1].
Qed.

Lemma frames_forM {A} (l : list A) (body : A -> M unit) :
  (forall x, frames R (body x)) -> frames R (forM_ l body).
Proof.
  intros Hb. induction l as [|x l IH]; simpl.
  - apply frames_ret.
  - apply frames_bind; [apply Hb | intros _; exact IH].
Qed.

Lemma frames_logf fmt args :
  is_maps_skip {| lfmt := fmt; largs := args |} = false -> frames R (logf fmt args).
Proof. intros H env s. now apply (fl_log _ _ L). Qed.

Lemma frames_patched b : frames R (modify (set_isPatched b)).
Proof. intros env s. apply (fl_patched _ _ L). Qed.

Lemma frames_syscall {A} c (k : gmap string node -> result A * gmap string node) :
  (forall why url, c <> CGet why url) -> frames R (syscall c k).
Proof.
  intros Hc env s. apply quiet_call in Hc. unfold syscall.
  destruct (io_error env (trace s) c); cbn [snd]; [now apply (fl_call _ _ L)|].
  destruct (k (fs s)) as [r f]; cbn [snd].
  eapply (fl_trans _ _ L); [apply (fl_call _ _ L), Hc | apply (fl_fs _ _ L)].
Qed.

Lemma frames_Copy path data : frames R (OS.Copy path data).
Proof.
  assert (Hc : noisy (CWrite path) = false) by (apply quiet_call; discriminate).
  intros env s. unfold OS.Copy.
  destruct (io_error env (trace s) (CWrite path)); cbn [snd];
    (eapply (fl_trans _ _ L); [apply (fl_call _ _ L), Hc | apply (fl_fs _ _ L)]).
Qed.

Lemma frames_Get why url : noisy (CGet why url) = false -> frames R (HTTP.Get why url).
Proof.
  intros Hc env s. unfold HTTP.Get.
  destruct (http env (trace s) url) as [[code body]|]; cbn [snd]; now apply (fl_call _ _ L).
Qed.

Lemma frames_OpenReader path : frames R (Zip.OpenReader path).
Proof.
  assert (Hc : noisy (CZipOpenReader path) = false) by (apply quiet_call; discriminate).
  intros env s. unfold Zip.OpenReader.
  destruct (io_error env (trace s) _); cbn [snd]; [now apply (fl_call _ _ L)|].
  destruct (OS.lookup (fs s) path) as [[m data|]| |]; cbn [snd];
    try now apply (fl_call _ _ L).
  destruct (zip_reader env data); cbn [snd]; now apply (fl_call _ _ L).
Qed.

Lemma frames_Save : frames R Config.Save.
Proof.
  intros env s. unfold Config.Save.
  assert (Hc : noisy (CSave (FileListVersion s)) = false) by (apply quiet_call; discriminate).
  destruct (io_error env (trace s) _); cbn [snd]; [now apply (fl_call _ _ L)|].
  eapply (fl_trans _ _ L); [apply (fl_call _ _ L), Hc | apply (fl_persisted _ _ L)].
Qed.

Lemma frames_Stat path : frames R (OS.Stat path).
Proof. apply frames_syscall. discriminate. Qed.

Lemma frames_MkdirAll path : frames R (OS.MkdirAll path).
Proof. apply frames_syscall. discriminate. Qed.

Lemma frames_Create path : frames R (OS.Create path).
Proof.
  intros env s. unfold OS.Create, OS.open_trunc.
  apply (frames_syscall (CCreate path)). discriminate.
Qed.

Lemma frames_OpenFile path mode : frames R (OS.OpenFile path mode).
Proof.
  intros env s. unfold OS.OpenFile, OS.open_trunc.
  apply (frames_syscall (COpenFile path mode)). discriminate.
Qed.

Lemma frames_Open path : frames R (OS.Open path).
Proof. apply frames_syscall. discriminate. Qed.

Lemma frames_ReadAll path : frames R (OS.ReadAll path).
Proof. apply frames_syscall. discriminate. Qed.

Lemma frames_Remove path : frames R (OS.Remove path).
Proof. apply frames_syscall. discriminate. Qed.

Lemma frames_ZipOpen f : frames R (Zip.Open f).
Proof. apply frames_syscall. discriminate. Qed.

End Frames.

(** Take a computation apart down to the calls it is made of; what the
    laws do not cover is left to the caller. *)
Ltac frame L :=
  lazymatch goal with
  | |- frames _ (mbind _ _) => apply (frames_bind L); [frame L | intros ?; frame L]
  | |- frames _ (wrap _ _) => apply frames_wrap; frame L
  | |- frames _ (try _) => apply frames_try; frame L
  | |- frames _ (forM_ _ _) => apply (frames_forM L); intros ?; frame L
  | |- frames _ (mret _) => apply (frames_ret L)
  | |- frames _ (throw _) => apply (frames_throw L)
  | |- frames _ (gets _) => apply (frames_gets L)
  | |- frames _ (logf _ _) => first [apply (frames_logf L); reflexivity | idtac]
  | |- frames _ (modify (set_isPatched _)) => apply (frames_patched L)
  | |- frames _ (modify (set_FileListVersion _)) => intros ? ?; apply (fl_version _ _ L)
  | |- frames _ (modify (set_patchSummary _)) => intros ? ?; apply (fl_summary _ _ L)
  | |- frames _ (OS.Stat _) => apply (frames_Stat L)
  | |- frames _ (OS.MkdirAll _) => apply (frames_MkdirAll L)
  | |- frames _ (OS.Create _) => apply (frames_Create L)
  | |- frames _ (OS.OpenFile _ _) => apply (frames_OpenFile L)
  | |- frames _ (OS.Open _) => apply (frames_Open L)
  | |- frames _ (OS.ReadAll _) => apply (frames_ReadAll L)
  | |- frames _ (OS.Remove _) => apply (frames_Remove L)
  | |- frames _ (OS.Copy _ _) => apply (frames_Copy L)
  | |- frames _ (Zip.Open _) => apply (frames_ZipOpen L)
  | |- frames _ (Zip.OpenReader _) => apply (frames_OpenReader L)
  | |- frames _ Config.Save => apply (frames_Save L)
  | |- frames _ (HTTP.Get _ _) => apply (frames_Get L); first [reflexivity | assumption]
  | |- frames _ (md5Checksum _) => unfold md5Checksum; frame L
  | |- frames _ (ensure_dir _) => unfold ensure_dir; frame L
  | |- frames _ (unpack _ _) => unfold unpack; frame L
  | |- frames _ (unpack_file _ _) => unfold unpack_file; frame L
  | |- frames _ (delete_entry _) => unfold delete_entry; frame L
  | |- frames _ (if ?b then _ else _) => destruct b; frame L
  | |- frames _ (match ?x with _ => _ end) => destruct x; frame L
  | |- _ => idtac
  end.

(** ** Entries that exist locally *)

Lemma io_ok_cons env t c cs :
  io_ok env t (c :: cs) = true ->
  io_error env t c = None /\ io_ok env (t ++ [c]) cs = true.
Proof. simpl. now destruct (io_error env t c). Qed.

Lemma Open_run path env s n :
  OS.lookup (fs s) path = OS.Found n ->
  io_error env (trace s) (COpen path) = None ->
  OS.Open path env s = (Ok tt, record_call (COpen path) s).
Proof.
  intros Hl H. unfold OS.Open. rewrite (syscall_run _ _ _ _ H), Hl. simpl.
  now rewrite set_fs_record, set_fs_same.
Qed.

Lemma ReadAll_run path env s m data :
  OS.lookup (fs s) path = OS.Found (File m data) ->
  io_error env (trace s) (CRead path) = None ->
  OS.ReadAll path env s = (Ok data, record_call (CRead path) s).
Proof.
  intros Hl H. unfold OS.ReadAll. rewrite (syscall_run _ _ _ _ H), Hl. simpl.
  now rewrite set_fs_record, set_fs_same.
Qed.

Lemma md5Checksum_run path env s m data :
  OS.lookup (fs s) path = OS.Found (File m data) ->
  io_ok env (trace s) [COpen path; CRead path] = true ->
  md5Checksum path env s
    = (Ok (MD5.hexsum data), record_calls [COpen path; CRead path] s).
Proof.
  intros Hl H. apply io_ok_cons in H as [H1 H]. apply io_ok_cons in H as [H2 _].
  unfold md5Checksum.
  rewrite (bind_ok _ _ _ _ _ _ (Open_run _ _ _ _ Hl H1)).
  assert (Hl' : OS.lookup (fs (record_call (COpen path) s)) path = OS.Found (File m data))
    by exact Hl.
  rewrite (bind_ok _ _ _ _ _ _ (wrap_ok _ _ _ _ _ _ (ReadAll_run _ _ _ _ _ Hl' H2))).
  reflexivity.
Qed.

(** What the download loop does with an entry that is a regular file on
    disk: the hash of its content is compared with [Md5], as strings. *)
Lemma download_entry_existing c env s s1 v entry m data :
  Strings.Contains (Name entry) ".." = false ->
  ensure_dir entry env s = (Ok tt, s1) ->
  OS.lookup (fs s1) (Name entry) = OS.Found (File m data) ->
  io_ok env (trace s1) [CStat (Name entry); COpen (Name entry); CRead (Name entry)] = true ->
  let name := Name entry in
  let s2 := record_calls [CStat name; COpen name; CRead name] s1 in
  download_entry c entry v env s =
    if String.eqb (MD5.hexsum data) (Md5 entry) then
      if is_maps name && isMapsSkippedBefore v
      then (Ok (satisfied entry true v), s2)
      else (Ok (satisfied entry (is_maps name || isMapsSkippedBefore v) v),
            add_log (up_to_date_line name) s2)
    else
      (wrap "download new file" (downloadPatchFile c entry) ;;
       modify (set_isPatched true) ;;
       mret (downloaded entry v)) env s2.
Proof.
  intros Hdots Hdir Hl Hio. cbv zeta.
  apply io_ok_cons in Hio as [Hstat Hio].
  unfold download_entry. rewrite Hdots.
  rewrite (bind_ok _ _ _ _ _ _ Hdir).
  pose proof (Stat_run _ _ _ Hstat) as HS. rewrite Hl in HS.
  rewrite (bind_ok _ _ _ _ _ _ (try_run _ _ _ _ _ HS)).
  assert (Hl' : OS.lookup (fs (record_call (CStat (Name entry)) s1)) (Name entry)
                = OS.Found (File m data)) by exact Hl.
  rewrite (bind_ok _ _ _ _ _ _ (wrap_ok _ _ _ _ _ _ (md5Checksum_run _ _ _ _ _ Hl' Hio))).
  destruct (String.eqb _ _); [|reflexivity].
  destruct (is_maps (Name entry)); [destruct (isMapsSkippedBefore v)|]; reflexivity.
Qed.

(** ** The two counters *)

Lemma maps_skips_app log l :
  maps_skips (log ++ [l]) = (maps_skips log + if is_maps_skip l then 1 else 0)%nat.
Proof.
  unfold maps_skips. rewrite List.filter_app, List.length_app. simpl.
  now destruct (is_maps_skip l).
Qed.

Lemma count_app p t c : count p (t ++ [c]) = (count p t + if p c then 1 else 0)%nat.
Proof.
  unfold count. rewrite List.filter_app, List.length_app. simpl. now destruct (p c).
Qed.

Lemma skips_laws : frame_laws same_skips (fun _ => false).
Proof.
  split; unfold same_skips; intros; simpl; try reflexivity; try discriminate.
  - congruence.
  - rewrite maps_skips_app. rewrite H. lia.
Qed.

Lemma count_laws (cnt : call -> bool) :
  (forall c, cnt c = true -> exists why url, c = CGet why url) ->
  frame_laws (same_count cnt) cnt.
Proof.
  intros Hget. split; unfold same_count; intros; simpl; try (split; reflexivity).
  - destruct H, H0. split; congruence.
  - rewrite count_app, H. split; [lia | reflexivity].
  - now apply Hget.
Qed.

(** ** "Up to date" lines for maps *)

(** No part of the download procedure writes an "up to date" line. *)
Lemma skips_downloadPatchFile c entry : frames same_skips (downloadPatchFile c entry).
Proof. unfold downloadPatchFile. frame skips_laws; intros env s; reflexivity. Qed.

Lemma step_skips_bind {A} (m : M A) (f : A -> M loopVars) v :
  frames same_skips m ->
  (forall a env s, step_skips v s (fst (f a env s)) (snd (f a env s))) ->
  forall env s, step_skips v s (fst ((m ≫= f) env s)) (snd ((m ≫= f) env s)).
Proof.
  intros Hm Hf env s. unfold mbind, M_bind.
  specialize (Hm env s). destruct (m env s) as [[a|e] s1]; simpl in *.
  - specialize (Hf a env s1). unfold step_skips, same_skips in *.
    destruct (f a env s1) as [[v'|e] s2]; simpl in *; rewrite <- Hm; exact Hf.
  - now left.
Qed.

Lemma step_skips_download c entry v env s :
  let m := wrap "download new file" (downloadPatchFile c entry) ;;
           modify (set_isPatched true) ;; mret (downloaded entry v) in
  step_skips v s (fst (m env s)) (snd (m env s)).
Proof.
  cbv zeta. revert env s.
  apply step_skips_bind; [apply frames_wrap, skips_downloadPatchFile|]. intros _.
  apply step_skips_bind; [frame skips_laws|]. intros _ env s.
  left. split; reflexivity.
Qed.

Lemma is_maps_skip_up_to_date name : is_maps_skip (up_to_date_line name) = is_maps name.
Proof. reflexivity. Qed.

Lemma download_entry_skips c entry v env s :
  step_skips v s (fst (download_entry c entry v env s)) (snd (download_entry c entry v env s)).
Proof.
  revert env s. unfold download_entry. destruct (Strings.Contains (Name entry) "..").
  { apply step_skips_bind; [frame skips_laws|]. intros _ env s. left. now split. }
  apply step_skips_bind; [frame skips_laws|]. intros _.
  apply step_skips_bind; [frame skips_laws|].
  intros [fi|err].
  - apply step_skips_bind; [frame skips_laws|]. intros hash.
    destruct (String.eqb hash (Md5 entry)); [|intros env s; apply step_skips_download].
    destruct (is_maps (Name entry)) eqn:Hm; [destruct (isMapsSkippedBefore v) eqn:Hv|];
      intros env s.
    + left. now split.
    + right. unfold mbind, M_bind, logf, modify, mret, M_ret.
      cbn [fst snd isMapsSkippedBefore satisfied]. split; [assumption|]. split; [reflexivity|].
      change (maps_skips (cacheLog s ++ [up_to_date_line (Name entry)])
              = S (maps_skips (cacheLog s))).
      rewrite maps_skips_app, is_maps_skip_up_to_date, Hm. lia.
    + left. unfold mbind, M_bind, logf, modify, mret, M_ret.
      cbn [fst snd isMapsSkippedBefore satisfied]. split; [reflexivity|]. unfold same_skips.
      change (maps_skips (cacheLog s ++ [up_to_date_line (Name entry)])
              = maps_skips (cacheLog s)).
      rewrite maps_skips_app, is_maps_skip_up_to_date, Hm. lia.
  - destruct (IsNotExist err); intros env s; [apply step_skips_download|].
    left. reflexivity.
Qed.

Lemma foldM_skips c entries v env s :
  step_skips v s (fst (foldM (download_entry c) entries v env s))
                 (snd (foldM (download_entry c) entries v env s)).
Proof.
  revert v s. induction entries as [|entry rest IH]; intros v s; simpl.
  { left. now split. }
  unfold mbind, M_bind.
  pose proof (download_entry_skips c entry v env s) as H1.
  destruct (download_entry c entry v env s) as [[v1|e] s1]; simpl in *; [|exact H1].
  specialize (IH v1 s1). unfold same_skips in *.
  destruct (foldM (download_entry c) rest v1 env s1) as [[v2|e] s2]; simpl in *.
  - destruct H1 as [[F1 S1]|(F1 & F1' & S1)], IH as [[F2 S2]|(F2 & F2' & S2)].
    + left. split; congruence.
    + right. repeat split; congruence.
    + right. repeat split; congruence.
    + congruence.
  - destruct H1 as [[F1 S1]|(F1 & F1' & S1)], IH as [S2|(F2 & S2)].
    + left. congruence.
    + right. split; congruence.
    + right. split; congruence.
    + congruence.
Qed.

Lemma ensure_dir_trace entry env s r s1 :
  ensure_dir entry env s = (r, s1) ->
  isPatched s1 = isPatched s /\ cacheLog s1 = cacheLog s /\
  forall why, count (is_get why) (trace s1) = count (is_get why) (trace s).
Proof.
  unfold ensure_dir. destruct (Strings.Contains _ _).
  - unfold wrap, OS.MkdirAll, syscall.
    destruct (io_error _ _ _).
    + intros H. inversion H. subst. simpl. repeat split. intros why.
      unfold count. rewrite List.filter_app, List.length_app. simpl.
      destruct why; simpl; lia.
    + destruct (String.eqb _ ""); [|destruct (existsb _ _)];
        intros H; inversion H; subst; simpl; repeat split; intros why;
        unfold count; rewrite List.filter_app, List.length_app; simpl;
        destruct why; simpl; lia.
  - intros H. inversion H. now subst.
Qed.

Lemma count_reads why t name :
  count (is_get why) (t ++ [CStat name; COpen name; CRead name]) = count (is_get why) t.
Proof.
  unfold count. rewrite List.filter_app, List.length_app.
  destruct why; simpl; lia.
Qed.

(** C1, as the code has it. For a Download Entry that is a regular file on
    disk, the hash computed from the file, which [md5Checksum] prints in
    lower-case hexadecimal digits, is compared with the expected hash as a
    string, letter case included: when the two strings are equal the entry
    is counted as satisfied and nothing is downloaded, the only calls of
    the iteration after the directory step being [Stat] and the two reads
    of the checksum. *)
Theorem equal_hash_no_download (c : Client) (env : Env) (s s1 : State)
    (v : loopVars) (entry : FileEntry) (m : Z) (data : list byte) :
  Strings.Contains (Name entry) ".." = false ->
  ensure_dir entry env s = (Ok tt, s1) ->
  OS.lookup (fs s1) (Name entry) = OS.Found (File m data) ->
  io_ok env (trace s1) [CStat (Name entry); COpen (Name entry); CRead (Name entry)] = true ->
  MD5.hexsum data = Md5 entry ->
  exists v' s',
    download_entry c entry v env s = (Ok v', s') /\
    totalDownloaded v' = totalDownloaded v /\
    progressSize v' = add64 (progressSize v) (int64 (Size entry)) /\
    fs s' = fs s1 /\
    trace s' = (trace s1 ++ [CStat (Name entry); COpen (Name entry); CRead (Name entry)])%list /\
    isPatched s' = isPatched s /\
    forall why, count (is_get why) (trace s') = count (is_get why) (trace s).
Proof.
  intros Hdots Hdir Hl Hio Hhash.
  pose proof (download_entry_existing c env s s1 v entry m data Hdots Hdir Hl Hio) as Hstep.
  cbv zeta in Hstep. rewrite Hhash, String.eqb_refl in Hstep.
  destruct (ensure_dir_trace _ _ _ _ _ Hdir) as (Hp & _ & Hg).
  assert (Ht : trace (record_calls
      [CStat (Name entry); COpen (Name entry); CRead (Name entry)] s1)
    = (trace s1 ++ [CStat (Name entry); COpen (Name entry); CRead (Name entry)])%list).
  { simpl. now rewrite <- !app_assoc. }
  destruct (is_maps (Name entry) && isMapsSkippedBefore v);
    (eexists; eexists; split; [exact Hstep|]);
    (repeat split; try reflexivity; try assumption; try exact Ht;
     intros why;
     transitivity (count (is_get why)
       (trace s1 ++ [CStat (Name entry); COpen (Name entry); CRead (Name entry)]));
     [f_equal; exact Ht | rewrite count_reads; apply Hg]).
Qed.

Lemma equal_hash_no_download_witness :
  exists v' s',
    download_entry Scenario.readme_client Scenario.readme_lower initVars
      Scenario.readme_env Scenario.readme_start = (Ok v', s') /\
    totalDownloaded v' = 0 /\
    fs s' = fs Scenario.readme_start /\
    count (is_get PatchFile) (trace s') = 0%nat.
Proof.
  destruct (equal_hash_no_download Scenario.readme_client Scenario.readme_env
    Scenario.readme_start Scenario.readme_start initVars Scenario.readme_lower
    420 (Scenario.text "abc")) as (v' & s' & H & Ht & _ & Hf & _ & _ & Hg).
  - reflexivity.
  - reflexivity.
  - vm_compute. reflexivity.
  - reflexivity.
  - vm_compute. reflexivity.
  - exists v', s'. repeat split; [exact H | exact Ht | exact Hf | exact (Hg PatchFile)].
Defined.

(** C1, as the spec has it, fails. [readme.txt] holds [abc], whose hash the
    manifest gives in upper case: the two hashes are equal up to letter
    case, and the file is downloaded again. *)
Lemma equal_fold_hash_downloads :
  OS.lookup (fs Scenario.readme_start) (Name Scenario.readme_upper)
    = OS.Found (File 420 (Scenario.text "abc")) /\
  Strings.EqualFold (MD5.hexsum (Scenario.text "abc")) (Md5 Scenario.readme_upper) = true /\
  exists s',
    download_entry Scenario.readme_client Scenario.readme_upper initVars
      Scenario.readme_env Scenario.readme_start
    = (Ok (downloaded Scenario.readme_upper initVars), s') /\
    trace s' = [CStat "readme.txt"; COpen "readme.txt"; CRead "readme.txt";
                CCreate "readme.txt"; CGet PatchFile "http://files.example/rof/readme.txt";
                CWrite "readme.txt"] /\
    isPatched s' = true.
Proof.
  split; [vm_compute; reflexivity|]. split; [vm_compute; reflexivity|].
  eexists. split; [vm_compute; reflexivity|]. split; reflexivity.
Qed.

(** ** The archive of the maps *)

Lemma Get_ok why url env s code body :
  http env (trace s) url = Some (code, body) ->
  HTTP.Get why url env s
    = (Ok {| HTTP.StatusCode := code; HTTP.Body := body; HTTP.Url := url |},
       record_call (CGet why url) s).
Proof. intros H. unfold HTTP.Get. now rewrite H. Qed.

Lemma Get_fails why url env s :
  http env (trace s) url = None ->
  HTTP.Get why url env s = (Err (ESys (CGet why url) false), record_call (CGet why url) s).
Proof. intros H. unfold HTTP.Get. now rewrite H. Qed.

Lemma Get_Ok why url env s resp s' :
  HTTP.Get why url env s = (Ok resp, s') ->
  http env (trace s) url = Some (HTTP.StatusCode resp, HTTP.Body resp) /\
  s' = record_call (CGet why url) s.
Proof.
  unfold HTTP.Get. destruct (http env (trace s) url) as [[code body]|]; [|discriminate].
  intros [= <- <-]. now split.
Qed.

(** The development is the same for every way [cnt] of counting requests
    that does not count the requests for the single files of the manifest:
    by the place that issues them, or by their URL. *)
Section Archive.

Variable cnt : call -> bool.
Hypothesis cnt_get : forall c, cnt c = true -> exists why url, c = CGet why url.
Variable c : Client.

Let L : frame_laws (same_count cnt) cnt := count_laws cnt cnt_get.

Lemma frames_steps_count {A} (m : M A) : frames (same_count cnt) m -> steps_count cnt m.
Proof.
  intros H env s. specialize (H env s). unfold step_count.
  destruct (m env s) as [[a|e] s']; simpl in *; left; [exact H | apply H].
Qed.

Lemma steps_count_bind {A B} (m : M A) (f : A -> M B) :
  steps_count cnt m -> (forall a, steps_count cnt (f a)) -> steps_count cnt (m ≫= f).
Proof.
  intros Hm Hf env s. unfold mbind, M_bind.
  specialize (Hm env s). destruct (m env s) as [[a|e] s1]; simpl in *; [|exact Hm].
  specialize (Hf a env s1). unfold step_count, same_count in *.
  destruct (f a env s1) as [[b|e] s2]; simpl in *.
  - destruct Hm as [[B1 F1]|(F1 & F1' & B1)], Hf as [[B2 F2]|(F2 & F2' & B2)].
    + left. split; congruence.
    + right. repeat split; solve [congruence | lia].
    + right. repeat split; solve [congruence | lia].
    + congruence.
  - destruct Hm as [[B1 F1]|(F1 & F1' & B1)], Hf as [B2|(F2 & B2)].
    + left. congruence.
    + right. split; solve [congruence | lia].
    + right. split; solve [congruence | lia].
    + congruence.
Qed.

Lemma steps_count_wrap {A} p (m : M A) : steps_count cnt m -> steps_count cnt (wrap p m).
Proof.
  intros H env s. specialize (H env s). unfold wrap.
  now destruct (m env s) as [[a|e] s'].
Qed.

(** Writing and expanding the archive, then setting the flag. *)
Lemma expand_sets_flag entry body env s :
  let m := wrap ("create " +:+ Name entry) (OS.Create "maps.zip") ;;
           wrap ("write " +:+ Name entry) (OS.Copy "maps.zip" body) ;;
           wrap ("unzip " +:+ Name entry) (unpack "maps.zip" ".") ;;
           modify (set_isMapsDownloaded true) in
  count cnt (trace (snd (m env s))) = count cnt (trace s) /\
  (forall u, fst (m env s) = Ok u -> isMapsDownloaded (snd (m env s)) = true).
Proof.
  cbv zeta. unfold mbind, M_bind.
  assert (H1 : frames (same_count cnt) (wrap ("create " +:+ Name entry) (OS.Create "maps.zip")))
    by frame L.
  specialize (H1 env s). destruct H1 as [H1 _].
  destruct (wrap _ (OS.Create "maps.zip") env s) as [[u1|e1] s1]; simpl in *;
    [|split; [exact H1 | discriminate]].
  assert (H2 : frames (same_count cnt)
                 (wrap ("write " +:+ Name entry) (OS.Copy "maps.zip" body))) by frame L.
  specialize (H2 env s1). destruct H2 as [H2 _].
  destruct (wrap _ (OS.Copy "maps.zip" body) env s1) as [[u2|e2] s2]; simpl in *;
    [|split; [congruence | discriminate]].
  assert (H3 : frames (same_count cnt)
                 (wrap ("unzip " +:+ Name entry) (unpack "maps.zip" "."))) by frame L.
  specialize (H3 env s2). destruct H3 as [H3 _].
  destruct (wrap _ (unpack "maps.zip" ".") env s2) as [[u3|e3] s3]; simpl in *;
    [|split; [congruence | discriminate]].
  split; [congruence | reflexivity].
Qed.

Lemma steps_downloadPatchFile entry :
  cnt (CGet PatchFile (file_url c entry)) = false ->
  steps_count cnt (downloadPatchFile c entry).
Proof.
  intros Hfile env s. unfold downloadPatchFile.
  rewrite (bind_ok _ _ env s (isMapsDownloaded s) s eq_refl).
  destruct (negb (isMapsDownloaded s) && is_maps (Name entry)) eqn:Hb.
  2:{ apply frames_steps_count. frame L. }
  apply andb_prop in Hb as [Hf _]. apply negb_true_iff in Hf.
  rewrite (bind_ok _ _ _ _ _ _ (logf_run _ _ env s)).
  set (s0 := add_log _ s).
  set (s1 := record_call (CGet MapsArchive (maps_url c)) s0).
  assert (Hb : (count cnt (trace s1) <= S (count cnt (trace s)))%nat).
  { change (trace s1) with (trace s ++ [CGet MapsArchive (maps_url c)])%list.
    rewrite count_app. destruct (cnt (CGet MapsArchive (maps_url c))); lia. }
  destruct (http env (trace s0) (maps_url c)) as [[code body]|] eqn:Hh.
  - rewrite (bind_ok _ _ _ _ _ _
      (wrap_ok _ _ _ _ _ _ (Get_ok MapsArchive _ env s0 code body Hh))).
    fold s1. cbn [HTTP.StatusCode HTTP.Body].
    destruct (negb (code =? 200)).
    + right. split; assumption.
    + destruct (expand_sets_flag entry body env s1) as [E1 E2]. cbv zeta in E1, E2.
      destruct ((wrap ("create " +:+ Name entry) (OS.Create "maps.zip") ;; _) env s1)
        as [[u|e] s2]; simpl in *.
      * right. repeat split; [assumption | now apply (E2 u) | lia].
      * right. split; [assumption | lia].
  - rewrite (bind_err _ _ _ _ _ _
      (wrap_err _ _ _ _ _ _ (Get_fails MapsArchive _ env s0 Hh))).
    right. split; assumption.
Qed.

Lemma steps_download_entry entry v :
  cnt (CGet PatchFile (file_url c entry)) = false ->
  steps_count cnt (download_entry c entry v).
Proof.
  intros Hfile.
  assert (Hd : steps_count cnt (wrap "download new file" (downloadPatchFile c entry) ;;
                                modify (set_isPatched true) ;; mret (downloaded entry v))).
  { apply steps_count_bind; [now apply steps_count_wrap, steps_downloadPatchFile|].
    intros _. apply frames_steps_count. frame L. }
  unfold download_entry. destruct (Strings.Contains (Name entry) "..").
  { apply frames_steps_count. frame L. }
  apply steps_count_bind; [apply frames_steps_count; frame L|]. intros _.
  apply steps_count_bind; [apply frames_steps_count; frame L|].
  intros [fi|err].
  - apply steps_count_bind; [apply frames_steps_count; frame L|].
    intros hash. destruct (String.eqb hash (Md5 entry)); [|exact Hd].
    apply frames_steps_count. frame L; intros env s; split; reflexivity.
  - destruct (IsNotExist err); [exact Hd|].
    apply frames_steps_count. frame L.
Qed.

Lemma steps_foldM entries v :
  Forall (fun entry => cnt (CGet PatchFile (file_url c entry)) = false) entries ->
  steps_count cnt (foldM (download_entry c) entries v).
Proof.
  intros H. revert v. induction H as [|entry rest Hfile _ IH]; intros v; simpl.
  - apply frames_steps_count. frame L.
  - apply steps_count_bind; [now apply steps_download_entry | exact IH].
Qed.

Lemma steps_patch :
  Forall (fun entry => cnt (CGet PatchFile (file_url c entry)) = false)
    (Downloads (cacheFileList c)) ->
  steps_count cnt (patch c).
Proof.
  intros H. unfold patch.
  apply steps_count_bind; [apply frames_steps_count; frame L|].
  intros recorded. destruct (String.eqb _ _).
  { apply frames_steps_count. frame L. }
  apply steps_count_bind; [apply frames_steps_count; frame L|].
  intros _. apply steps_count_bind; [now apply steps_foldM|]. intros v.
  apply frames_steps_count. frame L.
Qed.

End Archive.

Lemma step_count_bound {A} cnt s (r : result A) s' :
  step_count cnt s r s' ->
  (count cnt (trace s') <= count cnt (trace s) + 1)%nat /\
  (isMapsDownloaded s = true ->
   count cnt (trace s') = count cnt (trace s) /\
   (forall a, r = Ok a -> isMapsDownloaded s' = true)).
Proof.
  unfold step_count, same_count. destruct r as [a|e].
  - intros [[B F]|(F & F' & B)]; (split; [lia|]); intros Ht; [|congruence].
    split; [exact B|]. intros _ _. congruence.
  - intros [B|(F & B)]; (split; [lia|]); intros Ht; [|congruence].
    split; [exact B|]. discriminate.
Qed.

Lemma by_place_get c : is_get MapsArchive c = true -> exists why url, c = CGet why url.
Proof. destruct c; try discriminate. intros _. eauto. Qed.

Lemma by_url_get url c : is_request url c = true -> exists why u, c = CGet why u.
Proof. destruct c; try discriminate. intros _. eauto. Qed.

Lemma by_place_spares c entries :
  Forall (fun entry => is_get MapsArchive (CGet PatchFile (file_url c entry)) = false) entries.
Proof. apply Forall_forall. reflexivity. Qed.

Lemma by_url_spares c entries :
  Forall (fun entry => file_url c entry <> maps_url c) entries ->
  Forall (fun entry => is_request (maps_url c) (CGet PatchFile (file_url c entry)) = false)
    entries.
Proof.
  intros H. induction H as [|entry rest Hne _ IH]; constructor; [|exact IH].
  now apply String.eqb_neq.
Qed.

(** C5. Whatever the manifest and whatever the environment answers, a pass
    requests the archive of the maps at most once: the request of the
    archive download is made at most once, and so, when no file of the
    manifest has the URL of the archive as its own, is every request for
    that URL. Once the flag [isMapsDownloaded] is set, which the archive
    download does after fetching and expanding the archive, neither the
    download procedure nor the rest of the download loop requests the
    archive again, and the flag stays set. *)
Theorem maps_archive_fetched_at_most_once (c : Client) (env : Env) (s : State) :
  (bulk (trace (snd (patch c env s))) <= bulk (trace s) + 1)%nat /\
  (Forall (fun entry => file_url c entry <> maps_url c) (Downloads (cacheFileList c)) ->
   (requests (maps_url c) (trace (snd (patch c env s)))
    <= requests (maps_url c) (trace s) + 1)%nat) /\
  (forall entry,
     isMapsDownloaded s = true ->
     bulk (trace (snd (downloadPatchFile c entry env s))) = bulk (trace s) /\
     (forall u, fst (downloadPatchFile c entry env s) = Ok u ->
                isMapsDownloaded (snd (downloadPatchFile c entry env s)) = true)) /\
  (forall entries v,
     isMapsDownloaded s = true ->
     bulk (trace (snd (foldM (download_entry c) entries v env s))) = bulk (trace s)).
Proof.
  split; [|split; [|split]].
  - apply (step_count_bound _ _ _ _
      (steps_patch _ by_place_get c (by_place_spares c _) env s)).
  - intros Hurl.
    apply (step_count_bound _ _ _ _
      (steps_patch _ (by_url_get (maps_url c)) c (by_url_spares c _ Hurl) env s)).
  - intros entry.
    apply (step_count_bound _ _ _ _
      (steps_downloadPatchFile _ by_place_get c entry eq_refl env s)).
  - intros entries v Ht.
    apply (step_count_bound _ _ _ _
      (steps_foldM _ by_place_get c entries v (by_place_spares c _) env s)), Ht.
Qed.

Lemma maps_archive_fetched_at_most_once_witness :
  (bulk (trace (snd (patch Scenario.bulk_client Scenario.bulk_env Scenario.bulk_start)))
     <= 1)%nat /\
  (requests "http://patch.example/maps.zip"
     (trace (snd (patch Scenario.bulk_client Scenario.bulk_env Scenario.bulk_start)))
     <= 1)%nat /\
  bulk (trace (snd (downloadPatchFile Scenario.bulk_client
         (Scenario.entry "maps/b.txt" "900150983cd24fb0d6963f7d28e17f72" 3)
         Scenario.bulk_env Scenario.bulk_done))) = 0%nat.
Proof.
  split; [|split].
  - exact (proj1 (maps_archive_fetched_at_most_once
      Scenario.bulk_client Scenario.bulk_env Scenario.bulk_start)).
  - apply (proj1 (proj2 (maps_archive_fetched_at_most_once
      Scenario.bulk_client Scenario.bulk_env Scenario.bulk_start))).
    repeat constructor; vm_compute; discriminate.
  - apply (proj1 (proj2 (proj2 (maps_archive_fetched_at_most_once
      Scenario.bulk_client Scenario.bulk_env Scenario.bulk_done)))). reflexivity.
Defined.

(** The pass of this run does request the archive, once, and then
    downloads the map that the archive did not hold. *)
Example bulk_pass_trace :
  trace (snd (patch Scenario.bulk_client Scenario.bulk_env Scenario.bulk_start))
  = [CMkdirAll "maps/"; CStat "maps/a.txt";
     CGet MapsArchive "http://patch.example/maps.zip";
     CCreate "maps.zip"; CWrite "maps.zip"; CZipOpenReader "maps.zip";
     CMkdirAll "maps"; CMkdirAll "maps"; COpenFile "maps/a.txt" 420;
     CZipOpen "maps/a.txt"; CWrite "maps/a.txt";
     CMkdirAll "maps/"; CStat "maps/b.txt"; CCreate "maps/b.txt";
     CGet PatchFile "http://files.example/rof/maps/b.txt"; CWrite "maps/b.txt";
     CSave "20240101"].
Proof. vm_compute. reflexivity. Qed.

(** ** Checksums *)

Lemma hex_digit_lower n : 0 <= n < 16 -> lower_hex (MD5.hex_digit n) = true.
Proof.
  intros H. rewrite <- (Z2Nat.id n) by lia.
  assert (Hk : (Z.to_nat n < 16)%nat) by lia.
  revert Hk. generalize (Z.to_nat n). intros k Hk.
  do 16 (destruct k as [|k]; [reflexivity|]). lia.
Qed.

Lemma hex_shape bs :
  Forall (fun b => 0 <= b < 256) bs ->
  String.length (MD5.hex bs) = (2 * length bs)%nat /\
  forallb lower_hex (list_ascii_of_string (MD5.hex bs)) = true.
Proof.
  induction 1 as [|b bs Hb _ [IHl IHf]]; [now split|]. simpl. split.
  - rewrite IHl. lia.
  - rewrite IHf, !hex_digit_lower; [reflexivity | |].
    + apply Z.mod_pos_bound. lia.
    + split; [apply Z.div_pos; lia | apply Z.div_lt_upper_bound; lia].
Qed.

Lemma le_bytes_range n x : Forall (fun b => 0 <= b < 256) (MD5.le_bytes n x).
Proof.
  revert x. induction n as [|n IH]; intros x; simpl; constructor; [|apply IH].
  apply Z.mod_pos_bound. lia.
Qed.

Lemma le_bytes_length n x : length (MD5.le_bytes n x) = n.
Proof. revert x. induction n as [|n IH]; intros x; simpl; [reflexivity|]. now rewrite IH. Qed.

Lemma hexsum_is_checksum data : is_checksum (MD5.hexsum data) = true.
Proof.
  unfold is_checksum, MD5.hexsum, MD5.sum. cbv zeta.
  match goal with |- context [MD5.hex ?l] => destruct (hex_shape l) as [Hl Hf] end.
  { repeat (apply Forall_app; split); apply le_bytes_range. }
  rewrite Hl, Hf, !length_app, !le_bytes_length. reflexivity.
Qed.

Lemma md5Checksum_Ok path env s h s' :
  md5Checksum path env s = (Ok h, s') ->
  exists m data,
    OS.lookup (fs s) path = OS.Found (File m data) /\ h = MD5.hexsum data /\ fs s' = fs s.
Proof.
  unfold md5Checksum, mbind, M_bind, wrap, OS.Open, OS.ReadAll, syscall.
  destruct (io_error env (trace s) (COpen path)); [discriminate|].
  destruct (OS.lookup (fs s) path) as [n| |] eqn:Hl; try discriminate. cbn [fst snd trace fs
    set_fs record_call].
  destruct (io_error env _ (CRead path)); [discriminate|]. rewrite Hl.
  destruct n as [m data|]; [|discriminate]. intros [= <- <-]. now exists m, data.
Qed.

(** ** The self-updater *)

Lemma upper_ascii_not_o c : Strings.upper_ascii c <> "o"%char.
Proof. destruct c as [[] [] [] [] [] [] [] []]; vm_compute; discriminate. Qed.

(** No upper-cased string equals the literal the code compares with. *)
Lemma ToUpper_not_sentinel s : String.eqb (Strings.ToUpper s) "Not Found" = false.
Proof.
  apply String.eqb_neq. intros H.
  destruct s as [|c0 [|c1 s]]; simpl in H; try discriminate.
  injection H as _ H1 _. exact (upper_ascii_not_o c1 H1).
Qed.

Lemma upper_lower_ascii c :
  Strings.upper_ascii (Strings.lower_ascii c) = Strings.upper_ascii c.
Proof. destruct c as [[] [] [] [] [] [] [] []]; vm_compute; reflexivity. Qed.

Lemma ToUpper_ToLower s : Strings.ToUpper (Strings.ToLower s) = Strings.ToUpper s.
Proof. induction s as [|c s IH]; simpl; [reflexivity|]. now rewrite upper_lower_ascii, IH. Qed.

Lemma EqualFold_ToUpper s t :
  Strings.EqualFold s t = true -> Strings.ToUpper s = Strings.ToUpper t.
Proof.
  unfold Strings.EqualFold. intros H. apply String.eqb_eq in H.
  now rewrite <- (ToUpper_ToLower s), H, ToUpper_ToLower.
Qed.

(** White space of Unicode goes as well: a hash followed by a no-break
    space and a line feed is the hash. *)
Example TrimSpace_no_break_space :
  Strings.TrimSpace
    ("900150983CD24FB0D6963F7D28E17F72"
     +:+ String (ascii_of_nat 194) (String (ascii_of_nat 160) (String (ascii_of_nat 10) "")))
  = "900150983CD24FB0D6963F7D28E17F72".
Proof. vm_compute. reflexivity. Qed.

(** What [selfUpdate] does once the two hashes differ. *)
Lemma selfUpdate_decide_differ c myHash data env s :
  Strings.ToUpper (Strings.TrimSpace myHash) <> Strings.ToUpper (Strings.TrimSpace data) ->
  selfUpdate_decide c myHash data env s =
    (resp ← wrap "get" (HTTP.Get SelfBinary (exe_url c));
     if negb (HTTP.StatusCode resp =? 200)
     then throw (EStatus (exe_url c) (HTTP.StatusCode resp))
     else logf "Applying update (will be used next launch)" [] ;;
          wrap "apply" (Selfupdate.Apply (HTTP.Body resp)))
    env
    (add_log {| lfmt := "Downloading %s at %s";
                largs := [AStr (baseName c); AStr (exe_url c)] |}
       (add_log {| lfmt := "Updating %s... %s vs %s";
                   largs := [AStr (baseName c);
                             AStr (Strings.ToUpper (Strings.TrimSpace myHash));
                             AStr (Strings.ToUpper (Strings.TrimSpace data))] |} s)).
Proof.
  intros Hne. unfold selfUpdate_decide. rewrite ToUpper_not_sentinel.
  apply String.eqb_neq in Hne. rewrite Hne. reflexivity.
Qed.

(** The call of [selfupdate.Apply] leaves one call in the trace. *)
Lemma Apply_trace body env s :
  trace (snd (Selfupdate.Apply body env s)) = (trace s ++ [CApply])%list.
Proof.
  unfold Selfupdate.Apply. destruct (Selfupdate.replace _ _ _) as [r s']. reflexivity.
Qed.





(** The branch of [selfUpdate] for the sentinel is never taken: whenever
    the answer of the hash endpoint is the sentinel in some letter case and
    the local hash is not, the binary is requested. *)
Lemma sentinel_never_skips (c : Client) (myHash data : string) (env : Env) (s : State) :
  Strings.EqualFold (Strings.TrimSpace data) "NOT FOUND" = true ->
  Strings.ToUpper (Strings.TrimSpace myHash) <> "NOT FOUND" ->
  count (is_get SelfBinary) (trace (snd (selfUpdate_decide c myHash data env s)))
    = S (count (is_get SelfBinary) (trace s)).
Proof.
  intros Hfold Hmine. apply EqualFold_ToUpper in Hfold.
  change (Strings.ToUpper "NOT FOUND") with "NOT FOUND" in Hfold.
  rewrite selfUpdate_decide_differ by congruence.
  unfold mbind, M_bind, wrap, HTTP.Get. cbn [trace add_log].
  destruct (http env (trace s) (exe_url c)) as [[code body]|]; cbn [HTTP.StatusCode HTTP.Body].
  - destruct (negb (code =? 200)).
    + unfold throw. cbn [snd trace record_call]. rewrite count_app. simpl. lia.
    + unfold logf, modify.
      match goal with |- context [Selfupdate.Apply body env ?st] =>
        pose proof (Apply_trace body env st) as Ha;
        destruct (Selfupdate.Apply body env st) as [[u|e] s2] end;
        cbn [snd] in Ha |- *; rewrite Ha; cbn [trace add_log record_call];
        rewrite !count_app; simpl; lia.
  - cbn [snd trace record_call add_log]. rewrite count_app. simpl. lia.
Qed.

(** C2 on the code: the hash endpoint answers with status 200 and the page
    [Not Found], which is the sentinel, and so does the endpoint of the
    binary. The update is not skipped: the binary is requested and applied,
    and the executable now holds the page. *)
Theorem sentinel_answer_replaces_executable :
  Strings.EqualFold (Strings.TrimSpace "Not Found") "NOT FOUND" = true /\
  exists s',
    selfUpdate Scenario.self_client Scenario.down_env Scenario.self_start = (Ok tt, s') /\
    trace s' = [CExecutable; CRemove "launcheq.bat"; CRemove ".launcheq.exe.old";
                COpen "launcheq.exe"; CRead "launcheq.exe";
                CGet SelfHash "http://patch.example/launcheq-hash.txt";
                CReadAll "http://patch.example/launcheq-hash.txt";
                CGet SelfBinary "http://patch.example/launcheq.exe"; CApply] /\
    fs Scenario.self_start !! "launcheq.exe" = Some (File 493 (Scenario.text "abc")) /\
    fs s' !! "launcheq.exe" = Some (File 493 (Scenario.text "Not Found")).
Proof.
  split; [vm_compute; reflexivity|].
  eexists. split; [vm_compute; reflexivity|]. repeat split.
Qed.

(** ** Files opened for writing *)

Lemma open_trunc_ok c path mode env s s' :
  OS.open_trunc c path mode env s = (Ok tt, s') ->
  trace s' = (trace s ++ [c])%list /\
  Filepath.implicit_dir (Filepath.Clean path) = false /\
  exists m, fs s' !! Filepath.Clean path = Some (File m []).
Proof.
  unfold OS.open_trunc, syscall.
  destruct (io_error env (trace s) c); [discriminate|].
  destruct (String.eqb path ""); [discriminate|].
  destruct (OS.wants_dir path || OS.blocked (fs s) (Filepath.Clean path)); [discriminate|].
  destruct (OS.node_at (fs s) (Filepath.Dir (Filepath.Clean path))) as [[m0 d0|]|];
    try discriminate.
  unfold OS.node_at.
  destruct (Filepath.implicit_dir (Filepath.Clean path)); [discriminate|].
  destruct (fs s !! Filepath.Clean path) as [[m1 d1|]|]; try discriminate;
    intros H; inversion H; subst; simpl; (split; [reflexivity|]); (split; [reflexivity|]);
    eexists; apply lookup_insert_eq.
Qed.

Lemma Copy_ok path data env s s' m old :
  OS.Copy path data env s = (Ok tt, s') ->
  fs s !! Filepath.Clean path = Some (File m old) ->
  fs s' !! Filepath.Clean path = Some (File m data).
Proof.
  unfold OS.Copy. destruct (io_error env (trace s) (CWrite path)); [discriminate|].
  intros H Hl. inversion H. subst. simpl. unfold OS.set_data. rewrite Hl.
  apply lookup_insert_eq.
Qed.

(** ** The archive expander *)

Lemma unpack_file_writes env s dstDir f s' :
  zIsDir f = false ->
  unpack_file dstDir f env s = (Ok tt, s') ->
  exists m, fs s' !! Filepath.Clean (Filepath.Join dstDir (zName f)) = Some (File m (zData f)).
Proof.
  intros Hd. unfold unpack_file. rewrite Hd. unfold mbind, M_bind.
  destruct (wrap "mkdirall" _ env s) as [[[]|e1] s1]; [|discriminate].
  destruct (wrap "openfile" (OS.OpenFile _ (zMode f)) env s1) as [[[]|e2] s2] eqn:Ho;
    [|discriminate].
  unfold wrap in Ho.
  destruct (OS.OpenFile (Filepath.Join dstDir (zName f)) (zMode f) env s1)
    as [[[]|e2] s2'] eqn:Ho'; inversion Ho; subst.
  apply open_trunc_ok in Ho' as (_ & _ & m & Hm).
  destruct (wrap "open" (Zip.Open f) env s2) as [[[]|e3] s3] eqn:Hz; [|discriminate].
  assert (Hfs : fs s3 = fs s2).
  { unfold wrap, Zip.Open, syscall in Hz.
    destruct (io_error env (trace s2) _); [discriminate|].
    inversion Hz; subst; reflexivity. }
  intros Hc. unfold wrap in Hc.
  destruct (OS.Copy (Filepath.Join dstDir (zName f)) (zData f) env s3)
    as [[[]|e4] s4] eqn:Hc'; inversion Hc; subst.
  exists m. eapply Copy_ok; [exact Hc'|]. rewrite Hfs. exact Hm.
Qed.

(** C9. [unpack] has no check of the stored names. Every entry of the
    archive that is not a directory and is expanded without an error ends
    up as a file at the destination directory joined with the stored name,
    whatever that name is. And there is an archive with a name that
    contains [..]: the manifest has a single harmless entry under [maps/],
    the pass fetches and expands the archive, and a file that was not there
    before is written at [../evil.txt], outside the working directory the
    archive is expanded into. *)
Theorem unpack_follows_stored_names :
  (forall (env : Env) (s s' : State) (dstDir : string) (f : zipFile),
     zIsDir f = false ->
     unpack_file dstDir f env s = (Ok tt, s') ->
     exists m,
       fs s' !! Filepath.Clean (Filepath.Join dstDir (zName f)) = Some (File m (zData f))) /\
  (zip_reader Scenario.evil_env (Scenario.text "PK") = Some [Scenario.evil_file] /\
   Strings.Contains (zName Scenario.evil_file) ".." = true /\
   Filepath.Join "." (zName Scenario.evil_file) = "../evil.txt" /\
   Filepath.is_local "../evil.txt" = false /\
   fs Scenario.bulk_start !! "../evil.txt" = None /\
   exists s',
     patch Scenario.evil_client Scenario.evil_env Scenario.bulk_start = (Ok tt, s') /\
     fs s' !! "../evil.txt" = Some (File 420 (Scenario.text "x"))).
Proof.
  split; [intros env s s' dstDir f; apply unpack_file_writes|].
  repeat split.
  eexists. split; [vm_compute; reflexivity|]. reflexivity.
Qed.

Lemma unpack_follows_stored_names_witness :
  exists m,
    fs (snd (unpack_file "." Scenario.evil_file Scenario.evil_env Scenario.bulk_start))
       !! "../evil.txt" = Some (File m (Scenario.text "x")).
Proof.
  exact (proj1 unpack_follows_stored_names Scenario.evil_env Scenario.bulk_start
    (snd (unpack_file "." Scenario.evil_file Scenario.evil_env Scenario.bulk_start))
    "." Scenario.evil_file eq_refl eq_refl).
Defined.

(** ** A download that fails *)

Lemma reaches_download_run c entry v env s_pre s :
  reaches_download entry env s_pre s ->
  download_entry c entry v env s_pre =
    (wrap "download new file" (downloadPatchFile c entry) ;;
     modify (set_isPatched true) ;;
     mret (downloaded entry v)) env s.
Proof.
  intros (Hdots & s1 & Hdir & [(err & HS & Hne) | (fi & s2 & hash & HS & Hh & Hne)]);
    unfold download_entry; rewrite Hdots;
    rewrite (bind_ok _ _ _ _ _ _ Hdir);
    rewrite (bind_ok _ _ _ _ _ _ (try_run _ _ _ _ _ HS)).
  - now rewrite Hne.
  - rewrite (bind_ok _ _ _ _ _ _ (wrap_ok _ _ _ _ _ _ Hh)).
    apply String.eqb_neq in Hne. now rewrite Hne.
Qed.

Lemma total_line_run (fileList : FileList) env s :
  (if (String.length (Version fileList) <? 8)%nat
   then logf "Total patch size: %s"
          [ASize (fold_left (fun acc entry => add64 acc (int64 (Size entry)))
                    (Downloads fileList) 0)]
   else logf "Total patch size: %s, version: %s"
          [ASize (fold_left (fun acc entry => add64 acc (int64 (Size entry)))
                    (Downloads fileList) 0);
           AStr (short_version (Version fileList))]) env s
  = (Ok tt, add_log (total_line fileList) s).
Proof. unfold total_line. now destruct (_ <? _)%nat. Qed.

(** An error in the download loop is the result of the pass, which ends in
    the state the loop stopped in. *)
Lemma patch_aborts c env s0 e s' :
  FileListVersion s0 <> Version (cacheFileList c) ->
  foldM (download_entry c) (Downloads (cacheFileList c)) initVars env
    (add_log (total_line (cacheFileList c)) s0) = (Err e, s') ->
  patch c env s0 = (Err e, s').
Proof.
  intros Hv Hloop. unfold patch.
  rewrite (bind_ok _ _ env s0 (FileListVersion s0) s0 eq_refl).
  apply String.eqb_neq in Hv. rewrite Hv.
  rewrite (bind_ok _ _ _ _ _ _ (total_line_run _ env s0)).
  now rewrite (bind_err _ _ _ _ _ _ Hloop).
Qed.

(** C10. Take a Download Entry whose name is not under [maps/], for which
    the download loop calls [downloadPatchFile], whose file the system lets
    the client create, and whose request then fails in transport or is
    answered with a status other than 200. The file is created, and emptied
    if it was there, before the request is made; the download procedure
    returns an error; the pass returns that error in the state reached right
    after the request, so nothing is written, deleted or saved afterwards;
    and the path of the entry holds an empty file. *)
Theorem download_not_atomic (c : Client) (env : Env)
    (before rest : list FileEntry) (entry : FileEntry) (v : loopVars)
    (s0 s_pre s s1 : State) :
  Downloads (cacheFileList c) = (before ++ entry :: rest)%list ->
  FileListVersion s0 <> Version (cacheFileList c) ->
  foldM (download_entry c) before initVars env
    (add_log (total_line (cacheFileList c)) s0) = (Ok v, s_pre) ->
  reaches_download entry env s_pre s ->
  is_maps (Name entry) = false ->
  OS.Create (Name entry) env (add_log (download_line entry) s) = (Ok tt, s1) ->
  (forall body, http env (trace s1) (file_url c entry) <> Some (200, body)) ->
  let s' := record_call (CGet PatchFile (file_url c entry)) s1 in
  exists e,
    downloadPatchFile c entry env s = (Err e, s') /\
    patch c env s0 = (Err (EWrap "download new file" e), s') /\
    trace s' = (trace s ++ [CCreate (Name entry); CGet PatchFile (file_url c entry)])%list /\
    exists m, fs s' !! Filepath.Clean (Name entry) = Some (File m []).
Proof.
  intros Hlist Hver Hbefore Hreach Hmaps Hcreate Hresp s'.
  assert (Hdl : exists e, downloadPatchFile c entry env s = (Err e, s')).
  { unfold downloadPatchFile.
    rewrite (bind_ok _ _ env s (isMapsDownloaded s) s eq_refl).
    rewrite Hmaps, andb_false_r.
    rewrite (bind_ok _ _ _ _ _ _ (logf_run _ _ env s)).
    rewrite (bind_ok _ _ _ _ _ _ (wrap_ok _ _ _ _ _ _ Hcreate)).
    destruct (http env (trace s1) (file_url c entry)) as [[code body]|] eqn:Hh.
    - rewrite (bind_ok _ _ _ _ _ _
        (wrap_ok _ _ _ _ _ _ (Get_ok PatchFile _ env s1 code body Hh))).
      cbn [HTTP.StatusCode]. destruct (code =? 200) eqn:Hc.
      + apply Z.eqb_eq in Hc. subst code. now destruct (Hresp body).
      + eexists. reflexivity.
    - rewrite (bind_err _ _ _ _ _ _
        (wrap_err _ _ _ _ _ _ (Get_fails PatchFile _ env s1 Hh))).
      eexists. reflexivity. }
  destruct Hdl as [e Hdl]. exists e.
  apply open_trunc_ok in Hcreate as (Ht & Hi & m & Hm).
  split; [exact Hdl|]. split; [|split].
  - apply patch_aborts; [exact Hver|]. rewrite Hlist.
    rewrite (foldM_app _ _ _ _ _ _ _ _ Hbefore).
    apply foldM_cons_err. rewrite (reaches_download_run c _ v _ _ _ Hreach).
    now rewrite (bind_err _ _ _ _ _ _ (wrap_err _ _ _ _ _ _ Hdl)).
  - subst s'. cbn [trace record_call]. rewrite Ht. cbn [trace add_log].
    now rewrite <- app_assoc.
  - exists m. exact Hm.
Qed.

Lemma download_not_atomic_witness :
  fs Scenario.maps_start !! "readme.txt" = Some (File 420 (Scenario.text "abc")) /\
  exists e,
    patch Scenario.stale_client Scenario.stale_env Scenario.maps_start
      = (Err (EWrap "download new file" e),
         record_call (CGet PatchFile "http://files.example/rof/readme.txt")
           Scenario.stale_created) /\
    exists m,
      fs (record_call (CGet PatchFile "http://files.example/rof/readme.txt")
            Scenario.stale_created) !! "readme.txt" = Some (File m []).
Proof.
  split; [vm_compute; reflexivity|].
  destruct (download_not_atomic Scenario.stale_client Scenario.stale_env
    [Scenario.map_c] [Scenario.map_a] Scenario.stale_entry
    (satisfied Scenario.map_c true initVars)
    Scenario.maps_start Scenario.stale_pre Scenario.stale_reached Scenario.stale_created)
    as (e & _ & H2 & _ & m & H4).
  - reflexivity.
  - vm_compute. discriminate.
  - vm_compute. reflexivity.
  - split; [reflexivity|]. exists Scenario.stale_pre. split; [reflexivity|]. right.
    exists (File 420 (Scenario.text "abc")),
      (record_call (CStat "readme.txt") Scenario.stale_pre),
      "900150983cd24fb0d6963f7d28e17f72".
    split; [vm_compute; reflexivity|]. split; [vm_compute; reflexivity|].
    vm_compute. discriminate.
  - reflexivity.
  - vm_compute. reflexivity.
  - intros body. vm_compute. discriminate.
  - exists e. split; [exact H2|]. exists m. exact H4.
Defined.

(** ** Deletions *)


(** A pass whose download loop ends without error goes on with the
    second loop and the end of [patch]. *)
Lemma patch_deletes c env s0 v s_dl :
  FileListVersion s0 <> Version (cacheFileList c) ->
  foldM (download_entry c) (Downloads (cacheFileList c)) initVars env
    (add_log (total_line (cacheFileList c)) s0) = (Ok v, s_dl) ->
  patch c env s0 = (forM_ (Deletes (cacheFileList c)) delete_entry ;; patch_end c v) env s_dl.
Proof.
  intros Hv Hloop. unfold patch.
  rewrite (bind_ok _ _ env s0 (FileListVersion s0) s0 eq_refl).
  apply String.eqb_neq in Hv. rewrite Hv.
  rewrite (bind_ok _ _ _ _ _ _ (total_line_run _ env s0)).
  now rewrite (bind_ok _ _ _ _ _ _ Hloop).
Qed.




(** C7, as the spec has it, fails. Three regular files are on disk, and
    the manifest wants them deleted under the names [a..b.txt],
    [readme.txt/] and [old.txt]. The first is not removed, since its name
    has [..] in it; at the second [Stat] fails, but not because the path
    does not exist, and the pass returns an error there instead of going
    on to the third. [Remove] is never called and the three files are on
    disk as before. *)
Lemma listed_files_not_removed :
  Deletes (cacheFileList Scenario.dots_client)
    = [Scenario.entry "a..b.txt" "" 0; Scenario.entry "readme.txt/" "" 0;
       Scenario.entry "old.txt" "" 0] /\
  fs Scenario.dots_start !! "a..b.txt" = Some (File 420 (Scenario.text "a")) /\
  exists s',
    patch Scenario.dots_client (Scenario.quiet [] []) Scenario.dots_start
      = (Err (EWrap "stat readme.txt/" (ESys (CStat "readme.txt/") false)), s') /\
    trace s' = [CStat "readme.txt/"] /\
    cacheLog s' = [total_line (cacheFileList Scenario.dots_client); skip_line "a..b.txt"] /\
    fs s' = fs Scenario.dots_start.
Proof.
  split; [reflexivity|]. split; [vm_compute; reflexivity|].
  eexists. split; [vm_compute; reflexivity|]. repeat split.
Qed.

(** ** "Up to date" lines for maps, over a pass *)

Lemma total_line_no_skip fileList : is_maps_skip (total_line fileList) = false.
Proof. unfold total_line. now destruct (_ <? _)%nat. Qed.

(** Neither the second loop nor the end of [patch] writes an "up to date"
    line. *)
Lemma skips_pass_end c v :
  frames same_skips (forM_ (Deletes (cacheFileList c)) delete_entry ;; patch_end c v).
Proof. unfold patch_end. frame skips_laws. Qed.

(** C8. Let a pass reach, after the entries [before] of the download
    loop, an entry that is a regular file on disk whose hash equals [Md5].
    [isMapsSkippedBefore] is then set exactly when an "up to date" line
    for a name under [maps/] was written earlier in the pass. The
    iteration counts the entry as satisfied and ends without error. If the
    name of the entry is under [maps/] (in any letter case), its line is
    logged when the flag is unset, which sets the flag, and no line is
    logged when the flag is set; if the name is not under [maps/], the
    line is logged whatever the flag, which stays as it is. [patch] goes
    on from there with the entries that follow; and whatever these are,
    when the name is under [maps/] the pass ends with exactly one
    "up to date" line for a map more than it started with. *)
Theorem up_to_date_maps_logged_once (c : Client) (env : Env)
    (before rest : list FileEntry) (entry : FileEntry)
    (v : loopVars) (s0 s s1 : State) (m : Z) (data : list byte) :
  Downloads (cacheFileList c) = (before ++ entry :: rest)%list ->
  FileListVersion s0 <> Version (cacheFileList c) ->
  foldM (download_entry c) before initVars env
    (add_log (total_line (cacheFileList c)) s0) = (Ok v, s) ->
  Strings.Contains (Name entry) ".." = false ->
  ensure_dir entry env s = (Ok tt, s1) ->
  OS.lookup (fs s1) (Name entry) = OS.Found (File m data) ->
  io_ok env (trace s1) [CStat (Name entry); COpen (Name entry); CRead (Name entry)] = true ->
  MD5.hexsum data = Md5 entry ->
  let name := Name entry in
  let s2 := record_calls [CStat name; COpen name; CRead name] s1 in
  let silent := is_maps name && isMapsSkippedBefore v in
  let v' := satisfied entry (is_maps name || isMapsSkippedBefore v) v in
  let s' := if silent then s2 else add_log (up_to_date_line name) s2 in
  maps_skips (cacheLog s)
    = (if isMapsSkippedBefore v then S (maps_skips (cacheLog s0)) else maps_skips (cacheLog s0)) /\
  download_entry c entry v env s = (Ok v', s') /\
  cacheLog s'
    = (if silent then cacheLog s1 else cacheLog s1 ++ [up_to_date_line name])%list /\
  patch c env s0
    = (v2 ← foldM (download_entry c) rest v';
       forM_ (Deletes (cacheFileList c)) delete_entry ;; patch_end c v2) env s' /\
  (is_maps name = true ->
   maps_skips (cacheLog (snd (patch c env s0))) = S (maps_skips (cacheLog s0))).
Proof.
  intros Hlist Hver Hbefore Hdots Hdir Hl Hio Hhash. cbv zeta.
  set (name := Name entry).
  set (s2 := record_calls [CStat name; COpen name; CRead name] s1).
  set (v' := satisfied entry (is_maps name || isMapsSkippedBefore v) v).
  set (s' := if is_maps name && isMapsSkippedBefore v then s2
             else add_log (up_to_date_line name) s2).
  set (st := add_log (total_line (cacheFileList c)) s0) in *.
  assert (Hst : maps_skips (cacheLog st) = maps_skips (cacheLog s0)).
  { unfold st. cbn [cacheLog add_log]. rewrite maps_skips_app, total_line_no_skip. lia. }
  assert (Hstep : download_entry c entry v env s = (Ok v', s')).
  { pose proof (download_entry_existing c env s s1 v entry m data Hdots Hdir Hl Hio) as H.
    cbv zeta in H. rewrite Hhash, String.eqb_refl in H. rewrite H. unfold v', s'.
    fold name. fold s2. destruct (is_maps name), (isMapsSkippedBefore v); reflexivity. }
  assert (Hpre : maps_skips (cacheLog s)
    = if isMapsSkippedBefore v then S (maps_skips (cacheLog s0)) else maps_skips (cacheLog s0)).
  { pose proof (foldM_skips c before initVars env st) as H. rewrite Hbefore in H. simpl in H.
    unfold same_skips in H. rewrite <- Hst.
    destruct H as [[F S1]|(_ & F & S1)]; rewrite F; [exact S1 | exact S1]. }
  assert (Hpatch : patch c env s0
    = (v2 ← foldM (download_entry c) rest v';
       forM_ (Deletes (cacheFileList c)) delete_entry ;; patch_end c v2) env s').
  { unfold patch.
    rewrite (bind_ok _ _ env s0 (FileListVersion s0) s0 eq_refl).
    apply String.eqb_neq in Hver. rewrite Hver.
    rewrite (bind_ok _ _ _ _ _ _ (total_line_run _ env s0)). fold st.
    apply bind_same. rewrite Hlist, (foldM_app _ _ _ _ _ _ _ _ Hbefore).
    now apply foldM_cons. }
  split; [exact Hpre|]. split; [exact Hstep|]. split; [|split; [exact Hpatch|]].
  - unfold s'. destruct (is_maps name && isMapsSkippedBefore v); reflexivity.
  - intros Hm. rewrite Hpatch.
    assert (Hs' : maps_skips (cacheLog s') = S (maps_skips (cacheLog s0))
                  /\ isMapsSkippedBefore v' = true).
    { assert (Hs1 : maps_skips (cacheLog s1) = maps_skips (cacheLog s)).
      { assert (H : frames same_skips (ensure_dir entry)) by frame skips_laws.
        specialize (H env s). now rewrite Hdir in H. }
      unfold s', v'. rewrite Hm. cbn [orb andb isMapsSkippedBefore satisfied].
      split; [|reflexivity].
      destruct (isMapsSkippedBefore v).
      - change (cacheLog s2) with (cacheLog s1). congruence.
      - change (cacheLog (add_log (up_to_date_line name) s2))
          with (cacheLog s1 ++ [up_to_date_line name])%list.
        rewrite maps_skips_app, is_maps_skip_up_to_date, Hm. lia. }
    destruct Hs' as [Hs' Hv'].
    pose proof (foldM_skips c rest v' env s') as Hrest.
    unfold mbind at 1, M_bind at 1.
    destruct (foldM (download_entry c) rest v' env s') as [[v2|e] s3];
      cbn [fst snd] in *; unfold same_skips in Hrest.
    + pose proof (skips_pass_end c v2 env s3) as Hend. unfold same_skips in Hend.
      rewrite Hend. destruct Hrest as [[_ H]|(H & _)]; congruence.
    + destruct Hrest as [H|(H & _)]; congruence.
Qed.

Lemma up_to_date_maps_logged_once_witness :
  download_entry Scenario.maps_client Scenario.map_b
      (satisfied Scenario.map_a true initVars) Scenario.maps_env Scenario.after_a
    = (Ok (satisfied Scenario.map_b true (satisfied Scenario.map_a true initVars)),
       record_calls [CStat "Maps/b.txt"; COpen "Maps/b.txt"; CRead "Maps/b.txt"]
         Scenario.after_dir_b) /\
  cacheLog (record_calls [CStat "Maps/b.txt"; COpen "Maps/b.txt"; CRead "Maps/b.txt"]
              Scenario.after_dir_b)
    = cacheLog Scenario.after_dir_b /\
  cacheLog Scenario.after_dir_b
    = [total_line (cacheFileList Scenario.maps_client); up_to_date_line "maps/a.txt"] /\
  maps_skips (cacheLog (snd (patch Scenario.maps_client Scenario.maps_env
                               Scenario.maps_start)))
    = 1%nat.
Proof.
  pose proof (up_to_date_maps_logged_once Scenario.maps_client Scenario.maps_env
    [Scenario.map_a] [Scenario.map_c; Scenario.readme_lower] Scenario.map_b
    (satisfied Scenario.map_a true initVars)
    Scenario.maps_start Scenario.after_a Scenario.after_dir_b
    420 (Scenario.text "abc")) as H.
  destruct H as (_ & H2 & H3 & _ & H5).
  - reflexivity.
  - vm_compute. discriminate.
  - vm_compute. reflexivity.
  - reflexivity.
  - vm_compute. reflexivity.
  - vm_compute. reflexivity.
  - vm_compute. reflexivity.
  - vm_compute. reflexivity.
  - split; [exact H2|]. split; [exact H3|].
    split; [vm_compute; reflexivity | exact (H5 eq_refl)].
Defined.

(** ** A whole pass *)

(** One file to download and one to delete: after the pass the first is
    there with the content the server sent, the second is gone, the version
    of the manifest is recorded and saved, and the summary counts the
    declared size of the download. *)
Example pass_downloads_and_deletes :
  exists s',
    patch Scenario.sync_client Scenario.sync_env Scenario.sync_start = (Ok tt, s') /\
    fs s' = {[ "old" := Directory; "data" := Directory;
               "data/foo.dat" := File 420 (Scenario.text "hello") ]} /\
    trace s' = [CMkdirAll "data/"; CStat "data/foo.dat"; CCreate "data/foo.dat";
                CGet PatchFile "http://files.example/rof/data/foo.dat";
                CWrite "data/foo.dat"; CStat "old/bar.dat"; CRemove "old/bar.dat";
                CSave "abc12345"] /\
    FileListVersion s' = "abc12345" /\ persisted s' = Some "abc12345" /\
    isPatched s' = true /\ patchSummary s' = FinishedOf 5 /\
    MD5.hexsum (Scenario.text "hello") = Md5 Scenario.foo.
Proof.
  eexists. split; [vm_compute; reflexivity|].
  split; [vm_compute; reflexivity|]. repeat split.
Qed.

(** A second pass over the same manifest leaves the filesystem alone. *)
Example second_pass_is_idle :
  let s1 := snd (patch Scenario.sync_client Scenario.sync_env Scenario.sync_start) in
  let s2 := snd (patch Scenario.sync_client Scenario.sync_env s1) in
  fs s2 = fs s1 /\ trace s2 = trace s1.
Proof. vm_compute. split; reflexivity. Qed.

(** ** What a computation can reach *)

Lemma Forall_weaken {A} (P Q : A -> Prop) (l : list A) :
  (forall x, P x -> Q x) -> Forall P l -> Forall Q l.
Proof. intros H. induction 1; constructor; auto. Qed.

Lemma nodes_kept_order D : fs_order (nodes_kept D).
Proof.
  split.
  - intros f k n H. left. eauto.
  - intros f1 f2 f3 H12 H23 k n H.
    destruct (H12 k n H) as [(n' & H' & Hd)|HD]; [|now right].
    destruct (H23 k n' H') as [(n'' & H'' & Hd')|[HD Hn]].
    + left. exists n''. split; [exact H''|]. auto.
    + right. split; [exact HD|]. intros ->. now apply Hn, Hd.
Qed.

Lemma files_kept_order D : fs_order (files_kept D).
Proof.
  split.
  - intros f k m data H. now right.
  - intros f1 f2 f3 H12 H23 k m data H.
    destruct (H12 k m data H) as [HD|H']; [now left|]. exact (H23 k m data H').
Qed.

Lemma same_off_order D : fs_order (same_off D).
Proof.
  split.
  - intros f k _. reflexivity.
  - intros f1 f2 f3 H12 H23 k Hk. now rewrite (H23 k Hk), (H12 k Hk).
Qed.

Lemma both_order F G : fs_order F -> fs_order G -> fs_order (fun f f' => F f f' /\ G f f').
Proof.
  intros [Fr Ft] [Gr Gt]. split.
  - intros f. split; [apply Fr | apply Gr].
  - intros f1 f2 f3 [H1 H2] [H3 H4]. split; [eapply Ft | eapply Gt]; eassumption.
Qed.

Lemma is_file_insert_dir p q f :
  Filepath.implicit_dir q = false ->
  OS.is_file f q = false -> OS.is_file (<[p := Directory]> f) q = false.
Proof.
  unfold OS.is_file, OS.node_at. intros -> H.
  destruct (decide (p = q)) as [->|Hne].
  - now rewrite lookup_insert_eq.
  - now rewrite lookup_insert_ne.
Qed.

(** [os.MkdirAll] puts directories where there is no regular file. *)
Lemma mkdir_order F ps : fs_order F ->
  (forall p f, In p ps -> OS.is_file f p = false -> Filepath.implicit_dir p = false ->
     F f (<[p := Directory]> f)) ->
  keeps_mkdir F ps.
Proof.
  intros [Fr Ft]. induction ps as [|p ps IH]; intros Hone f Hex Hall; simpl in *.
  - apply Fr.
  - apply orb_false_elim in Hex as [Hp Hps]. inversion Hall as [|? ? Hi Hall']; subst.
    apply (Ft _ (<[p := Directory]> f)); [apply Hone; auto|].
    apply IH; [intros q g Hq; apply Hone; now right| |exact Hall'].
    clear IH Hp Hi Hall Hone. induction Hall' as [|q ps Hqi _ IHq]; [reflexivity|].
    simpl in *. apply orb_false_elim in Hps as [Hq Hps].
    rewrite (IHq Hps), orb_false_r. now apply is_file_insert_dir.
Qed.

Lemma nodes_kept_mkdir D ps : keeps_mkdir (nodes_kept D) ps.
Proof.
  apply mkdir_order; [apply nodes_kept_order|].
  intros p f _ _ _ k n H. left. destruct (decide (p = k)) as [->|Hne].
  - exists Directory. split; [apply lookup_insert_eq|]. reflexivity.
  - exists n. split; [now rewrite lookup_insert_ne|]. auto.
Qed.

Lemma files_kept_mkdir D ps : keeps_mkdir (files_kept D) ps.
Proof.
  apply mkdir_order; [apply files_kept_order|].
  intros p f _ Hp Hi k m data H. right. destruct (decide (p = k)) as [->|Hne].
  - unfold OS.is_file, OS.node_at in Hp. rewrite Hi, H in Hp. discriminate.
  - now rewrite lookup_insert_ne.
Qed.

Lemma same_off_mkdir (D : string -> Prop) ps :
  (forall p, In p ps -> D p) -> keeps_mkdir (same_off D) ps.
Proof.
  intros HD. apply mkdir_order; [apply same_off_order|].
  intros p f Hin _ _ k Hk. destruct (decide (p = k)) as [->|Hne].
  - contradiction Hk. now apply HD.
  - now rewrite lookup_insert_ne.
Qed.

Lemma nodes_kept_write D p : keeps_write (nodes_kept D) p.
Proof.
  intros f m data Hp k n H. left. destruct (decide (p = k)) as [->|Hne].
  - eexists. split; [apply lookup_insert_eq|]. intros ->. now contradiction Hp.
  - exists n. split; [now rewrite lookup_insert_ne|]. auto.
Qed.

Lemma files_kept_write (D : string -> Prop) p : D p -> keeps_write (files_kept D) p.
Proof.
  intros HD f m data _ k m' data' H. destruct (decide (p = k)) as [->|Hne]; [now left|].
  right. now rewrite lookup_insert_ne.
Qed.

Lemma nodes_kept_remove_file (D : string -> Prop) p : D p -> keeps_remove_file (nodes_kept D) p.
Proof.
  intros HD f m data Hp k n H. destruct (decide (p = k)) as [->|Hne].
  - right. split; [exact HD|]. congruence.
  - left. exists n. split; [now rewrite lookup_delete_ne|]. auto.
Qed.

Lemma files_kept_remove_file (D : string -> Prop) p : D p -> keeps_remove_file (files_kept D) p.
Proof.
  intros HD f m data _ k m' data' H. destruct (decide (p = k)) as [->|Hne]; [now left|].
  right. now rewrite lookup_delete_ne.
Qed.

Lemma same_off_change (D : string -> Prop) p : D p -> keeps_change (same_off D) p.
Proof.
  intros HD f. split; [|intros n]; intros k Hk;
    (destruct (decide (p = k)) as [->|Hne]; [now contradiction Hk|]).
  - now rewrite lookup_delete_ne.
  - now rewrite lookup_insert_ne.
Qed.

Section Within.

Variable P : call -> Prop.
Variable F : gmap string node -> gmap string node -> Prop.
Variable env : Env.
Context (O : fs_order F).

Lemma within_refl s : within P F s s.
Proof.
  split; [exists []; split; [now rewrite app_nil_r | constructor]
         | apply (fo_refl _ O) | now split].
Qed.

Lemma within_trans s1 s2 s3 : within P F s1 s2 -> within P F s2 s3 -> within P F s1 s3.
Proof.
  intros [(t1 & T1 & F1) N1 [V1 V1']] [(t2 & T2 & F2) N2 [V2 V2']]. split.
  - exists (t1 ++ t2)%list. split; [now rewrite T2, T1, app_assoc|]. now apply Forall_app.
  - eapply (fo_trans _ O); eassumption.
  - split; congruence.
Qed.

(** One call, and a change of the filesystem that [F] allows. *)
Lemma within_call c g s :
  P c -> F (fs s) (g (fs s)) -> within P F s (set_fs g (record_call c s)).
Proof.
  intros Hc Hg. split; [exists [c]; split; [reflexivity | now constructor] | exact Hg | now split].
Qed.

Lemma within_record c s : P c -> within P F s (record_call c s).
Proof.
  intros Hc. split; [exists [c]; split; [reflexivity | now constructor]
                    | apply (fo_refl _ O) | now split].
Qed.

Lemma within_log l s : within P F s (add_log l s).
Proof.
  split; [exists []; split; [simpl; now rewrite app_nil_r | constructor]
         | apply (fo_refl _ O) | now split].
Qed.

Lemma within_bind {A B} (m : M A) (f : A -> M B) s :
  within P F s (snd (m env s)) ->
  (forall a s1, m env s = (Ok a, s1) -> within P F s1 (snd (f a env s1))) ->
  within P F s (snd ((m ≫= f) env s)).
Proof.
  intros Hm Hf. unfold mbind, M_bind. destruct (m env s) as [[a|e] s1]; cbn [snd] in *.
  - eapply within_trans; [exact Hm | now apply Hf].
  - exact Hm.
Qed.

Lemma stays_ret {A} (a : A) : stays P F env (mret a).
Proof. intros s. apply within_refl. Qed.

Lemma stays_throw {A} e : stays P F env (throw (A := A) e).
Proof. intros s. apply within_refl. Qed.

Lemma stays_gets {A} (f : State -> A) : stays P F env (gets f).
Proof. intros s. apply within_refl. Qed.

(** The continuation may rely on what is known of every result of the
    first computation. *)
Lemma stays_bind_post {A B} (Q : A -> Prop) (m : M A) (f : A -> M B) :
  (forall s a s', m env s = (Ok a, s') -> Q a) ->
  stays P F env m -> (forall a, Q a -> stays P F env (f a)) -> stays P F env (m ≫= f).
Proof.
  intros HQ Hm Hf s. unfold mbind, M_bind.
  specialize (Hm s). specialize (HQ s). destruct (m env s) as [[a|e] s1]; simpl in *.
  - eapply within_trans; [exact Hm | apply Hf]. now apply (HQ a s1).
  - exact Hm.
Qed.

Lemma stays_bind {A B} (m : M A) (f : A -> M B) :
  stays P F env m -> (forall a, stays P F env (f a)) -> stays P F env (m ≫= f).
Proof.
  intros Hm Hf. apply (stays_bind_post (fun _ => True)); [trivial | exact Hm | auto].
Qed.

Lemma stays_wrap {A} p (m : M A) : stays P F env m -> stays P F env (wrap p m).
Proof.
  intros Hm s. unfold wrap. specialize (Hm s).
  now destruct (m env s) as [[a|e] s1].
Qed.

Lemma stays_try {A} (m : M A) : stays P F env m -> stays P F env (try m).
Proof.
  intros Hm s. unfold try. specialize (Hm s).
  now destruct (m env s) as [r s1].
Qed.

Lemma stays_forM {A} (Q : A -> Prop) (l : list A) (body : A -> M unit) :
  (forall x, Q x -> stays P F env (body x)) -> Forall Q l -> stays P F env (forM_ l body).
Proof.
  intros H. induction 1 as [|x l Hx _ IH]; simpl.
  - apply stays_ret.
  - apply stays_bind; [now apply H | intros _; exact IH].
Qed.

Lemma stays_foldM {A V} (Q : A -> Prop) (body : A -> V -> M V) (l : list A) (v : V) :
  (forall x v, Q x -> stays P F env (body x v)) -> Forall Q l ->
  stays P F env (foldM body l v).
Proof.
  intros H Hl. revert v. induction Hl as [|x l Hx _ IH]; intros v; simpl.
  - apply stays_ret.
  - apply stays_bind; [now apply H | exact IH].
Qed.

Lemma stays_logf fmt args : stays P F env (logf fmt args).
Proof. intros s. apply within_log. Qed.

Lemma stays_patched b : stays P F env (modify (set_isPatched b)).
Proof.
  intros s. split; [exists []; split; [simpl; now rewrite app_nil_r | constructor]
                   | apply (fo_refl _ O) | now split].
Qed.

Lemma stays_maps b : stays P F env (modify (set_isMapsDownloaded b)).
Proof.
  intros s. split; [exists []; split; [simpl; now rewrite app_nil_r | constructor]
                   | apply (fo_refl _ O) | now split].
Qed.

Lemma stays_syscall {A} c (k : gmap string node -> result A * gmap string node) :
  P c -> (forall f, F f (snd (k f))) -> stays P F env (syscall c k).
Proof.
  intros Hc Hk s. unfold syscall.
  destruct (io_error env (trace s) c); cbn [snd]; [now apply within_record|].
  specialize (Hk (fs s)). destruct (k (fs s)) as [r f]; cbn [snd] in *.
  now apply (within_call c (fun _ => f)).
Qed.

Lemma stays_Executable : P CExecutable -> stays P F env OS.Executable.
Proof.
  intros Hc s. unfold OS.Executable.
  destruct (io_error env (trace s) CExecutable); now apply within_record.
Qed.

Lemma stays_Stat path : P (CStat path) -> stays P F env (OS.Stat path).
Proof.
  intros Hc. apply stays_syscall; [exact Hc|]. intros f.
  destruct (OS.lookup f path); apply (fo_refl _ O).
Qed.

Lemma stays_Open path : P (COpen path) -> stays P F env (OS.Open path).
Proof.
  intros Hc. apply stays_syscall; [exact Hc|]. intros f.
  destruct (OS.lookup f path); apply (fo_refl _ O).
Qed.

Lemma stays_ReadAll path : P (CRead path) -> stays P F env (OS.ReadAll path).
Proof.
  intros Hc. apply stays_syscall; [exact Hc|]. intros f.
  destruct (OS.lookup f path) as [[m data|]| |]; apply (fo_refl _ O).
Qed.

Lemma stays_md5Checksum path :
  P (COpen path) -> P (CRead path) -> stays P F env (md5Checksum path).
Proof.
  intros Ho Hr. unfold md5Checksum.
  apply stays_bind; [now apply stays_Open|]. intros _.
  apply stays_bind; [now apply stays_wrap, stays_ReadAll|]. intros data.
  apply stays_ret.
Qed.

Lemma stays_ZipOpen f : P (CZipOpen (zName f)) -> stays P F env (Zip.Open f).
Proof. intros Hc. apply stays_syscall; [exact Hc|]. intros m. apply (fo_refl _ O). Qed.

Lemma stays_MkdirAll path :
  P (CMkdirAll path) -> keeps_mkdir F (made_dirs path) -> stays P F env (OS.MkdirAll path).
Proof.
  intros Hc HF. apply stays_syscall; [exact Hc|]. intros f. cbv zeta.
  destruct (String.eqb path ""); [apply (fo_refl _ O)|].
  destruct (existsb _ _) eqn:Hex; [apply (fo_refl _ O)|]. cbn [snd].
  apply HF; [exact Hex|].
  apply Forall_forall. intros p Hp. apply list_elem_of_In, List.filter_In in Hp as [_ Hp].
  now apply negb_true_iff in Hp.
Qed.

Lemma stays_open_trunc c path mode :
  P c -> keeps_write F (Filepath.Clean path) -> stays P F env (OS.open_trunc c path mode).
Proof.
  intros Hc HF. apply stays_syscall; [exact Hc|]. intros f. cbv zeta.
  destruct (String.eqb path ""); [apply (fo_refl _ O)|].
  destruct (_ || _); [apply (fo_refl _ O)|].
  destruct (OS.node_at f (Filepath.Dir _)) as [[m0 d0|]|]; try apply (fo_refl _ O).
  unfold OS.node_at.
  destruct (Filepath.implicit_dir (Filepath.Clean path)); [apply (fo_refl _ O)|].
  destruct (f !! Filepath.Clean path) as [[m1 d1|]|] eqn:Hp; try apply (fo_refl _ O);
    cbn [snd]; apply HF; congruence.
Qed.

Lemma stays_Create path :
  P (CCreate path) -> keeps_write F (Filepath.Clean path) -> stays P F env (OS.Create path).
Proof. apply stays_open_trunc. Qed.

Lemma stays_OpenFile path mode :
  P (COpenFile path mode) -> keeps_write F (Filepath.Clean path) ->
  stays P F env (OS.OpenFile path mode).
Proof. apply stays_open_trunc. Qed.

Lemma keeps_set_data path data f :
  keeps_write F (Filepath.Clean path) -> F f (OS.set_data path data f).
Proof.
  intros HF. unfold OS.set_data.
  destruct (f !! Filepath.Clean path) as [[m old|]|] eqn:Hp; try apply (fo_refl _ O).
  apply HF. congruence.
Qed.

Lemma stays_Copy path data :
  P (CWrite path) -> keeps_write F (Filepath.Clean path) -> stays P F env (OS.Copy path data).
Proof.
  intros Hc HF s. unfold OS.Copy.
  destruct (io_error env (trace s) (CWrite path)); cbn [snd];
    (apply within_call; [exact Hc | now apply keeps_set_data]).
Qed.

Lemma stays_Remove path :
  P (CRemove path) -> keeps_change F (Filepath.Clean path) -> stays P F env (OS.Remove path).
Proof.
  intros Hc HF. apply stays_syscall; [exact Hc|]. intros f. cbv zeta.
  destruct (OS.lookup f path) as [[m data|]| |]; cbn [snd]; try apply (fo_refl _ O).
  - apply HF.
  - destruct (_ || _); cbn [snd]; [apply (fo_refl _ O) | apply HF].
Qed.

Lemma stays_Get why url : P (CGet why url) -> stays P F env (HTTP.Get why url).
Proof.
  intros Hc s. unfold HTTP.Get.
  destruct (http env (trace s) url) as [[code body]|]; cbn [snd]; now apply within_record.
Qed.

Lemma stays_HTTP_ReadAll resp : P (CReadAll (HTTP.Url resp)) -> stays P F env (HTTP.ReadAll resp).
Proof.
  intros Hc s. unfold HTTP.ReadAll.
  destruct (io_error env (trace s) _); cbn [snd]; now apply within_record.
Qed.

Lemma stays_OpenReader path : P (CZipOpenReader path) -> stays P F env (Zip.OpenReader path).
Proof.
  intros Hc s. unfold Zip.OpenReader.
  destruct (io_error env (trace s) _); cbn [snd]; [now apply within_record|].
  destruct (OS.lookup (fs s) path) as [[m data|]| |]; cbn [snd]; try now apply within_record.
  destruct (zip_reader env data); cbn [snd]; now apply within_record.
Qed.

Lemma stays_Rename oldpath newpath :
  P (CRename oldpath newpath) -> (forall f f', F f f') ->
  stays P F env (OS.Rename oldpath newpath).
Proof. intros Hc HF. apply stays_syscall; [exact Hc | intros f; apply HF]. Qed.

End Within.

Lemma within_weaken (P : call -> Prop) (F G : gmap string node -> gmap string node -> Prop)
    (s s' : State) :
  (forall f f', F f f' -> G f f') -> within P F s s' -> within P G s s'.
Proof. intros H [Ht Hf Hv]. split; [exact Ht | now apply H | exact Hv]. Qed.

Lemma any_order : fs_order (fun _ _ : gmap string node => True).
Proof. now split. Qed.

Lemma OpenReader_reads path env s files s' :
  Zip.OpenReader path env s = (Ok files, s') ->
  exists m data,
    OS.lookup (fs s) path = OS.Found (File m data) /\ zip_reader env data = Some files.
Proof.
  unfold Zip.OpenReader. destruct (io_error env (trace s) _); [discriminate|].
  destruct (OS.lookup (fs s) path) as [[m data|]| |]; try discriminate.
  destruct (zip_reader env data) as [fl|] eqn:Hz; [|discriminate].
  intros [= <- _]. now exists m, data.
Qed.

(** ** Expanding an archive, and fetching the one of the maps *)

Section Unpack.

Variable P : call -> Prop.
Variable F : gmap string node -> gmap string node -> Prop.
Variable env : Env.
Context (O : fs_order F).
Hypothesis Hmk : forall p, P (CMkdirAll p).
Hypothesis Hof : forall p m, P (COpenFile p m).
Hypothesis Hzo : forall n, P (CZipOpen n).
Hypothesis Hwr : forall p, P (CWrite p).

Lemma stays_unpack_file dstDir f :
  (if zIsDir f then keeps_mkdir F (made_dirs (Filepath.Join dstDir (zName f)))
   else keeps_mkdir F (made_dirs (Filepath.Dir (Filepath.Join dstDir (zName f)))) /\
        keeps_write F (Filepath.Clean (Filepath.Join dstDir (zName f)))) ->
  stays P F env (unpack_file dstDir f).
Proof.
  intros HF. unfold unpack_file. destruct (zIsDir f).
  - now apply stays_wrap, stays_MkdirAll.
  - destruct HF as [Hd Hw].
    repeat (apply stays_bind; [exact O | | intros _]); apply stays_wrap.
    + now apply stays_MkdirAll.
    + now apply stays_OpenFile.
    + now apply stays_ZipOpen.
    + now apply stays_Copy.
Qed.

(** The entries that [unpack] expands are those that the reader finds in
    the file at [srcFile]. *)
Lemma unpack_within (Q : zipFile -> Prop) srcFile dstDir s :
  P (CZipOpenReader srcFile) ->
  (forall m data files,
     OS.lookup (fs s) srcFile = OS.Found (File m data) ->
     zip_reader env data = Some files -> Forall Q files) ->
  (forall f, Q f -> stays P F env (unpack_file dstDir f)) ->
  within P F s (snd (unpack srcFile dstDir env s)).
Proof.
  intros Hc Hread Hf. unfold unpack. destruct (negb _); [now apply within_refl|].
  apply within_bind; [exact O | now apply stays_wrap, stays_OpenReader|].
  intros files s1 H. apply wrap_Ok in H.
  assert (Hs1 : fs s1 = fs s /\ True).
  { split; [|exact I]. unfold Zip.OpenReader in H.
    destruct (io_error env (trace s) _); [discriminate|].
    destruct (OS.lookup (fs s) srcFile) as [[m data|]| |]; try discriminate.
    destruct (zip_reader env data); [|discriminate]. now injection H as _ <-. }
  destruct (OpenReader_reads _ _ _ _ _ H) as (m & data & Hl & Hz).
  apply (stays_forM _ _ _ O Q); [exact Hf | exact (Hread m data files Hl Hz)].
Qed.

(** The branch of [downloadPatchFile] for the archive of the maps: what is
    expanded is what the request brought. *)
Lemma archive_branch_within c entry s :
  P (CGet MapsArchive (maps_url c)) -> P (CCreate "maps.zip") ->
  P (CZipOpenReader "maps.zip") ->
  keeps_write F (Filepath.Clean "maps.zip") ->
  (forall f, fetched_at c env (trace s) f -> stays P F env (unpack_file "." f)) ->
  isMapsDownloaded s = false ->
  is_maps (Name entry) = true ->
  within P F s (snd (downloadPatchFile c entry env s)).
Proof.
  intros Hget Hcr Hor Hzip Hun Hflag Hmaps. unfold downloadPatchFile.
  rewrite (bind_ok _ _ env s (isMapsDownloaded s) s eq_refl), Hflag, Hmaps. cbn [negb andb].
  rewrite (bind_ok _ _ _ _ _ _ (logf_run _ _ env s)).
  apply (within_trans _ _ O _ (add_log {| lfmt := "Downloading maps.zip..."; largs := [] |} s));
    [now apply within_log|].
  set (s1 := add_log _ s).
  apply within_bind; [exact O | now apply stays_wrap, stays_Get|].
  intros resp s2 Hg. apply wrap_Ok, Get_Ok in Hg as [Hh ->].
  destruct (HTTP.StatusCode resp =? 200) eqn:Hcode; cbn [negb]; [|now apply within_refl].
  apply Z.eqb_eq in Hcode. rewrite Hcode in Hh. change (trace s1) with (trace s) in Hh.
  apply within_bind; [exact O | now apply stays_wrap, stays_Create|].
  intros [] s3 Hc. apply wrap_Ok, open_trunc_ok in Hc as (_ & _ & m3 & Hf3).
  apply within_bind; [exact O | now apply stays_wrap, stays_Copy|].
  intros [] s4 Hw. apply wrap_Ok in Hw. pose proof (Copy_ok _ _ _ _ _ _ _ Hw Hf3) as Hf4.
  apply within_bind; [exact O | |intros; now apply stays_maps].
  rewrite wrap_snd.
  apply (unpack_within (fetched_at c env (trace s))); [exact Hor | |exact Hun].
  intros m data files Hl Hz. apply lookup_file_key in Hl. rewrite Hf4 in Hl.
  injection Hl as _ <-. apply Forall_forall. intros f Hin.
  exists (HTTP.Body resp), files. split; [exact Hh|]. split; [exact Hz|].
  now apply list_elem_of_In.
Qed.

(** When the request is answered with status 200 it is in the trace,
    whatever comes after it. *)
Lemma archive_branch_trace c entry s body :
  http env (trace s) (maps_url c) = Some (200, body) ->
  isMapsDownloaded s = false ->
  is_maps (Name entry) = true ->
  exists t,
    trace (snd (downloadPatchFile c entry env s))
      = (trace s ++ CGet MapsArchive (maps_url c) :: t)%list.
Proof.
  intros Hh Hflag Hmaps. unfold downloadPatchFile.
  rewrite (bind_ok _ _ env s (isMapsDownloaded s) s eq_refl), Hflag, Hmaps. cbn [negb andb].
  rewrite (bind_ok _ _ _ _ _ _ (logf_run _ _ env s)).
  set (s1 := add_log _ s). change (trace s) with (trace s1) in *.
  rewrite (bind_ok _ _ _ _ _ _ (wrap_ok _ _ _ _ _ _ (Get_ok MapsArchive _ env s1 200 body Hh))).
  cbn [HTTP.StatusCode HTTP.Body negb Z.eqb Pos.eqb].
  match goal with |- context [snd (?m env ?st)] =>
    assert (H : stays (fun _ => True) (fun _ _ => True) env m) end.
  { pose proof any_order as A.
    apply stays_bind; [exact A | now apply stays_wrap, stays_Create|]. intros _.
    apply stays_bind; [exact A | now apply stays_wrap, stays_Copy|]. intros _.
    apply stays_bind; [exact A | |intros _; now apply stays_maps].
    intros st. rewrite wrap_snd. unfold unpack. destruct (negb _); [now apply within_refl|].
    apply within_bind; [exact A | now apply stays_wrap, stays_OpenReader|].
    intros files st1 _. apply (stays_forM _ _ _ A (fun _ => True)).
    - intros f _. unfold unpack_file. destruct (zIsDir f).
      + now apply stays_wrap, stays_MkdirAll.
      + repeat (apply stays_bind; [exact A | | intros _]); apply stays_wrap.
        * now apply stays_MkdirAll.
        * now apply stays_OpenFile.
        * now apply stays_ZipOpen.
        * now apply stays_Copy.
    - apply Forall_forall. trivial. }
  match goal with |- context [snd (?m env ?st)] =>
    destruct (H st) as [(t & Ht & _) _ _] end.
  exists t. rewrite Ht. cbn [trace record_call]. now rewrite <- app_assoc.
Qed.

End Unpack.

(** The second loop removes a node only after [os.Stat] found a regular
    file at the name of the entry. *)
Lemma delete_entry_stays (P : call -> Prop) (F : gmap string node -> gmap string node -> Prop)
    env entry :
  fs_order F ->
  (Strings.Contains (Name entry) ".." = false ->
   P (CStat (Name entry)) /\ P (CRemove (Name entry)) /\
   keeps_remove_file F (Filepath.Clean (Name entry))) ->
  stays P F env (delete_entry entry).
Proof.
  intros O HP. unfold delete_entry.
  destruct (Strings.Contains (Name entry) "..") eqn:Hname; [now apply stays_logf|].
  destruct (HP eq_refl) as (Hstat & Hrm & Hkeep).
  intros s. unfold mbind, M_bind, try, OS.Stat, syscall.
  destruct (io_error env (trace s) (CStat (Name entry))) as [notexist|]; cbn [fst snd].
  - assert (Hs : within P F s (record_call (CStat (Name entry)) s))
      by now apply within_record.
    cbn [IsNotExist]. now destruct notexist.
  - set (s1 := set_fs (fun _ => fs s) (record_call (CStat (Name entry)) s)).
    assert (Hs : forall r : result node,
      within P F s (set_fs (fun _ => snd (r, fs s)) (record_call (CStat (Name entry)) s))).
    { intros r. apply (within_call _ _ (CStat (Name entry)) (fun _ => fs s));
        [exact Hstat | apply (fo_refl _ O)]. }
    destruct (OS.lookup (fs s) (Name entry)) as [[m data|]| |] eqn:Hl;
      cbn [fst snd IsDir IsNotExist]; try exact (Hs (Ok Directory)).
    + eapply within_trans; [exact O | exact (Hs (Ok Directory))|]. fold s1.
      assert (Hr : within P F s1 (snd (OS.Remove (Name entry) env s1))).
      { unfold OS.Remove, syscall.
        destruct (io_error env (trace s1) (CRemove (Name entry))); cbn [snd].
        - now apply within_record.
        - change (fs s1) with (fs s). rewrite Hl. cbn [snd].
          apply (within_call _ _ (CRemove (Name entry)) (fun _ => delete _ (fs s)));
            [exact Hrm|].
          change (fs s1) with (fs s). eapply Hkeep. exact (lookup_file_key _ _ _ _ Hl). }
      destruct (OS.Remove (Name entry) env s1) as [[[]|err] s2]; cbn [snd] in *;
        (eapply within_trans; [exact O | exact Hr | now apply stays_logf]).
    + eapply within_trans; [exact O | exact (Hs (Ok Directory)) | now apply stays_logf].
Qed.

(** ** Steps between two traces *)

Section Between.

Variables t0 T : list call.
Variable P : call -> Prop.
Variable F : gmap string node -> gmap string node -> Prop.
Variable env : Env.
Context (O : fs_order F).

Lemma between_within s s' : within P F s s' -> between t0 T P F s s'.
Proof. intros H. split; [|intros _ _; exact H]. destruct H as [(t & Ht & _) _ _]. now exists t. Qed.

Lemma between_refl s : between t0 T P F s s.
Proof. now apply between_within, within_refl. Qed.

Lemma between_trans s1 s2 s3 :
  between t0 T P F s1 s2 -> between t0 T P F s2 s3 -> between t0 T P F s1 s3.
Proof.
  intros [(u1 & G1) B1] [(u2 & G2) B2]. split.
  - exists (u1 ++ u2)%list. now rewrite G2, G1, app_assoc.
  - intros (t1 & H0) (t2 & HT). eapply within_trans; [exact O | apply B1 | apply B2].
    + now exists t1.
    + exists (u2 ++ t2)%list. now rewrite HT, G2, app_assoc.
    + exists (t1 ++ u1)%list. now rewrite G1, H0, app_assoc.
    + now exists t2.
Qed.

Lemma sb_stays {A} (m : M A) : stays P F env m -> stays_between t0 T P F env m.
Proof. intros H s. apply between_within, H. Qed.

Lemma sb_bind {A B} (m : M A) (f : A -> M B) :
  stays_between t0 T P F env m -> (forall a, stays_between t0 T P F env (f a)) ->
  stays_between t0 T P F env (m ≫= f).
Proof.
  intros Hm Hf s. unfold mbind, M_bind. specialize (Hm s).
  destruct (m env s) as [[a|e] s1]; cbn [snd] in *.
  - eapply between_trans; [exact Hm | apply Hf].
  - exact Hm.
Qed.

Lemma sb_wrap {A} p (m : M A) :
  stays_between t0 T P F env m -> stays_between t0 T P F env (wrap p m).
Proof. intros Hm s. rewrite wrap_snd. apply Hm. Qed.

Lemma sb_foldM {A V} (Q : A -> Prop) (body : A -> V -> M V) (l : list A) (v : V) :
  (forall x v, Q x -> stays_between t0 T P F env (body x v)) -> Forall Q l ->
  stays_between t0 T P F env (foldM body l v).
Proof.
  intros H Hl. revert v. induction Hl as [|x l Hx _ IH]; intros v; simpl.
  - now apply sb_stays, stays_ret.
  - apply sb_bind; [now apply H | exact IH].
Qed.

End Between.

(** ** The reach of a pass *)

Section Pass.

Variable c : Client.
Variable env : Env.

Lemma pass_keeps_order : fs_order (pass_keeps c).
Proof. apply nodes_kept_order. Qed.

Lemma pass_keeps_mkdir ps : keeps_mkdir (pass_keeps c) ps.
Proof. apply nodes_kept_mkdir. Qed.

Lemma pass_keeps_write p : keeps_write (pass_keeps c) p.
Proof. apply nodes_kept_write. Qed.

Lemma stays_unpack srcFile :
  stays (pass_call c) (pass_keeps c) env (unpack srcFile ".").
Proof.
  pose proof pass_keeps_order as O. intros s.
  apply (unpack_within _ _ _ O (fun _ => True)); [exact I | |].
  - intros m data files _ _. apply Forall_forall. trivial.
  - intros f _. apply stays_unpack_file; try (intros; exact I); [exact O|].
    destruct (zIsDir f); [|split]; first [apply pass_keeps_mkdir | apply pass_keeps_write].
Qed.

Lemma stays_ensure_dir entry :
  stays (pass_call c) (pass_keeps c) env (ensure_dir entry).
Proof.
  pose proof pass_keeps_order as O.
  unfold ensure_dir. destruct (Strings.Contains _ "/"); [|now apply stays_ret].
  apply stays_wrap, stays_MkdirAll; [exact O | exact I | apply pass_keeps_mkdir].
Qed.

Lemma stays_downloadPatchFile entry :
  In entry (Downloads (cacheFileList c)) ->
  Strings.Contains (Name entry) ".." = false ->
  stays (pass_call c) (pass_keeps c) env (downloadPatchFile c entry).
Proof.
  pose proof pass_keeps_order as O. intros Hin Hname. unfold downloadPatchFile.
  assert (Hw : forall p, keeps_write (pass_keeps c) p) by apply pass_keeps_write.
  apply stays_bind; [exact O | now apply stays_gets|]. intros downloaded.
  destruct (negb downloaded && is_maps (Name entry)).
  - apply stays_bind; [exact O | now apply stays_logf|]. intros _.
    apply stays_bind; [exact O | apply stays_wrap, stays_Get; [exact O | reflexivity]|].
    intros resp. destruct (negb _); [now apply stays_throw|].
    apply stays_bind; [exact O | now apply stays_wrap, stays_Create|]. intros _.
    apply stays_bind; [exact O | now apply stays_wrap, stays_Copy|]. intros _.
    apply stays_bind; [exact O | apply stays_wrap, stays_unpack|]. intros _.
    now apply stays_maps.
  - apply stays_bind; [exact O | now apply stays_logf|]. intros _.
    apply stays_bind; [exact O | now apply stays_wrap, stays_Create|]. intros _.
    apply stays_bind; [exact O | |].
    + apply stays_wrap, stays_Get; [exact O|]. exists entry. now repeat split.
    + intros resp. destruct (negb _); [now apply stays_throw|].
      now apply stays_wrap, stays_Copy.
Qed.

Lemma stays_download_entry entry v :
  In entry (Downloads (cacheFileList c)) ->
  stays (pass_call c) (pass_keeps c) env (download_entry c entry v).
Proof.
  pose proof pass_keeps_order as O. intros Hin. unfold download_entry.
  destruct (Strings.Contains (Name entry) "..") eqn:Hname.
  - apply stays_bind; [exact O | now apply stays_logf | intros _; now apply stays_ret].
  - assert (Hd : stays (pass_call c) (pass_keeps c) env
                   (wrap "download new file" (downloadPatchFile c entry) ;;
                    modify (set_isPatched true) ;; mret (downloaded entry v))).
    { apply stays_bind; [exact O | now apply stays_wrap, stays_downloadPatchFile|]. intros _.
      apply stays_bind; [exact O | now apply stays_patched | intros _; now apply stays_ret]. }
    apply stays_bind; [exact O | apply stays_ensure_dir|]. intros _.
    apply stays_bind; [exact O | now apply stays_try, stays_Stat|]. intros [fi|err].
    + apply stays_bind; [exact O | now apply stays_wrap, stays_md5Checksum|]. intros hash.
      destruct (String.eqb hash (Md5 entry)); [|exact Hd].
      destruct (is_maps (Name entry)); [destruct (isMapsSkippedBefore v)|];
        try (now apply stays_ret);
        (apply stays_bind; [exact O | now apply stays_logf | intros _; now apply stays_ret]).
    + destruct (IsNotExist err); [exact Hd | now apply stays_throw].
Qed.

Lemma stays_delete_entry entry :
  In entry (Deletes (cacheFileList c)) ->
  stays (pass_call c) (pass_keeps c) env (delete_entry entry).
Proof.
  intros Hin. apply delete_entry_stays; [apply pass_keeps_order|]. intros Hname.
  split; [exact Hname|]. split; [split; [exact Hname | now exists entry]|].
  apply nodes_kept_remove_file. now exists entry.
Qed.

Lemma Forall_In_self {A} (l : list A) : Forall (fun x => In x l) l.
Proof. apply Forall_forall. intros x Hx. now apply list_elem_of_In. Qed.

(** The three ways a pass ends: at once when the recorded version is the
    one of the manifest, with the error of one of the loops, or with the
    version recorded after both loops. *)
Lemma patch_cases s :
  let fl := cacheFileList c in
  let r := patch c env s in
  (FileListVersion s = Version fl /\ fst r = Ok tt /\
   within (pass_call c) (pass_keeps c) s (snd r)) \/
  (FileListVersion s <> Version fl /\
   ((exists e, fst r = Err e /\ within (pass_call c) (pass_keeps c) s (snd r)) \/
    (exists s1, within (pass_call c) (pass_keeps c) s s1 /\
       fst r = Ok tt /\
       trace (snd r) = (trace s1 ++ [CSave (Version fl)])%list /\
       fs (snd r) = fs s1 /\
       FileListVersion (snd r) = Version fl /\
       persisted (snd r) =
         match io_error env (trace s1) (CSave (Version fl)) with
         | None => Some (Version fl)
         | Some _ => persisted s
         end))).
Proof.
  pose proof pass_keeps_order as O.
  intros fl r. subst r. unfold patch. fold fl.
  rewrite (bind_ok _ _ env s (FileListVersion s) s eq_refl).
  destruct (String.eqb (FileListVersion s) (Version fl)) eqn:Hv.
  - apply String.eqb_eq in Hv. left. split; [exact Hv|].
    destruct (_ <? _)%nat; (split; [reflexivity | now apply stays_logf]).
  - apply String.eqb_neq in Hv. right. split; [exact Hv|].
    rewrite (bind_ok _ _ _ _ _ _ (total_line_run _ env s)).
    assert (Hline : within (pass_call c) (pass_keeps c) s (add_log (total_line fl) s))
      by now apply within_log.
    set (s0 := add_log (total_line fl) s) in *.
    assert (Hd : within (pass_call c) (pass_keeps c) s0
              (snd (foldM (download_entry c) (Downloads fl) initVars env s0))).
    { apply (stays_foldM _ _ _ O (fun x => In x (Downloads fl))); [|apply Forall_In_self].
      intros x v. apply stays_download_entry. }
    destruct (foldM (download_entry c) (Downloads fl) initVars env s0) as [[v|e] s1] eqn:Hloop;
      cbn [snd] in Hd.
    2:{ rewrite (bind_err _ _ _ _ _ _ Hloop).
        left. exists e. split; [reflexivity|]. eapply within_trans; eassumption. }
    rewrite (bind_ok _ _ _ _ _ _ Hloop).
    assert (Hx : within (pass_call c) (pass_keeps c) s1
              (snd (forM_ (Deletes fl) delete_entry env s1))).
    { apply (stays_forM _ _ _ O (fun x => In x (Deletes fl))); [|apply Forall_In_self].
      intros x. apply stays_delete_entry. }
    destruct (forM_ (Deletes fl) delete_entry env s1) as [[[]|e] s2] eqn:Hdel; cbn [snd] in Hx.
    2:{ rewrite (bind_err _ _ _ _ _ _ Hdel).
        left. exists e. split; [reflexivity|].
        eapply within_trans; [exact O | |exact Hx]. eapply within_trans; eassumption. }
    rewrite (bind_ok _ _ _ _ _ _ Hdel).
    right. exists s2. split.
    { eapply within_trans; [exact O | |exact Hx]. eapply within_trans; eassumption. }
    assert (Hp : persisted s2 = persisted s).
    { destruct Hline as [_ _ [_ H0]], Hd as [_ _ [_ H1]], Hx as [_ _ [_ H2]]. congruence. }
    unfold mbind, M_bind, try, modify, Config.Save. cbn [fst snd trace FileListVersion
      set_FileListVersion record_call].
    destruct (io_error env (trace s2) (CSave (Version fl))) as [notexist|];
      cbn [fst snd]; destruct (totalDownloaded v =? 0); cbn [fst snd];
      repeat split; try reflexivity; exact Hp.
Qed.

(** Every call of a pass is one of [pass_call], or the save of the version
    of the manifest. *)
Lemma patch_calls s :
  exists t,
    trace (snd (patch c env s)) = (trace s ++ t)%list /\
    Forall (fun k => pass_call c k \/ k = CSave (Version (cacheFileList c))) t.
Proof.
  destruct (patch_cases s) as [(_ & _ & [(t & Ht & Hall) _ _])|(_ & [H|H])].
  - exists t. split; [exact Ht|]. eapply Forall_weaken; [|exact Hall]. now left.
  - destruct H as (e & _ & [(t & Ht & Hall) _ _]).
    exists t. split; [exact Ht|]. eapply Forall_weaken; [|exact Hall]. now left.
  - destruct H as (s1 & [(t & Ht & Hall) _ _] & _ & Htr & _).
    exists (t ++ [CSave (Version (cacheFileList c))])%list. split.
    + now rewrite Htr, Ht, app_assoc.
    + apply Forall_app. split.
      * eapply Forall_weaken; [|exact Hall]. now left.
      * constructor; [now right | constructor].
Qed.

Lemma patch_keeps s : pass_keeps c (fs s) (fs (snd (patch c env s))).
Proof.
  destruct (patch_cases s) as [(_ & _ & [_ Hn _])|(_ & [H|H])]; [exact Hn| |].
  - destruct H as (e & _ & [_ Hn _]). exact Hn.
  - destruct H as (s1 & [_ Hn _] & _ & _ & -> & _). exact Hn.
Qed.

End Pass.

(** ** The files that a pass leaves alone *)

Section Files.

Variable c : Client.
Variable env : Env.
Variables t0 T : list call.

Lemma files_write p :
  touched c env t0 T p -> keeps_write (files_kept (touched c env t0 T)) p.
Proof. apply files_kept_write. Qed.

Lemma sb_downloadPatchFile entry :
  In entry (Downloads (cacheFileList c)) ->
  Strings.Contains (Name entry) ".." = false ->
  stays_between t0 T (fun _ => True) (files_kept (touched c env t0 T)) env
    (downloadPatchFile c entry).
Proof.
  pose proof (files_kept_order (touched c env t0 T)) as O. intros Hin Hname s.
  assert (Hzip : keeps_write (files_kept (touched c env t0 T)) (Filepath.Clean "maps.zip"))
    by (apply files_write; now left).
  destruct (negb (isMapsDownloaded s) && is_maps (Name entry)) eqn:Hb.
  - apply andb_true_iff in Hb as [Hflag Hmaps]. apply negb_true_iff in Hflag. split.
    + assert (Hg : within (fun _ => True) (fun _ _ => True) s
                     (snd (downloadPatchFile c entry env s))).
      { apply archive_branch_within; try assumption; try exact any_order;
          try (now intros).
        intros f _. apply stays_unpack_file; try exact any_order; try (now intros).
        now destruct (zIsDir f). }
      destruct Hg as [(t & Ht & _) _ _]. now exists t.
    + intros (t1 & H0) (t2 & HT).
      apply archive_branch_within; try assumption; try (now intros).
      intros f Hf. apply stays_unpack_file; try assumption; try (now intros).
      destruct (zIsDir f) eqn:Hd; [apply files_kept_mkdir|].
      split; [apply files_kept_mkdir|]. apply files_write. right. right.
      exists f. split; [|now split].
      destruct Hf as (body & files & Hh & Hz & Hf).
      destruct (archive_branch_trace env c entry s body Hh Hflag Hmaps) as (t & Ht).
      exists t1, (t ++ t2)%list. split.
      * rewrite HT, Ht, H0. now rewrite <- !app_assoc.
      * rewrite <- H0. now exists body, files.
  - apply between_within. unfold downloadPatchFile.
    rewrite (bind_ok _ _ env s (isMapsDownloaded s) s eq_refl), Hb.
    assert (Hfile : keeps_write (files_kept (touched c env t0 T))
                      (Filepath.Clean (Name entry))).
    { apply files_write. right. left. exists entry. split; [now left | now split]. }
    match goal with |- within _ _ _ (snd (?m env s)) =>
      assert (Hbody : stays (fun _ => True) (files_kept (touched c env t0 T)) env m) end;
      [|exact (Hbody s)].
    apply stays_bind; [exact O | now apply stays_logf|]. intros _.
    apply stays_bind; [exact O | now apply stays_wrap, stays_Create|]. intros _.
    apply stays_bind; [exact O | now apply stays_wrap, stays_Get|].
    intros resp. destruct (negb (HTTP.StatusCode resp =? 200)); [now apply stays_throw|].
    now apply stays_wrap, stays_Copy.
Qed.

Lemma sb_download_entry entry v :
  In entry (Downloads (cacheFileList c)) ->
  stays_between t0 T (fun _ => True) (files_kept (touched c env t0 T)) env
    (download_entry c entry v).
Proof.
  pose proof (files_kept_order (touched c env t0 T)) as O. intros Hin.
  unfold download_entry.
  destruct (Strings.Contains (Name entry) "..") eqn:Hname.
  { apply sb_stays.
    apply stays_bind; [exact O | now apply stays_logf | intros _; now apply stays_ret]. }
  assert (Hd : stays_between t0 T (fun _ => True) (files_kept (touched c env t0 T)) env
                 (wrap "download new file" (downloadPatchFile c entry) ;;
                  modify (set_isPatched true) ;; mret (downloaded entry v))).
  { apply sb_bind; [exact O | now apply sb_wrap, sb_downloadPatchFile|]. intros _.
    apply sb_stays.
    apply stays_bind; [exact O | now apply stays_patched | intros _; now apply stays_ret]. }
  apply sb_bind; [exact O | |intros _].
  { apply sb_stays. unfold ensure_dir. destruct (Strings.Contains _ "/"); [|now apply stays_ret].
    apply stays_wrap, stays_MkdirAll; [exact O | exact I | apply files_kept_mkdir]. }
  apply sb_bind; [exact O | now apply sb_stays, stays_try, stays_Stat|]. intros [fi|err].
  - apply sb_bind; [exact O | now apply sb_stays, stays_wrap, stays_md5Checksum|].
    intros hash. destruct (String.eqb hash (Md5 entry)); [|exact Hd].
    apply sb_stays.
    destruct (is_maps (Name entry)); [destruct (isMapsSkippedBefore v)|];
      try (now apply stays_ret);
      (apply stays_bind; [exact O | now apply stays_logf | intros _; now apply stays_ret]).
  - destruct (IsNotExist err); [exact Hd | now apply sb_stays, stays_throw].
Qed.

Lemma patch_end_run v s :
  fs (snd (patch_end c v env s)) = fs s /\
  trace (snd (patch_end c v env s))
    = (trace s ++ [CSave (Version (cacheFileList c))])%list.
Proof.
  unfold patch_end, mbind, M_bind, try, modify, Config.Save.
  cbn [fst snd trace FileListVersion set_FileListVersion record_call].
  destruct (io_error env (trace s) (CSave (Version (cacheFileList c))));
    cbn [fst snd]; destruct (totalDownloaded v =? 0); cbn [fst snd]; now split.
Qed.

(** A pass that starts after the calls [t0] and whose calls [T] begins
    with keeps the files that are not [touched]. *)
Lemma files_patch s :
  (exists t1, trace s = (t0 ++ t1)%list) ->
  (exists t2, T = (trace (snd (patch c env s)) ++ t2)%list) ->
  files_kept (touched c env t0 T) (fs s) (fs (snd (patch c env s))).
Proof.
  pose proof (files_kept_order (touched c env t0 T)) as O. intros H0 (t2 & HT).
  destruct (String.eqb (FileListVersion s) (Version (cacheFileList c))) eqn:Hv.
  { unfold patch. rewrite (bind_ok _ _ env s (FileListVersion s) s eq_refl), Hv.
    destruct (_ <? _)%nat; apply (fo_refl _ O). }
  apply String.eqb_neq in Hv.
  set (s0 := add_log (total_line (cacheFileList c)) s).
  assert (Hd : between t0 T (fun _ => True) (files_kept (touched c env t0 T)) s0
                 (snd (foldM (download_entry c) (Downloads (cacheFileList c)) initVars
                         env s0))).
  { apply (sb_foldM _ _ _ _ _ O (fun x => In x (Downloads (cacheFileList c))));
      [|apply Forall_In_self].
    intros x v. apply sb_download_entry. }
  destruct Hd as [_ Hd]. specialize (Hd H0).
  destruct (foldM (download_entry c) (Downloads (cacheFileList c)) initVars env s0)
    as [[v|e] s1] eqn:Hloop; cbn [snd] in Hd.
  2:{ rewrite (patch_aborts _ _ _ _ _ Hv Hloop) in *. cbn [snd] in *.
      destruct Hd as [_ Hd _]; [now exists t2 | exact Hd]. }
  rewrite (patch_deletes _ _ _ _ _ Hv Hloop) in *.
  assert (Hx : within (fun _ => True) (files_kept (touched c env t0 T)) s1
                 (snd (forM_ (Deletes (cacheFileList c)) delete_entry env s1))).
  { apply (stays_forM _ _ _ O (fun x => In x (Deletes (cacheFileList c))));
      [|apply Forall_In_self].
    intros x Hx. apply delete_entry_stays; [exact O|]. intros Hname.
    split; [exact I|]. split; [exact I|]. apply files_kept_remove_file.
    right. left. exists x. split; [now right | now split]. }
  destruct (forM_ (Deletes (cacheFileList c)) delete_entry env s1) as [[[]|e] s2] eqn:Hdel;
    cbn [snd] in Hx; destruct Hx as [(u & Hu & _) Hx _].
  - rewrite (bind_ok _ _ _ _ _ _ Hdel) in *.
    destruct (patch_end_run v s2) as [Hf Ht]. rewrite Hf. rewrite Ht in HT.
    destruct Hd as [_ Hd _].
    + exists (u ++ [CSave (Version (cacheFileList c))] ++ t2)%list.
      rewrite HT, Hu. now rewrite <- !app_assoc.
    + eapply (fo_trans _ O); [exact Hd | exact Hx].
  - rewrite (bind_err _ _ _ _ _ _ Hdel) in *. cbn [snd] in *.
    destruct Hd as [_ Hd _].
    + exists (u ++ t2)%list. rewrite HT, Hu. now rewrite <- !app_assoc.
    + eapply (fo_trans _ O); [exact Hd | exact Hx].
Qed.

End Files.

(** ** The reach of the update of the executable *)

(** The steps of [selfupdate.Apply] are calls of the system: they do not
    reach the version record. *)
Lemma replace_version body env s :
  FileListVersion (snd (Selfupdate.replace body env s)) = FileListVersion s /\
  persisted (snd (Selfupdate.replace body env s)) = persisted s.
Proof.
  pose proof any_order as O.
  assert (H : stays (fun _ => True) (fun _ _ => True) env (Selfupdate.replace body)).
  { unfold Selfupdate.replace.
    apply stays_bind; [exact O | now apply stays_Executable|]. intros target.
    apply stays_bind; [exact O | now apply stays_OpenFile|]. intros _.
    apply stays_bind; [exact O | now apply stays_Copy|]. intros _.
    apply stays_bind; [exact O | now apply stays_try, stays_Remove|]. intros _.
    apply stays_bind; [exact O | now apply stays_Rename|]. intros _.
    apply stays_bind; [exact O | now apply stays_try, stays_Rename|]. intros [[]|err].
    - apply stays_bind; [exact O | now apply stays_try, stays_Remove|]. intros _.
      now apply stays_ret.
    - apply stays_bind; [exact O | now apply stays_try, stays_Rename|]. intros _.
      now apply stays_throw. }
  exact (w_version _ _ _ _ (H s)).
Qed.

Lemma stays_Apply (P : call -> Prop) env body :
  P CApply -> stays P (fun _ _ => True) env (Selfupdate.Apply body).
Proof.
  intros Hc s. unfold Selfupdate.Apply.
  pose proof (replace_version body env (record_call CApply s)) as Hv.
  destruct (Selfupdate.replace body env (record_call CApply s)) as [r s1].
  cbn [snd] in *. split; [|exact I | exact Hv].
  exists [CApply]. split; [reflexivity | now constructor].
Qed.

Section Self.

Variable c : Client.
Variable env : Env.

Lemma Executable_Ok s a s' : OS.Executable env s = (Ok a, s') -> a = executable env.
Proof.
  unfold OS.Executable. destruct (io_error env (trace s) CExecutable); [discriminate|].
  now intros [= <- _].
Qed.

Lemma Get_Url why url s resp s' : HTTP.Get why url env s = (Ok resp, s') -> HTTP.Url resp = url.
Proof.
  unfold HTTP.Get. destruct (http env (trace s) url) as [[code body]|]; [|discriminate].
  now intros [= <- _].
Qed.

Lemma selfUpdate_hashes_stays :
  stays (self_call c env) (same_off (self_paths c)) env (selfUpdate_hashes c).
Proof.
  pose proof (same_off_order (self_paths c)) as O. unfold selfUpdate_hashes.
  apply (stays_bind_post _ _ _ O (fun a => a = executable env)).
  { intros s a s' H. apply wrap_Ok in H. exact (Executable_Ok _ _ _ H). }
  { apply stays_wrap, stays_Executable; [exact O | exact I]. }
  intros exeName ->.
  apply stays_bind; [exact O | |intros r].
  { apply stays_try, stays_Remove; [exact O | now left|].
    apply same_off_change. now left. }
  apply stays_bind; [exact O | |intros _].
  { destruct r as [[]|err]; [now apply stays_logf|].
    destruct (negb _); [now apply stays_logf | now apply stays_ret]. }
  apply stays_bind; [exact O | |intros r'].
  { apply stays_try, stays_Remove; [exact O | now right|].
    apply same_off_change. now right. }
  apply stays_bind; [exact O | |intros _].
  { destruct r' as [[]|err]; [now apply stays_logf|].
    destruct (negb _); [now apply stays_logf | now apply stays_ret]. }
  apply stays_bind; [exact O | now apply stays_wrap, stays_md5Checksum|]. intros myHash.
  apply stays_bind; [exact O | now apply stays_logf|]. intros _.
  apply (stays_bind_post _ _ _ O (fun resp => HTTP.Url resp = hash_url c)).
  { intros s a s' H. apply wrap_Ok in H. exact (Get_Url _ _ _ _ _ H). }
  { apply stays_wrap, stays_Get; [exact O | reflexivity]. }
  intros resp Hurl. destruct (negb _); [now apply stays_throw|].
  apply stays_bind; [exact O | |intros data; now apply stays_ret].
  apply stays_wrap, stays_HTTP_ReadAll; [exact O|]. exact Hurl.
Qed.

Lemma selfUpdate_decide_stays myHash data :
  stays (self_call c env) (fun _ _ => True) env (selfUpdate_decide c myHash data).
Proof.
  pose proof any_order as O. unfold selfUpdate_decide.
  destruct (String.eqb _ "Not Found"); [now apply stays_logf|].
  destruct (String.eqb _ _); [now apply stays_logf|].
  apply stays_bind; [exact O | now apply stays_logf|]. intros _.
  apply stays_bind; [exact O | now apply stays_logf|]. intros _.
  apply stays_bind; [exact O | apply stays_wrap, stays_Get; [exact O | reflexivity]|].
  intros resp. destruct (negb _); [now apply stays_throw|].
  apply stays_bind; [exact O | now apply stays_logf|]. intros _.
  apply stays_wrap, stays_Apply. exact I.
Qed.


Lemma selfUpdate_stays :
  stays (self_call c env) (fun _ _ => True) env (selfUpdate c).
Proof.
  pose proof any_order as O. unfold selfUpdate.
  apply stays_bind; [exact O | |].
  - intros s. apply (within_weaken _ (same_off (self_paths c))); [trivial|].
    apply selfUpdate_hashes_stays.
  - intros [myHash data]. apply selfUpdate_decide_stays.
Qed.

End Self.

(** * Further properties

    ** The reach of a pass *)

(** X1. Whatever the manifest and the environment, no path that a pass
    hands to [os.Stat], to [os.Open] and the read that follows, to
    [os.Create] or to [os.Remove] has [..] in it. *)
Theorem pass_paths_have_no_dotdot (c : Client) (env : Env) (s : State) :
  exists t,
    trace (snd (patch c env s)) = (trace s ++ t)%list /\
    Forall (fun k => forall p, loop_path k = Some p -> Strings.Contains p ".." = false) t.
Proof.
  destruct (patch_calls c env s) as (t & Ht & Hall). exists t. split; [exact Ht|].
  eapply Forall_weaken; [|exact Hall].
  intros k [Hk| ->] p Hp; [|discriminate].
  destruct k; try discriminate; injection Hp as <-; try exact Hk. exact (proj1 Hk).
Qed.

(** X2. A pass requests nothing but the archive of the maps, at
    [patcherUrl/maps.zip], and files of Download Entries of the manifest
    whose names are free of [..], each at the URL made of the download
    prefix, the client version and the name; and it never applies an
    update of the executable. *)
Theorem pass_requests_from_manifest (c : Client) (env : Env) (s : State) :
  exists t,
    trace (snd (patch c env s)) = (trace s ++ t)%list /\
    Forall (fun k =>
      k <> CApply /\
      forall why url, k = CGet why url ->
        (why = MapsArchive /\ url = maps_url c) \/
        (why = PatchFile /\
         exists entry, In entry (Downloads (cacheFileList c)) /\
           Strings.Contains (Name entry) ".." = false /\
           url = file_url c entry)) t.
Proof.
  destruct (patch_calls c env s) as (t & Ht & Hall). exists t. split; [exact Ht|].
  eapply Forall_weaken; [|exact Hall].
  intros k [Hk| ->]; [|split; [discriminate | intros ? ? [=]]].
  split; [intros ->; exact Hk|]. intros why url ->.
  destruct why; cbn in Hk; try contradiction; [left | right]; now split.
Qed.

(** X3. A pass removes nothing but what the manifest lists for deletion:
    every call of [os.Remove] is for the name of a Delete Entry. *)
Theorem pass_removes_only_listed (c : Client) (env : Env) (s : State) :
  exists t,
    trace (snd (patch c env s)) = (trace s ++ t)%list /\
    Forall (fun k => forall p, k = CRemove p ->
      exists entry, In entry (Deletes (cacheFileList c)) /\ Name entry = p) t.
Proof.
  destruct (patch_calls c env s) as (t & Ht & Hall). exists t. split; [exact Ht|].
  eapply Forall_weaken; [|exact Hall].
  intros k [Hk| ->] p Hp; [|discriminate]. subst k. exact (proj2 Hk).
Qed.

(** X4. What is on disk before a pass is on disk after it, a directory as
    a directory, except for regular files at the cleaned name of a Delete
    Entry that is free of [..]: a pass removes no directory and no file
    that the manifest does not list for deletion, also when it stops with
    an error and also when it expands the archive of the maps. *)
Theorem pass_keeps_other_nodes (c : Client) (env : Env) (s : State)
    (k : string) (n : node) :
  fs s !! k = Some n ->
  n = Directory \/ ~ to_delete c k ->
  exists n', fs (snd (patch c env s)) !! k = Some n' /\ (n = Directory -> n' = Directory).
Proof.
  intros Hk Hkeep.
  pose proof (patch_keeps c env s) as Hn.
  destruct (Hn k n Hk) as [H|[HD Hfile]]; [exact H|].
  destruct Hkeep as [->|Hno]; [now contradiction Hfile | now contradiction Hno].
Qed.

Lemma pass_keeps_other_nodes_witness :
  let s' := snd (patch Scenario.sync_client Scenario.sync_env Scenario.sync_start) in
  (exists n', fs s' !! "old" = Some n' /\ (Directory = Directory -> n' = Directory)) /\
  fs s' !! "old/bar.dat" = None.
Proof.
  split; [|vm_compute; reflexivity].
  apply (pass_keeps_other_nodes Scenario.sync_client Scenario.sync_env Scenario.sync_start
           "old" Directory); [vm_compute; reflexivity | left; reflexivity].
Defined.

(** X5. A pass that returns an error has not touched the version record:
    the version in memory and the saved one are as before, and no save was
    attempted. So the error of a pass is never that of the save. *)
Theorem failed_pass_keeps_version (c : Client) (env : Env) (s s' : State) (e : error) :
  patch c env s = (Err e, s') ->
  FileListVersion s' = FileListVersion s /\
  persisted s' = persisted s /\
  exists t, trace s' = (trace s ++ t)%list /\ Forall (fun k => forall v, k <> CSave v) t.
Proof.
  intros Hrun.
  assert (Hw : within (pass_call c) (pass_keeps c) s s').
  { destruct (patch_cases c env s) as [(_ & Hok & _)|(_ & [H|H])];
      rewrite Hrun in *; cbn [fst snd] in *; [discriminate| |].
    - destruct H as (e' & _ & Hw). exact Hw.
    - destruct H as (s1 & _ & Hok & _). discriminate. }
  destruct Hw as [(t & Ht & Hall) _ [Hv Hp]]. repeat split; try assumption.
  exists t. split; [exact Ht|]. eapply Forall_weaken; [|exact Hall].
  intros k Hk v ->. exact Hk.
Qed.

Lemma failed_pass_keeps_version_witness :
  exists e s',
    patch Scenario.stale_client Scenario.stale_env Scenario.maps_start = (Err e, s') /\
    FileListVersion s' = "20231201" /\ persisted s' = None /\
    fs s' !! "readme.txt" = Some (File 420 []).
Proof.
  destruct (patch Scenario.stale_client Scenario.stale_env Scenario.maps_start)
    as [[[]|e] s'] eqn:Hrun; [vm_compute in Hrun; discriminate|].
  exists e, s'. split; [reflexivity|].
  destruct (failed_pass_keeps_version _ _ _ _ _ Hrun) as (Hv & Hp & _).
  split; [exact Hv|]. split; [exact Hp|].
  change s' with (snd (Err (A := unit) e, s')). rewrite <- Hrun. vm_compute. reflexivity.
Defined.

(** X6. A pass that returns without error leaves the version of the
    manifest as the recorded one. When the two differed at the start, the
    last call of the pass is the save of that version, it is the only save,
    and what is saved afterwards is either that version or, when the save
    failed, what was saved before. *)
Theorem finished_pass_records_version (c : Client) (env : Env) (s s' : State) :
  patch c env s = (Ok tt, s') ->
  FileListVersion s' = Version (cacheFileList c) /\
  (FileListVersion s <> Version (cacheFileList c) ->
   (exists t,
      trace s' = (trace s ++ t ++ [CSave (Version (cacheFileList c))])%list /\
      Forall (fun k => forall v, k <> CSave v) t) /\
   (persisted s' = Some (Version (cacheFileList c)) \/ persisted s' = persisted s)).
Proof.
  intros Hrun.
  destruct (patch_cases c env s) as [(Hv & _ & [_ _ [Hv' _]])|(Hv & [H|H])];
    rewrite Hrun in *; cbn [fst snd] in *.
  - split; [congruence | now intros H].
  - destruct H as (e & Herr & _). discriminate.
  - destruct H as (s1 & [(t & Ht & Hall) _ _] & _ & Htr & _ & Hver & Hp).
    split; [exact Hver|]. intros _. split.
    + exists t. split; [now rewrite Htr, Ht, app_assoc|].
      eapply Forall_weaken; [|exact Hall]. intros k Hk v ->. exact Hk.
    + rewrite Hp. destruct (io_error _ _ _); [now right | now left].
Qed.

Lemma finished_pass_records_version_witness :
  exists s',
    patch Scenario.sync_client Scenario.sync_env Scenario.sync_start = (Ok tt, s') /\
    FileListVersion s' = "abc12345".
Proof.
  destruct (patch Scenario.sync_client Scenario.sync_env Scenario.sync_start)
    as [[[]|e] s'] eqn:Hrun; [|vm_compute in Hrun; discriminate].
  exists s'. split; [reflexivity|].
  exact (proj1 (finished_pass_records_version _ _ _ _ Hrun)).
Defined.

(** X7. A regular file that is on disk before a pass has its mode and its
    content after it, unless its path is [maps.zip], the cleaned name of an
    entry of the manifest that is free of [..], or the place of a file of
    the archive that the pass fetched: an entry that is not a directory,
    found by the reader in the body of an answer with status 200 to a
    request for [maps.zip] that the pass made. *)
Theorem pass_leaves_other_files (c : Client) (env : Env) (s : State)
    (k : string) (m : Z) (data : list byte) :
  fs s !! k = Some (File m data) ->
  ~ touched c env (trace s) (trace (snd (patch c env s))) k ->
  fs (snd (patch c env s)) !! k = Some (File m data).
Proof.
  intros Hk Hno.
  destruct (files_patch c env (trace s) (trace (snd (patch c env s))) s) with k m data
    as [H|H].
  - exists []. now rewrite app_nil_r.
  - exists []. now rewrite app_nil_r.
  - exact Hk.
  - now contradiction Hno.
  - exact H.
Qed.

Lemma pass_leaves_other_files_witness :
  fs (snd (patch Scenario.bulk_client Scenario.bulk_env Scenario.bulk_keep))
    !! "readme.txt" = Some (File 420 (Scenario.text "abc")) /\
  fs (snd (patch Scenario.bulk_client Scenario.bulk_env Scenario.bulk_keep))
    !! "maps/a.txt" = Some (File 420 (Scenario.text "a")) /\
  In (CGet MapsArchive "http://patch.example/maps.zip")
    (trace (snd (patch Scenario.bulk_client Scenario.bulk_env Scenario.bulk_keep))).
Proof.
  split; [|split; [vm_compute; reflexivity | vm_compute; tauto]].
  apply pass_leaves_other_files; [vm_compute; reflexivity|].
  intros [H|[(e & Hin & _ & Hc)|(f & (t1 & t2 & _ & body & files & _ & Hz & Hin) & Hd & Hc)]].
  - discriminate.
  - simpl in Hin. destruct Hin as [[<-|[<-|[]]]|[]]; vm_compute in Hc; discriminate.
  - simpl in Hz. injection Hz as <-.
    destruct Hin as [<-|[<-|[]]]; [discriminate Hd | vm_compute in Hc; discriminate].
Defined.

(** ** The reach of the update of the executable *)


(** ** Checksums *)

Lemma download_tail c entry v env s v' s' :
  (wrap "download new file" (downloadPatchFile c entry) ;;
   modify (set_isPatched true) ;; mret (downloaded entry v)) env s = (Ok v', s') ->
  v' = downloaded entry v /\ isPatched s' = true.
Proof.
  unfold mbind, M_bind.
  destruct (wrap "download new file" (downloadPatchFile c entry) env s) as [[[]|e] s1];
    [|discriminate].
  cbn. intros [= <- <-]. now split.
Qed.

(** X9. A checksum that [md5Checksum] returns is the MD5 of the content of
    the regular file found at the path, written as 32 hexadecimal digits
    in lower case; and computing it changes nothing on disk. *)
Theorem checksum_is_lower_hex (path : string) (env : Env) (s s' : State) (h : string) :
  md5Checksum path env s = (Ok h, s') ->
  is_checksum h = true /\
  fs s' = fs s /\
  exists m data, OS.lookup (fs s) path = OS.Found (File m data) /\ h = MD5.hexsum data.
Proof.
  intros H. apply md5Checksum_Ok in H as (m & data & Hl & -> & Hfs).
  split; [apply hexsum_is_checksum|]. split; [exact Hfs|]. now exists m, data.
Qed.

Lemma checksum_is_lower_hex_witness :
  exists h s',
    md5Checksum "readme.txt" Scenario.readme_env Scenario.readme_start = (Ok h, s') /\
    is_checksum h = true /\ h = "900150983cd24fb0d6963f7d28e17f72".
Proof.
  destruct (md5Checksum "readme.txt" Scenario.readme_env Scenario.readme_start)
    as [[h|e] s'] eqn:Hrun; [|vm_compute in Hrun; discriminate].
  exists h, s'. split; [reflexivity|].
  split; [exact (proj1 (checksum_is_lower_hex _ _ _ _ _ Hrun))|].
  vm_compute in Hrun. now injection Hrun as <- _.
Defined.

(** X10. A Download Entry whose [Md5] is not 32 hexadecimal digits in
    lower case is never found up to date: every iteration of the download
    loop on it that goes on without an error, and that does not skip the
    entry for a [..] in its name, has downloaded again, counted the size of
    the entry as downloaded and marked the client as patched. *)
Theorem malformed_hash_always_downloads (c : Client) (entry : FileEntry) (v v' : loopVars)
    (env : Env) (s s' : State) :
  is_checksum (Md5 entry) = false ->
  Strings.Contains (Name entry) ".." = false ->
  download_entry c entry v env s = (Ok v', s') ->
  v' = downloaded entry v /\ isPatched s' = true.
Proof.
  intros Hbad Hname. unfold download_entry. rewrite Hname.
  unfold mbind at 1, M_bind at 1.
  destruct (ensure_dir entry env s) as [[[]|e0] s0]; [|discriminate].
  unfold mbind at 1, M_bind at 1, try at 1.
  destruct (OS.Stat (Name entry) env s0) as [[fi|err] s1].
  - unfold mbind at 1, M_bind at 1.
    destruct (wrap "md5checksum" (md5Checksum (Name entry)) env s1) as [[hash|e2] s2] eqn:Hh;
      [|discriminate].
    apply wrap_Ok, md5Checksum_Ok in Hh as (m & data & _ & -> & _).
    destruct (String.eqb (MD5.hexsum data) (Md5 entry)) eqn:Heq.
    + apply String.eqb_eq in Heq. rewrite <- Heq, hexsum_is_checksum in Hbad. discriminate.
    + apply download_tail.
  - destruct (IsNotExist err); [apply download_tail | discriminate].
Qed.

Lemma malformed_hash_always_downloads_witness :
  exists v' s',
    download_entry Scenario.readme_client Scenario.readme_upper initVars
      Scenario.readme_env Scenario.readme_start = (Ok v', s') /\
    totalDownloaded v' = 3 /\ isPatched s' = true.
Proof.
  destruct (download_entry Scenario.readme_client Scenario.readme_upper initVars
              Scenario.readme_env Scenario.readme_start) as [[v'|e] s'] eqn:Hrun;
    [|vm_compute in Hrun; discriminate].
  exists v', s'. split; [reflexivity|].
  destruct (malformed_hash_always_downloads Scenario.readme_client Scenario.readme_upper
              initVars v' Scenario.readme_env Scenario.readme_start s'
              eq_refl eq_refl Hrun) as [-> Hp].
  split; [reflexivity | exact Hp].
Defined.

(** ** One download *)

Lemma open_trunc_fs c path mode env s s' :
  OS.open_trunc c path mode env s = (Ok tt, s') ->
  trace s' = (trace s ++ [c])%list /\
  fs s' = <[Filepath.Clean path :=
              File (match fs s !! Filepath.Clean path with
                    | Some (File m _) => m
                    | _ => Z.ldiff mode (umask env)
                    end) []]> (fs s).
Proof.
  unfold OS.open_trunc, syscall.
  destruct (io_error env (trace s) c); [discriminate|].
  destruct (String.eqb path ""); [discriminate|].
  destruct (OS.wants_dir path || OS.blocked (fs s) (Filepath.Clean path)); [discriminate|].
  destruct (OS.node_at (fs s) (Filepath.Dir (Filepath.Clean path))) as [[m0 d0|]|];
    try discriminate.
  unfold OS.node_at.
  destruct (Filepath.implicit_dir (Filepath.Clean path)); [discriminate|].
  destruct (fs s !! Filepath.Clean path) as [[m1 d1|]|]; try discriminate;
    intros [= <-]; now split.
Qed.

Lemma Copy_Ok path data env s s' :
  OS.Copy path data env s = (Ok tt, s') ->
  s' = set_fs (OS.set_data path data) (record_call (CWrite path) s).
Proof.
  unfold OS.Copy. destruct (io_error env (trace s) (CWrite path)); [discriminate|].
  now intros [= <-].
Qed.

(** X11. When [downloadPatchFile] takes an entry for itself (its name is
    not under [maps/], or the archive was fetched already) and returns
    without error, it has made three calls, to create the file, to request
    it and to write it; the request was answered with status 200; and the
    filesystem differs from the one before in that the cleaned name of the
    entry holds the body of the answer, with the mode of the file that was
    there or, when there was none, with the bits of [0666] that the mask
    of the process leaves: [0644] under the usual mask [022]. *)
Theorem download_stores_answer (c : Client) (entry : FileEntry) (env : Env) (s s' : State) :
  negb (isMapsDownloaded s) && is_maps (Name entry) = false ->
  downloadPatchFile c entry env s = (Ok tt, s') ->
  exists body,
    http env (trace s ++ [CCreate (Name entry)])%list (file_url c entry) = Some (200, body) /\
    fs s' = <[Filepath.Clean (Name entry) :=
                File (match fs s !! Filepath.Clean (Name entry) with
                      | Some (File m _) => m
                      | _ => Z.ldiff 438 (umask env)
                      end) body]> (fs s) /\
    trace s' = (trace s ++ [CCreate (Name entry); CGet PatchFile (file_url c entry);
                            CWrite (Name entry)])%list.
Proof.
  intros Hown. unfold downloadPatchFile.
  rewrite (bind_ok _ _ env s (isMapsDownloaded s) s eq_refl), Hown.
  rewrite (bind_ok _ _ _ _ _ _ (logf_run _ _ env s)).
  set (s0 := add_log _ s). unfold mbind at 1, M_bind at 1.
  destruct (wrap _ (OS.Create (Name entry)) env s0) as [[[]|e1] s1] eqn:Hc; [|discriminate].
  apply wrap_Ok, open_trunc_fs in Hc as [Ht1 Hf1].
  unfold mbind at 1, M_bind at 1.
  destruct (wrap _ (HTTP.Get PatchFile (file_url c entry)) env s1) as [[resp|e2] s2] eqn:Hg;
    [|discriminate].
  apply wrap_Ok, Get_Ok in Hg as [Hh ->].
  destruct (HTTP.StatusCode resp =? 200) eqn:Hcode; [|discriminate]. cbn [negb].
  apply Z.eqb_eq in Hcode. intros Hw. apply wrap_Ok, Copy_Ok in Hw as ->.
  exists (HTTP.Body resp). rewrite Ht1, Hcode in Hh. split; [exact Hh|].
  cbn [fs trace set_fs record_call]. rewrite Ht1, Hf1. split.
  - unfold OS.set_data. rewrite lookup_insert_eq. apply insert_insert_eq.
  - change (trace s0) with (trace s). now rewrite <- !app_assoc.
Qed.

Lemma download_stores_answer_witness :
  (exists s',
     downloadPatchFile Scenario.readme_client Scenario.readme_upper
       Scenario.readme_env Scenario.readme_start = (Ok tt, s') /\
     fs Scenario.readme_start = {[ "readme.txt" := File 420 (Scenario.text "abc") ]} /\
     fs s' = {[ "readme.txt" := File 420 (Scenario.text "abc") ]}) /\
  (exists s',
     downloadPatchFile Scenario.readme_client Scenario.readme_upper
       Scenario.readme_env (Scenario.fresh ∅ "20231201") = (Ok tt, s') /\
     umask Scenario.readme_env = 18 /\
     fs s' = {[ "readme.txt" := File 420 (Scenario.text "abc") ]}).
Proof.
  split.
  - destruct (downloadPatchFile Scenario.readme_client Scenario.readme_upper
                Scenario.readme_env Scenario.readme_start) as [[[]|e] s'] eqn:Hrun;
      [|vm_compute in Hrun; discriminate].
    exists s'. split; [reflexivity|]. split; [reflexivity|].
    destruct (download_stores_answer Scenario.readme_client Scenario.readme_upper
                Scenario.readme_env Scenario.readme_start s' eq_refl Hrun)
      as (body & Hh & Hf & _).
    vm_compute in Hh. injection Hh as <-. rewrite Hf. vm_compute. reflexivity.
  - destruct (downloadPatchFile Scenario.readme_client Scenario.readme_upper
                Scenario.readme_env (Scenario.fresh ∅ "20231201")) as [[[]|e] s'] eqn:Hrun;
      [|vm_compute in Hrun; discriminate].
    exists s'. split; [reflexivity|]. split; [reflexivity|].
    destruct (download_stores_answer Scenario.readme_client Scenario.readme_upper
                Scenario.readme_env (Scenario.fresh ∅ "20231201") s' eq_refl Hrun)
      as (body & Hh & Hf & _).
    vm_compute in Hh. injection Hh as <-. rewrite Hf. vm_compute. reflexivity.
Defined.

(** ** The archive of the maps *)

Lemma same_off_write (D : string -> Prop) p : D p -> keeps_write (same_off D) p.
Proof.
  intros HD f m data _ k Hk. destruct (decide (p = k)) as [->|Hne]; [now contradiction Hk|].
  now rewrite lookup_insert_ne.
Qed.

(** X12. When the archive of the maps was not fetched yet and
    [downloadPatchFile] is called for an entry under [maps/], the file of
    the entry is neither created nor requested by that call: the only
    request is for the archive, the only file created by name is
    [maps.zip], and the filesystem changes at no path other than that of
    [maps.zip] and, for the files that the reader finds in the body of the
    answer with status 200 to that request, their places and those of the
    directories made for them. An entry that this archive does not hold
    is as it was when the call returns. *)
Theorem archive_branch_reach (c : Client) (entry : FileEntry) (env : Env) (s : State) :
  isMapsDownloaded s = false ->
  is_maps (Name entry) = true ->
  let s' := snd (downloadPatchFile c entry env s) in
  (exists t, trace s' = (trace s ++ t)%list /\ Forall (archive_call c) t) /\
  (forall k, ~ expanded c env (trace s) k -> fs s' !! k = fs s !! k).
Proof.
  intros Hflag Hmaps.
  assert (Hw : within (archive_call c) (same_off (expanded c env (trace s))) s
                 (snd (downloadPatchFile c entry env s))).
  { pose proof (same_off_order (expanded c env (trace s))) as O.
    apply archive_branch_within; try assumption; try reflexivity; try (now intros).
    - apply same_off_write. now left.
    - intros f Hf. apply stays_unpack_file; try assumption; try (now intros).
      destruct (zIsDir f) eqn:Hd.
      + apply same_off_mkdir. intros p Hp. right. exists f. split; [exact Hf|].
        now rewrite Hd.
      + split.
        * apply same_off_mkdir. intros p Hp. right. exists f. split; [exact Hf|].
          rewrite Hd. now left.
        * apply same_off_write. right. exists f. split; [exact Hf|]. rewrite Hd. now right. }
  destruct Hw as [Ht Hf _]. now split.
Qed.

Lemma archive_branch_reach_witness :
  let entry := Scenario.entry "maps/b.txt" "900150983cd24fb0d6963f7d28e17f72" 3 in
  let r := downloadPatchFile Scenario.bulk_client entry Scenario.bulk_env Scenario.bulk_start in
  fst r = Ok tt /\ fs (snd r) !! "maps/b.txt" = None /\
  fs (snd r) !! "maps/a.txt" = Some (File 420 (Scenario.text "a")).
Proof.
  intros entry r. split; [vm_compute; reflexivity|]. split; [|vm_compute; reflexivity].
  apply (proj2 (archive_branch_reach Scenario.bulk_client entry Scenario.bulk_env
                  Scenario.bulk_start eq_refl eq_refl) "maps/b.txt").
  intros [H|(f & (body & files & _ & Hz & Hin) & H)]; [vm_compute in H; discriminate|].
  simpl in Hz. injection Hz as <-.
  destruct Hin as [<-|[<-|[]]]; vm_compute in H; intuition discriminate.
Defined.

(** ** Expanding an archive *)

Lemma forM_app_Ok {A} (body : A -> M unit) l1 l2 env s s' :
  forM_ (l1 ++ l2) body env s = (Ok tt, s') ->
  exists s1, forM_ l1 body env s = (Ok tt, s1) /\ forM_ l2 body env s1 = (Ok tt, s').
Proof.
  revert s. induction l1 as [|x l1 IH]; intros s; simpl.
  - intros H. now exists s.
  - unfold mbind, M_bind. destruct (body x env s) as [[[]|e] s0]; [|discriminate].
    apply IH.
Qed.

(** An entry that goes elsewhere leaves the file at [k] as it is. *)
Lemma unpack_file_elsewhere dstDir f k env :
  zIsDir f = true \/ destination dstDir f <> k ->
  stays (fun _ => True) (files_kept (fun k' => k' <> k)) env (unpack_file dstDir f).
Proof.
  pose proof (files_kept_order (fun k' => k' <> k)) as O. intros Hf. unfold unpack_file.
  destruct (zIsDir f).
  - apply stays_wrap, stays_MkdirAll; [exact O | exact I | apply files_kept_mkdir].
  - destruct Hf as [Hf|Hf]; [discriminate|].
    assert (Hw : keeps_write (files_kept (fun k' => k' <> k))
                   (Filepath.Clean (Filepath.Join dstDir (zName f))))
      by now apply files_kept_write.
    repeat (apply stays_bind; [exact O | | intros _]); apply stays_wrap.
    + apply stays_MkdirAll; [exact O | exact I | apply files_kept_mkdir].
    + now apply stays_OpenFile.
    + now apply stays_ZipOpen.
    + now apply stays_Copy.
Qed.

Lemma unpack_files_last dstDir env l1 f l2 s s' :
  forM_ (l1 ++ f :: l2) (unpack_file dstDir) env s = (Ok tt, s') ->
  zIsDir f = false ->
  Forall (fun f' => zIsDir f' = true \/ destination dstDir f' <> destination dstDir f) l2 ->
  exists m, fs s' !! destination dstDir f = Some (File m (zData f)).
Proof.
  intros Hrun Hd Hl2. apply forM_app_Ok in Hrun as (s1 & _ & Hrun). simpl in Hrun.
  unfold mbind, M_bind in Hrun.
  destruct (unpack_file dstDir f env s1) as [[[]|e] s2] eqn:Hf; [|discriminate].
  apply unpack_file_writes in Hf as (m & Hm); [|exact Hd]. exists m.
  pose proof (files_kept_order (fun k' => k' <> destination dstDir f)) as O.
  assert (Hk : within (fun _ => True) (files_kept (fun k' => k' <> destination dstDir f)) s2
                 (snd (forM_ l2 (unpack_file dstDir) env s2))).
  { apply (stays_forM _ _ _ O _ _ _ (fun f' Hf' => unpack_file_elsewhere _ _ _ _ Hf') Hl2). }
  rewrite Hrun in Hk. destruct Hk as [_ Hk _].
  destruct (Hk _ _ _ Hm) as [Hne|H]; [now contradiction Hne | exact H].
Qed.

(** X13. When [unpack] returns without error, the source was a regular
    file that the reader took for an archive, and every entry of that
    archive that is not a directory is on disk, at the destination
    directory joined with its name, with its content, unless an entry
    after it was written to the same path: of the entries that go to one
    path, the last one is the one that stays. *)
Theorem unpack_last_entry_stays (srcFile dstDir : string) (env : Env) (s s' : State) :
  unpack srcFile dstDir env s = (Ok tt, s') ->
  exists m data files,
    OS.lookup (fs s) srcFile = OS.Found (File m data) /\
    zip_reader env data = Some files /\
    forall l1 f l2,
      files = (l1 ++ f :: l2)%list ->
      zIsDir f = false ->
      Forall (fun f' => zIsDir f' = true \/ destination dstDir f' <> destination dstDir f) l2 ->
      exists m', fs s' !! destination dstDir f = Some (File m' (zData f)).
Proof.
  unfold unpack. destruct (negb _); [discriminate|].
  unfold mbind, M_bind, wrap, Zip.OpenReader.
  destruct (io_error env (trace s) (CZipOpenReader srcFile)); [discriminate|].
  destruct (OS.lookup (fs s) srcFile) as [[m data|]| |]; try discriminate.
  destruct (zip_reader env data) as [files|] eqn:Hz; [|discriminate].
  intros Hrun. exists m, data, files. split; [reflexivity|]. split; [exact Hz|].
  intros l1 f l2 -> Hd Hl2. exact (unpack_files_last _ _ _ _ _ _ _ Hrun Hd Hl2).
Qed.

Lemma unpack_last_entry_stays_witness :
  let start := Scenario.fresh {[ "maps.zip" := File 420 (Scenario.text "PK") ]} "" in
  exists s',
    unpack "maps.zip" "." Scenario.bulk_env start = (Ok tt, s') /\
    exists m, fs s' !! "maps/a.txt" = Some (File m (Scenario.text "a")).
Proof.
  intros start.
  destruct (unpack "maps.zip" "." Scenario.bulk_env start) as [[[]|e] s'] eqn:Hrun;
    [|vm_compute in Hrun; discriminate].
  exists s'. split; [reflexivity|].
  destruct (unpack_last_entry_stays _ _ _ _ _ Hrun) as (m & data & files & _ & Hz & Hall).
  simpl in Hz. injection Hz as <-.
  exact (Hall [{| zName := "maps/"; zIsDir := true; zMode := 493; zData := [] |}]
           {| zName := "maps/a.txt"; zIsDir := false; zMode := 420;
              zData := Scenario.text "a" |} [] eq_refl eq_refl (List.Forall_nil _)).
Defined.

(** ** The manifest *)

Lemma fetchFileList_state decode c env s :
  let s' := snd (fetchFileList decode c env s) in
  fs s' = fs s /\ trace s' = trace s /\
  FileListVersion s' = FileListVersion s /\ persisted s' = persisted s.
Proof.
  unfold fetchFileList. cbn [trace add_log].
  destruct (http env (trace s) (list_url c)) as [[code body]|].
  - destruct (negb (code =? 200)); [now repeat split|].
    destruct (decode body); now repeat split.
  - destruct (http env (trace s) (legacy_url c)) as [[code body]|]; [|now repeat split].
    destruct (negb (code =? 200)); [now repeat split|].
    destruct (decode body); now repeat split.
Qed.

(** X14. [fetchFileList] asks for the manifest at [filelist_<version>.yml]
    under [patcherUrl], and at the legacy place only when that first
    request did not connect: an answer, whatever its status, ends the
    requests. Fetching changes neither the disk nor the version record,
    and of the client only [cacheFileList]. *)
Theorem manifest_fallback_on_transport_error (decode : list byte -> result FileList)
    (c : Client) (env : Env) (s : State) :
  let f := fst (fetchFileList decode c env s) in
  let s' := snd (fetchFileList decode c env s) in
  ((asked f = [list_url c] /\ http env (trace s) (list_url c) <> None) \/
   (asked f = [list_url c; legacy_url c] /\ http env (trace s) (list_url c) = None)) /\
  (fs s' = fs s /\ trace s' = trace s /\
   FileListVersion s' = FileListVersion s /\ persisted s' = persisted s) /\
  (baseName (client_after f) = baseName c /\ patcherUrl (client_after f) = patcherUrl c /\
   clientVersion (client_after f) = clientVersion c).
Proof.
  intros f s'. split; [|split; [apply fetchFileList_state|]]; subst f s';
    unfold fetchFileList; cbn [trace add_log];
    destruct (http env (trace s) (list_url c)) as [[code body]|].
  - left. destruct (negb (code =? 200)); [now split|]. destruct (decode body); now split.
  - right. destruct (http env (trace s) (legacy_url c)) as [[code body]|]; [|now split].
    destruct (negb (code =? 200)); [now split|]. destruct (decode body); now split.
  - destruct (negb (code =? 200)); [now repeat split|]. destruct (decode body); now repeat split.
  - destruct (http env (trace s) (legacy_url c)) as [[code body]|]; [|now repeat split].
    destruct (negb (code =? 200)); [now repeat split|]. destruct (decode body); now repeat split.
Qed.

(** X15. When the first request does not connect and the legacy place
    answers with a status other than 200, the error that [fetchFileList]
    returns names the first URL, not the one that answered, and the cached
    manifest is replaced by an empty one. *)
Theorem legacy_status_error_names_first_url (decode : list byte -> result FileList)
    (c : Client) (env : Env) (s : State) (code : Z) (body : list byte) :
  http env (trace s) (list_url c) = None ->
  http env (trace s) (legacy_url c) = Some (code, body) ->
  code <> 200 ->
  let f := fst (fetchFileList decode c env s) in
  asked f = [list_url c; legacy_url c] /\
  fetch_error f = Some (EStatus (list_url c) code) /\
  cacheFileList (client_after f) = no_list.
Proof.
  intros H1 H2 Hcode. unfold fetchFileList. cbn [trace add_log]. rewrite H1, H2.
  apply Z.eqb_neq in Hcode. rewrite Hcode. now repeat split.
Qed.

Lemma legacy_status_error_names_first_url_witness :
  let env := Scenario.quiet [("http://patch.example/rof/filelist_rof.yml", (404, []))] [] in
  let f := fst (fetchFileList (fun _ => Err (EMsg "yaml")) Scenario.readme_client env
                  Scenario.readme_start) in
  fetch_error f = Some (EStatus "http://patch.example/filelist_rof.yml" 404) /\
  cacheFileList (client_after f) = no_list.
Proof.
  intros env f.
  exact (proj2 (legacy_status_error_names_first_url (fun _ => Err (EMsg "yaml"))
                  Scenario.readme_client env Scenario.readme_start 404 []
                  eq_refl eq_refl ltac:(discriminate))).
Defined.

(** X16. After [fetchFileList], the cached manifest is the decoded body of
    an answer with status 200 when no error is returned; it is empty when
    the error is that of a status other than 200; and it is the one from
    before for every other error. *)
Theorem manifest_after_fetch (decode : list byte -> result FileList)
    (c : Client) (env : Env) (s : State) :
  let f := fst (fetchFileList decode c env s) in
  match fetch_error f with
  | None =>
      exists url body,
        List.last (asked f) "" = url /\ http env (trace s) url = Some (200, body) /\
        decode body = Ok (cacheFileList (client_after f))
  | Some (EStatus url code) =>
      code <> 200 /\ url = list_url c /\ cacheFileList (client_after f) = no_list
  | Some _ => client_after f = c
  end.
Proof.
  unfold fetchFileList. cbn [trace add_log].
  destruct (http env (trace s) (list_url c)) as [[code body]|] eqn:H1.
  - destruct (code =? 200) eqn:Hc; cbn [negb fst fetch_error client_after asked].
    + apply Z.eqb_eq in Hc. subst code.
      destruct (decode body) as [fl|err] eqn:Hd; cbn [fst fetch_error client_after asked];
        [|reflexivity].
      exists (list_url c), body. now repeat split.
    + apply Z.eqb_neq in Hc. now repeat split.
  - destruct (http env (trace s) (legacy_url c)) as [[code body]|] eqn:H2;
      [|reflexivity].
    destruct (code =? 200) eqn:Hc; cbn [negb fst fetch_error client_after asked].
    + apply Z.eqb_eq in Hc. subst code.
      destruct (decode body) as [fl|err] eqn:Hd; cbn [fst fetch_error client_after asked];
        [|reflexivity].
      exists (legacy_url c), body. now repeat split.
    + apply Z.eqb_neq in Hc. now repeat split.
Qed.

(** ** The run *)

(** X17. When the manifest cannot be fetched, [selfUpdateAndPatch] returns
    no error and does nothing else: no pass, no update of the executable,
    no change on disk or to the version record. *)
Theorem fetch_failure_is_swallowed (decode : list byte -> result FileList)
    (text : error -> string) (c : Client) (env : Env) (s : State) (err : error) :
  fetch_error (fst (fetchFileList decode c env s)) = Some err ->
  let r := selfUpdateAndPatch decode text c env s in
  fst (fst r) = Returned None /\
  fs (snd r) = fs s /\ trace (snd r) = trace s /\
  FileListVersion (snd r) = FileListVersion s /\ persisted (snd r) = persisted s.
Proof.
  intros Hf r. subst r. unfold selfUpdateAndPatch.
  pose proof (fetchFileList_state decode c env s) as Hs.
  destruct (fetchFileList decode c env s) as [f s1]. cbn [fst snd] in *.
  rewrite Hf. cbn [fst snd]. split; [reflexivity | exact Hs].
Qed.

Lemma fetch_failure_is_swallowed_witness :
  let r := selfUpdateAndPatch (fun _ => Err (EMsg "yaml")) (fun _ => "")
             Scenario.readme_client (Scenario.quiet [] []) Scenario.readme_start in
  fst (fst r) = Returned None /\ fs (snd r) = Scenario.readme_disk.
Proof.
  intros r.
  destruct (fetch_failure_is_swallowed (fun _ => Err (EMsg "yaml")) (fun _ => "")
              Scenario.readme_client (Scenario.quiet [] []) Scenario.readme_start
              _ eq_refl) as (H1 & H2 & _).
  split; [exact H1 | exact H2].
Defined.

(** X18. An error that [selfUpdateAndPatch] returns is that of the pass,
    wrapped as [patch: ...]; the update of the executable was then not
    attempted, as every call made is one of a pass, and the version record
    is as it was. *)
Theorem run_error_is_from_patch (decode : list byte -> result FileList)
    (text : error -> string) (c : Client) (env : Env) (s : State) (e : error) :
  fst (fst (selfUpdateAndPatch decode text c env s)) = Returned (Some e) ->
  let c' := snd (fst (selfUpdateAndPatch decode text c env s)) in
  let s' := snd (selfUpdateAndPatch decode text c env s) in
  (exists e', e = EWrap "patch" e') /\
  (exists t, trace s' = (trace s ++ t)%list /\ Forall (pass_call c') t) /\
  FileListVersion s' = FileListVersion s /\ persisted s' = persisted s.
Proof.
  unfold selfUpdateAndPatch.
  pose proof (fetchFileList_state decode c env s) as (_ & Ht & Hv & Hp).
  destruct (fetchFileList decode c env s) as [f s1]. cbn [fst snd] in *.
  destruct (fetch_error f); [discriminate|].
  pose proof (patch_cases (client_after f) env s1) as Hcases.
  destruct (patch (client_after f) env s1) as [[[]|e1] s2]; cbn [fst snd] in *.
  - destruct (selfUpdate (client_after f) env s2) as [[[]|e2] s3]; [discriminate|].
    destruct (Strings.Contains _ _); discriminate.
  - intros [= <-]. split; [now exists e1|].
    destruct Hcases as [(_ & Hok & _)|(_ & [(e' & _ & Hw)|(s0 & _ & Hok & _)])];
      try discriminate.
    destruct Hw as [(t & Htr & Hall) _ [Hv' Hp']]. split; [|split; congruence].
    exists t. split; [congruence | exact Hall].
Qed.

Lemma run_error_is_from_patch_witness :
  let r := selfUpdateAndPatch (fun _ => Ok (cacheFileList Scenario.stale_client))
             (fun _ => "") Scenario.stale_client
             (Scenario.quiet [("http://patch.example/filelist_rof.yml", (200, []));
                              ("http://files.example/rof/readme.txt", (404, []))] [])
             Scenario.maps_start in
  (exists e, fst (fst r) = Returned (Some (EWrap "patch" e))) /\
  FileListVersion (snd r) = "20231201".
Proof.
  intros r.
  destruct (fst (fst r)) as [[e|]|code] eqn:Hr; try (vm_compute in Hr; discriminate).
  destruct (run_error_is_from_patch _ _ _ _ _ _ Hr) as ((e' & ->) & _ & Hv & _).
  split; [now exists e' | exact Hv].
Defined.

(** X19. When the manifest was fetched and [selfUpdateAndPatch] does not
    return an error, the pass has finished and the recorded version is the
    one of the fetched manifest, whether the update of the executable
    went through, failed or ended the program. *)
Theorem run_records_version (decode : list byte -> result FileList)
    (text : error -> string) (c : Client) (env : Env) (s : State) :
  fetch_error (fst (fetchFileList decode c env s)) = None ->
  (forall e, fst (fst (selfUpdateAndPatch decode text c env s)) <> Returned (Some e)) ->
  FileListVersion (snd (selfUpdateAndPatch decode text c env s)) =
    Version (cacheFileList (client_after (fst (fetchFileList decode c env s)))).
Proof.
  unfold selfUpdateAndPatch.
  destruct (fetchFileList decode c env s) as [f s1]. cbn [fst snd].
  intros ->. 
  pose proof (patch_cases (client_after f) env s1) as Hcases.
  destruct (patch (client_after f) env s1) as [[[]|e1] s2]; cbn [fst snd] in *.
  - assert (Hv : FileListVersion s2 = Version (cacheFileList (client_after f))).
    { destruct Hcases as [(Hv & _ & [_ _ [Hv' _]])|(_ & [(e' & Herr & _)|(s0 & _ & _ & _ & _ & Hv & _)])];
        [congruence | discriminate | exact Hv]. }
    pose proof (selfUpdate_stays (client_after f) env s2) as [_ _ [Hv' _]].
    intros _. destruct (selfUpdate (client_after f) env s2) as [[[]|e2] s3];
      cbn [fst snd] in *; [congruence|].
    destruct (Strings.Contains _ _); cbn [snd FileListVersion add_log]; congruence.
  - intros H. now contradiction (H (EWrap "patch" e1)).
Qed.

Lemma run_records_version_witness :
  let r := selfUpdateAndPatch (fun _ => Ok (cacheFileList Scenario.sync_client))
             (fun _ => "") Scenario.sync_client
             (Scenario.quiet [("http://patch.example/filelist_rof.yml", (200, []));
                              ("http://files.example/rof/data/foo.dat",
                               (200, Scenario.text "hello"))] [])
             Scenario.sync_start in
  fst (fst r) = Returned None /\ FileListVersion (snd r) = "abc12345".
Proof.
  intros r. split; [vm_compute; reflexivity|].
  apply (run_records_version (fun _ => Ok (cacheFileList Scenario.sync_client))
           (fun _ => "") Scenario.sync_client); [reflexivity|].
  intros e H. vm_compute in H. discriminate.
Defined.

(** ** The login name *)

Lemma fetchUsername_run env s :
  fetchUsername env s =
    match io_error env (trace s) (COpen user_file) with
    | Some notexist => (Err (ESys (COpen user_file) notexist), record_call (COpen user_file) s)
    | None =>
        match OS.lookup (fs s) user_file with
        | OS.Found n =>
            let s1 := record_call (COpen user_file) s in
            let data := match n with File _ data => data | Directory => [] end in
            (Ok (first_username (scan_lines (string_of_bytes
                   match io_error env (trace s1) (CRead user_file) with
                   | Some _ => firstn (short env (trace s1)) data
                   | None => data
                   end))),
             record_call (CRead user_file) s1)
        | OS.Missing =>
            (Err (ESys (COpen user_file) true), record_call (COpen user_file) s)
        | OS.NotDir =>
            (Err (ESys (COpen user_file) false), record_call (COpen user_file) s)
        end
    end.
Proof.
  unfold fetchUsername, mbind, M_bind, OS.Open, syscall, scanned.
  destruct (io_error env (trace s) (COpen user_file)); [reflexivity|].
  destruct (OS.lookup (fs s) user_file) as [n| |] eqn:Hl; try reflexivity.
  cbn [fst snd fs trace set_fs record_call]. rewrite Hl.
  destruct (io_error env _ (CRead user_file)); destruct n; reflexivity.
Qed.

(** X20. [fetchUsername] opens and reads [eqlsPlayerData.ini] and does
    nothing else: the disk, the log and the version record stay as they
    are. It returns an error only when the file cannot be opened; when
    the read fails it returns a name and no error. *)
Theorem username_lookup_is_harmless (env : Env) (s : State) :
  let r := fetchUsername env s in
  (fs (snd r) = fs s /\ cacheLog (snd r) = cacheLog s /\
   FileListVersion (snd r) = FileListVersion s /\ persisted (snd r) = persisted s) /\
  ((exists notexist,
      fst r = Err (ESys (COpen user_file) notexist) /\
      trace (snd r) = (trace s ++ [COpen user_file])%list) \/
   (exists name,
      fst r = Ok name /\
      trace (snd r) = (trace s ++ [COpen user_file; CRead user_file])%list)).
Proof.
  intros r. subst r. rewrite fetchUsername_run.
  destruct (io_error env (trace s) (COpen user_file)) as [b|].
  - split; [now repeat split|]. left. now exists b.
  - destruct (OS.lookup (fs s) user_file) as [n| |].
    + split; [now repeat split|]. right. eexists. split; [reflexivity|].
      cbn [snd trace record_call]. now rewrite <- app_assoc.
    + split; [now repeat split|]. left. now exists true.
    + split; [now repeat split|]. left. now exists false.
Qed.

Lemma raw_lines_no_lf s : Forall (fun l => has_lf l = false) (raw_lines s).
Proof.
  induction s as [|a s IH]; simpl; [constructor|].
  destruct (Ascii.eqb a LF) eqn:Ha; [now constructor|].
  destruct (raw_lines s) as [|l ls]; [repeat constructor; simpl; now rewrite Ha|].
  inversion IH as [|? ? Hl Hls]; subst. constructor; [|exact Hls]. simpl. now rewrite Ha.
Qed.

Lemma dropCR_keeps l :
  (has_lf l = false -> has_lf (dropCR l) = false) /\
  (String.length (dropCR l) <= String.length l)%nat.
Proof.
  induction l as [|a l [IH1 IH2]]; [now split|]. simpl.
  destruct l as [|b l].
  - destruct (Ascii.eqb a CR); simpl; split; auto.
  - split.
    + intros H. apply orb_false_elim in H as [Ha H]. cbn [has_lf].
      now rewrite Ha, (IH1 H).
    + cbn [String.length]. cbn [String.length] in IH2. lia.
Qed.

Lemma after_keeps n s :
  (has_lf s = false -> has_lf (after n s) = false) /\
  (String.length (after n s) <= String.length s)%nat.
Proof.
  revert s. induction n as [|n IH]; intros s; [now split|].
  destruct s as [|a s]; [now split|]. simpl. destruct (IH s) as [IH1 IH2]. split.
  - intros H. apply orb_false_elim in H as [_ H]. now apply IH1.
  - lia.
Qed.

Lemma first_username_one_line ls :
  Forall (fun l => has_lf l = false) ls ->
  has_lf (first_username (scan_tokens ls)) = false /\
  Z.of_nat (String.length (first_username (scan_tokens ls))) < MaxScanTokenSize.
Proof.
  induction 1 as [|l ls Hl _ IH]; [now split|]. cbn [scan_tokens].
  destruct (Z.of_nat (String.length l) <? MaxScanTokenSize) eqn:Hlen; [|now split].
  apply Z.ltb_lt in Hlen. cbn [first_username].
  destruct (Strings.HasPrefix (dropCR l) "Username="); [|exact IH].
  unfold TrimPrefix. destruct (Strings.HasPrefix (dropCR l) "Username=").
  - destruct (after_keeps (String.length "Username=") (dropCR l)) as [H1 H2].
    destruct (dropCR_keeps l) as [H3 H4]. split; [auto | lia].
  - destruct (dropCR_keeps l) as [H3 H4]. split; [auto | lia].
Qed.

(** X21. A name that [fetchUsername] returns is a single line: it has no
    line feed in it and is shorter than the buffer of the scanner, whatever
    the file holds. *)
Theorem username_is_one_line (env : Env) (s s' : State) (name : string) :
  fetchUsername env s = (Ok name, s') ->
  has_lf name = false /\ Z.of_nat (String.length name) < MaxScanTokenSize.
Proof.
  rewrite fetchUsername_run.
  destruct (io_error env (trace s) (COpen user_file)); [discriminate|].
  destruct (OS.lookup (fs s) user_file) as [n| |]; try discriminate.
  cbv zeta. intros [= <- _]. apply first_username_one_line, raw_lines_no_lf.
Qed.

Lemma username_is_one_line_witness :
  let disk : gmap string node :=
    {[ user_file := File 420 (MD5.bytes_of_string
         ("[Player]" +:+ String CR (String LF ("Username=bob" +:+ String CR (String LF ""))))) ]} in
  exists s',
    fetchUsername (Scenario.quiet [] []) (Scenario.fresh disk "") = (Ok "bob", s') /\
    has_lf "bob" = false.
Proof.
  intros disk.
  destruct (fetchUsername (Scenario.quiet [] []) (Scenario.fresh disk "")) as [[name|e] s']
    eqn:Hrun; [|vm_compute in Hrun; discriminate].
  exists s'. pose proof (proj1 (username_is_one_line _ _ _ _ Hrun)) as Hlf.
  vm_compute in Hrun. injection Hrun as <- <-. split; [reflexivity | exact Hlf].
Defined.

Lemma append_assoc' (a b c : string) : (a +:+ b) +:+ c = a +:+ (b +:+ c).
Proof.
  induction a as [|x a IH]; [reflexivity|].
  change (String x ((a +:+ b) +:+ c) = String x (a +:+ (b +:+ c))). now f_equal.
Qed.

Lemma append_length' (a b : string) :
  String.length (a +:+ b) = (String.length a + String.length b)%nat.
Proof.
  induction a as [|x a IH]; [reflexivity|].
  change (S (String.length (a +:+ b)) = S (String.length a + String.length b)). now f_equal.
Qed.

Lemma raw_lines_line l rest :
  has_lf l = false -> raw_lines (l +:+ String LF rest) = l :: raw_lines rest.
Proof.
  induction l as [|a l IH]; intros H; [reflexivity|].
  change (String a l +:+ String LF rest) with (String a (l +:+ String LF rest)).
  simpl in *. apply orb_false_elim in H as [Ha H]. now rewrite Ha, (IH H).
Qed.

Lemma raw_lines_last l : has_lf l = false -> l <> "" -> raw_lines l = [l].
Proof.
  induction l as [|a l IH]; intros H Hne; [now contradiction Hne|]. simpl in *.
  apply orb_false_elim in H as [Ha H]. rewrite Ha.
  destruct l as [|b l]; [reflexivity|]. now rewrite (IH H).
Qed.

Lemma raw_lines_unlines pre rest :
  Forall (fun l => has_lf l = false) pre ->
  raw_lines (unlines pre +:+ rest) = (pre ++ raw_lines rest)%list.
Proof.
  induction 1 as [|l pre Hl _ IH]; [reflexivity|].
  change (unlines (l :: pre)) with (l +:+ String LF (unlines pre)).
  rewrite append_assoc'.
  change (String LF (unlines pre) +:+ rest) with (String LF (unlines pre +:+ rest)).
  rewrite (raw_lines_line _ _ Hl), IH. reflexivity.
Qed.

Lemma dropCR_prefix l p : Strings.HasPrefix (dropCR l) p = true -> Strings.HasPrefix l p = true.
Proof.
  revert p. induction l as [|a l IH]; intros p; [trivial|].
  destruct p as [|b p]; [trivial|]. cbn [dropCR]. destruct l as [|c l].
  - destruct (Ascii.eqb a CR); [discriminate | trivial].
  - cbn [Strings.HasPrefix]. destruct (Ascii.eqb a b); [apply IH | trivial].
Qed.

Lemma first_username_skips pre ls :
  Forall passed_over pre ->
  first_username (scan_tokens (pre ++ ls)) = first_username (scan_tokens ls).
Proof.
  induction 1 as [|l pre (_ & Hlen & Hp) _ IH]; [reflexivity|]. cbn [app scan_tokens].
  apply Z.ltb_lt in Hlen. rewrite Hlen. cbn [first_username].
  destruct (Strings.HasPrefix (dropCR l) "Username=") eqn:Hd; [|exact IH].
  apply dropCR_prefix in Hd. congruence.
Qed.

Lemma dropCR_username u : dropCR ("Username=" +:+ u) = "Username=" +:+ dropCR u.
Proof. destruct u as [|a u]; reflexivity. Qed.

Lemma ascii_eqb_refl a : Ascii.eqb a a = true.
Proof. now apply Ascii.eqb_eq. Qed.

Lemma TrimPrefix_append p x : Strings.HasPrefix (p +:+ x) p = true /\ TrimPrefix (p +:+ x) p = x.
Proof.
  unfold TrimPrefix. induction p as [|a p [IH1 IH2]]; [destruct x; split; reflexivity|].
  change (String a p +:+ x) with (String a (p +:+ x)).
  cbn [Strings.HasPrefix String.length after]. rewrite ascii_eqb_refl.
  split; [exact IH1|]. now rewrite IH1 in *.
Qed.

(** X22. When [eqlsPlayerData.ini] can be opened and read, and holds some
    lines that do not start with [Username=] and fit into the buffer of
    the scanner, followed by a line [Username=<name>] that fits too, then
    [fetchUsername] returns that name, without the carriage return that may
    end the line, and whatever follows the line. *)
Theorem username_round_trip (env : Env) (s : State) (m : Z) (data : list byte)
    (pre : list string) (name rest : string) :
  io_error env (trace s) (COpen user_file) = None ->
  io_error env (trace s ++ [COpen user_file])%list (CRead user_file) = None ->
  OS.lookup (fs s) user_file = OS.Found (File m data) ->
  string_of_bytes data = unlines pre +:+ ("Username=" +:+ name) +:+ rest ->
  Forall passed_over pre ->
  has_lf name = false ->
  Z.of_nat (String.length name) + 9 < MaxScanTokenSize ->
  rest = "" \/ (exists rest', rest = String LF rest') ->
  fst (fetchUsername env s) = Ok (dropCR name).
Proof.
  intros Ho Hr Hl Hdata Hpre Hname Hlen Hrest. rewrite fetchUsername_run, Ho, Hl.
  cbv zeta. cbn [trace record_call fst]. rewrite Hr, Hdata. f_equal.
  unfold scan_lines. rewrite raw_lines_unlines.
  2:{ eapply Forall_weaken; [|exact Hpre]. now intros l (H & _). }
  rewrite (first_username_skips _ _ Hpre).
  assert (Hline : has_lf ("Username=" +:+ name) = false) by exact Hname.
  assert (Htok : exists ls, raw_lines (("Username=" +:+ name) +:+ rest)
                            = cons ("Username=" +:+ name) ls).
  { destruct Hrest as [->|(rest' & ->)].
    - exists []. replace (("Username=" +:+ name) +:+ "") with ("Username=" +:+ name).
      + now apply raw_lines_last.
      + clear. generalize ("Username=" +:+ name). intros x.
        induction x as [|a x IH]; [reflexivity|].
        change (String a x = String a (x +:+ "")). now f_equal.
    - eexists. now apply raw_lines_line. }
  destruct Htok as (ls & ->). cbn [scan_tokens].
  assert (Hfit : (Z.of_nat (String.length ("Username=" +:+ name)) <? MaxScanTokenSize) = true).
  { apply Z.ltb_lt. rewrite append_length'. cbn [String.length]. lia. }
  rewrite Hfit, dropCR_username. cbn [first_username].
  destruct (TrimPrefix_append "Username=" (dropCR name)) as [-> ->]. reflexivity.
Qed.

Lemma username_round_trip_witness :
  let text := "[Player]" +:+ String CR (String LF ("Username=bob" +:+ String CR (String LF
                "Password=x"))) in
  let disk : gmap string node := {[ user_file := File 420 (MD5.bytes_of_string text) ]} in
  fst (fetchUsername (Scenario.quiet [] []) (Scenario.fresh disk "")) = Ok "bob".
Proof.
  intros text disk.
  apply (username_round_trip (Scenario.quiet [] []) (Scenario.fresh disk "") 420
           (MD5.bytes_of_string text) ["[Player]" +:+ String CR ""]
           ("bob" +:+ String CR "") (String LF "Password=x"));
    try reflexivity.
  - repeat constructor.
  - right. now eexists.
Defined.

(** ** Sizes for the reader *)

Example generateSize_samples :
  generateSize 0 = "0.00 bytes" /\
  generateSize 1023 = "1023.00 bytes" /\
  generateSize 1024 = "1.00 KB" /\
  generateSize 1536 = "1.50 KB" /\
  generateSize 1029 = "1.00 KB" /\
  generateSize 1152 = "1.12 KB" /\
  generateSize 1048575 = "1024.00 KB" /\
  generateSize 5242880 = "5.00 MB" /\
  generateSize (-5) = "-5.00 bytes" /\
  generateSize (2 ^ 53 + 1) = "8192.00 TB".
Proof. vm_compute. repeat split. Qed.

Lemma float64_exact n : Z.abs n < 2 ^ 53 -> float64_of_int n = n.
Proof.
  intros H. unfold float64_of_int. cbv zeta.
  assert (Hl : Z.log2 (Z.abs n) <= 52).
  { destruct (Z.eq_dec (Z.abs n) 0) as [->|Hne]; [simpl; lia|].
    assert (Z.log2 (Z.abs n) < 53); [|lia]. apply Z.log2_lt_pow2; lia. }
  destruct (Z.log2 (Z.abs n) - 52 <=? 0) eqn:Hk; [reflexivity|].
  apply Z.leb_gt in Hk. lia.
Qed.

Lemma round_half_even_whole q b : 0 < b -> round_half_even (q * b) b = q.
Proof.
  intros Hb. unfold round_half_even. cbv zeta.
  rewrite Z.div_mul, Z.mod_mul by lia.
  destruct (2 * 0 <? b) eqn:H; [reflexivity|]. apply Z.ltb_ge in H. lia.
Qed.

Lemma round_half_even_near a b :
  0 <= a -> 0 < b -> 2 * Z.abs (a - round_half_even a b * b) <= b.
Proof.
  intros Ha Hb. unfold round_half_even. cbv zeta.
  pose proof (Z.div_mod a b ltac:(lia)) as Hdm.
  pose proof (Z.mod_pos_bound a b Hb) as Hm.
  destruct (2 * (a mod b) <? b) eqn:H1.
  - apply Z.ltb_lt in H1. nia.
  - apply Z.ltb_ge in H1. destruct (b <? 2 * (a mod b)) eqn:H2.
    + apply Z.ltb_lt in H2. nia.
    + apply Z.ltb_ge in H2. destruct (Z.even (a / b)); nia.
Qed.

Lemma fixed2_append m e unit :
  0 <= m ->
  fixed2 m e +:+ unit =
    decimal (hundredths m e / 100) +:+ "." +:+ two_digits (hundredths m e mod 100) +:+ unit.
Proof.
  intros Hm. unfold fixed2. cbv zeta.
  destruct (m <? 0) eqn:H; [apply Z.ltb_lt in H; lia|].
  change ("" +:+ ?x) with x. now rewrite !append_assoc'.
Qed.

(** X23. For a size of at most 53 bits, [generateSize] shows a number
    with two decimals and a unit, the unit being bytes below 1024 and
    otherwise the largest of KB, MB, GB and TB that the size reaches; and
    the number shown, in hundredths, is within half a hundredth of the
    size divided by the unit. *)
Theorem size_shown_to_the_hundredth (n : Z) :
  0 <= n < 2 ^ 53 ->
  exists q,
    generateSize n =
      decimal (q / 100) +:+ "." +:+ two_digits (q mod 100) +:+ unit_name (unit_of n) /\
    2 * Z.abs (100 * n - q * 1024 ^ unit_of n) <= 1024 ^ unit_of n.
Proof.
  intros Hn. unfold generateSize, unit_of. cbv zeta.
  rewrite float64_exact by lia.
  assert (Hq : forall e, 0 <= e ->
    2 * Z.abs (100 * n - hundredths n e * 2 ^ e) <= 2 ^ e).
  { intros e He. unfold hundredths. rewrite (Z.abs_eq n), (Z.mul_comm n 100) by lia.
    apply round_half_even_near; [lia | apply Z.pow_pos_nonneg; lia]. }
  change (1024 * 1024 * 1024 * 1024) with (1024 ^ 4).
  change (1024 * 1024 * 1024) with (1024 ^ 3). change (1024 * 1024) with (1024 ^ 2).
  destruct (n <? 1024); [|destruct (n <? 1024 ^ 2); [|destruct (n <? 1024 ^ 3);
    [|destruct (n <? 1024 ^ 4)]]].
  - exists (hundredths n 0). split; [now apply fixed2_append | apply (Hq 0); lia].
  - exists (hundredths n 10). split; [now apply fixed2_append | apply (Hq 10); lia].
  - exists (hundredths n 20). split; [now apply fixed2_append | apply (Hq 20); lia].
  - exists (hundredths n 30). split; [now apply fixed2_append | apply (Hq 30); lia].
  - exists (hundredths n 40). split; [now apply fixed2_append | apply (Hq 40); lia].
Qed.

Lemma size_shown_to_the_hundredth_witness :
  exists q,
    generateSize 123456789 =
      decimal (q / 100) +:+ "." +:+ two_digits (q mod 100) +:+ " MB" /\
    2 * Z.abs (100 * 123456789 - q * 1024 ^ 2) <= 1024 ^ 2.
Proof. exact (size_shown_to_the_hundredth 123456789 ltac:(lia)). Defined.

(** X24. A whole number of units, from 1 to 1023 of them, is shown as
    that number with [.00] and the unit; below 1024 the bytes are shown
    the same way. *)
Theorem whole_sizes_shown_exactly (k u : Z) :
  0 <= u <= 4 ->
  0 <= k < 1024 ->
  (u = 0 \/ 1 <= k) ->
  generateSize (k * 1024 ^ u) = decimal k +:+ ".00" +:+ unit_name u.
Proof.
  intros Hu Hk Hpos.
  assert (Hcase : forall c e name,
    0 < c -> c = 2 ^ e ->
    fixed2 (k * c) e +:+ name = decimal k +:+ ".00" +:+ name).
  { intros c e name Hc He. rewrite fixed2_append by nia. unfold hundredths.
    rewrite Z.abs_eq by nia.
    replace (k * c * 100) with (k * 100 * c) by lia.
    rewrite <- He, round_half_even_whole by lia.
    rewrite Z.div_mul, Z.mod_mul by lia. reflexivity. }
  unfold generateSize. cbv zeta.
  change (1024 * 1024 * 1024 * 1024) with (1024 ^ 4).
  change (1024 * 1024 * 1024) with (1024 ^ 3). change (1024 * 1024) with (1024 ^ 2).
  assert (Hcases : u = 0 \/ u = 1 \/ u = 2 \/ u = 3 \/ u = 4) by lia.
  destruct Hcases as [->|[->|[->|[->| ->]]]]; rewrite float64_exact by lia;
    repeat match goal with
    | |- context [?a <? ?b] =>
        let E := fresh "E" in
        destruct (a <? b) eqn:E;
        [apply Z.ltb_lt in E; try lia | apply Z.ltb_ge in E; try lia]
    end; now apply Hcase.
Qed.

Lemma whole_sizes_shown_exactly_witness :
  generateSize (5 * 1024 ^ 2) = decimal 5 +:+ ".00" +:+ unit_name 2 /\
  generateSize 5242880 = "5.00 MB".
Proof.
  split; [|vm_compute; reflexivity].
  apply (whole_sizes_shown_exactly 5 2); lia.
Defined.

(** X25. A negative size of at most 53 bits, as a negative [Size] in the
    manifest gives, is shown in bytes however large it is, with its
    sign. *)
Theorem negative_sizes_shown_in_bytes (n : Z) :
  - 2 ^ 53 < n < 0 ->
  generateSize n = "-" +:+ decimal (- n) +:+ ".00 bytes".
Proof.
  intros Hn. unfold generateSize. cbv zeta. rewrite float64_exact by lia.
  destruct (n <? 1024) eqn:H; [|apply Z.ltb_ge in H; lia].
  unfold fixed2, hundredths. cbv zeta.
  destruct (n <? 0) eqn:Hneg; [|apply Z.ltb_ge in Hneg; lia].
  rewrite Z.abs_neq by lia.
  replace (- n * 100) with (- n * 100 * 2 ^ 0) by (change (2 ^ 0) with 1; lia).
  rewrite round_half_even_whole by (change (2 ^ 0) with 1; lia).
  rewrite Z.div_mul, Z.mod_mul by lia.
  now rewrite !append_assoc'.
Qed.

Lemma negative_sizes_shown_in_bytes_witness :
  generateSize (-5000000) = "-" +:+ decimal 5000000 +:+ ".00 bytes" /\
  generateSize (-5000000) = "-5000000.00 bytes".
Proof.
  split; [|vm_compute; reflexivity].
  exact (negative_sizes_shown_in_bytes (-5000000) ltac:(lia)).
Defined.

(** ** The name of the client *)

Lemma Contains_char a s : Strings.Contains s (String a "") = has_char a s.
Proof.
  induction s as [|b s IH]; [reflexivity|]. cbn [Strings.Contains Strings.HasPrefix has_char].
  rewrite IH. destruct (Ascii.eqb b a); [|reflexivity]. now destruct s.
Qed.

Lemma up_to_dot_no_dot s : has_char "." (up_to_dot s) = false.
Proof.
  induction s as [|a s IH]; [reflexivity|]. simpl.
  destruct (Ascii.eqb a ".") eqn:Ha; [reflexivity|]. simpl. now rewrite Ha.
Qed.

(** X26. The name that the client goes by has no dot in it, whatever the
    path of the executable. *)
Theorem base_name_has_no_dot (exeName : string) :
  Strings.Contains (base_name exeName) "." = false.
Proof.
  unfold base_name. cbv zeta.
  destruct (Strings.Contains (Filepath.Base exeName) ".") eqn:H; [|exact H].
  rewrite Contains_char. apply up_to_dot_no_dot.
Qed.

Lemma rev_rev s : Strings.rev (Strings.rev s) = s.
Proof.
  unfold Strings.rev.
  now rewrite list_ascii_of_string_of_list_ascii, List.rev_involutive,
    string_of_list_ascii_of_string.
Qed.

Lemma has_char_list a s :
  has_char a s = existsb (fun b => Ascii.eqb b a) (list_ascii_of_string s).
Proof. induction s as [|b s IH]; [reflexivity|]. simpl. now rewrite IH. Qed.

Lemma has_char_rev a s : has_char a (Strings.rev s) = has_char a s.
Proof.
  unfold Strings.rev. rewrite !has_char_list, list_ascii_of_string_of_list_ascii.
  induction (list_ascii_of_string s) as [|b l IH]; [reflexivity|]. simpl.
  rewrite existsb_app, IH. simpl. rewrite orb_false_r. apply orb_comm.
Qed.

Lemma split_plain s : has_char "/" s = false -> Filepath.split s = [s].
Proof.
  induction s as [|a s IH]; [reflexivity|]. simpl. unfold Filepath.is_sep.
  destruct (Ascii.eqb a "/"); [discriminate|]. intros H. now rewrite (IH H).
Qed.

Lemma has_char_append a s t : has_char a (s +:+ t) = has_char a s || has_char a t.
Proof.
  induction s as [|b s IH]; [reflexivity|].
  change (String b s +:+ t) with (String b (s +:+ t)). simpl. now rewrite IH, orb_assoc.
Qed.

Lemma up_to_dot_append name rest :
  has_char "." name = false -> up_to_dot (name +:+ String "." rest) = name.
Proof.
  induction name as [|a name IH]; [reflexivity|].
  change (String a name +:+ String "." rest) with (String a (name +:+ String "." rest)).
  simpl. intros H. apply orb_false_elim in H as [Ha H]. now rewrite Ha, (IH H).
Qed.

Lemma chars_append s t :
  list_ascii_of_string (s +:+ t) = (list_ascii_of_string s ++ list_ascii_of_string t)%list.
Proof.
  induction s as [|a s IH]; [reflexivity|].
  change (String a s +:+ t) with (String a (s +:+ t)). simpl. now rewrite IH.
Qed.

Lemma string_of_app l1 l2 :
  string_of_list_ascii (l1 ++ l2) = string_of_list_ascii l1 +:+ string_of_list_ascii l2.
Proof.
  induction l1 as [|a l1 IH]; [reflexivity|]. simpl. rewrite IH. reflexivity.
Qed.

Lemma rev_append s t : Strings.rev (s +:+ t) = Strings.rev t +:+ Strings.rev s.
Proof. unfold Strings.rev. now rewrite chars_append, List.rev_app_distr, string_of_app. Qed.

Lemma drop_seps_head s x :
  has_char "/" s = false -> s <> "" -> Filepath.drop_seps (s +:+ x) = s +:+ x.
Proof.
  destruct s as [|a s]; [now intros _ H|]. intros H _.
  change (String a s +:+ x) with (String a (s +:+ x)). simpl in *.
  unfold Filepath.is_sep. now destruct (Ascii.eqb a "/").
Qed.

Lemma rev_empty s : Strings.rev s = "" -> s = "".
Proof. intros H. rewrite <- (rev_rev s), H. reflexivity. Qed.

(** The last element of a path with a separator in it. *)
Lemma split_last dir file :
  has_char "/" file = false ->
  exists x xs,
    Filepath.split (dir +:+ String "/" file) = x :: xs /\ xs <> [] /\ List.last xs "" = file.
Proof.
  intros Hf. induction dir as [|a dir (x & xs & Hs & Hne & Hl)].
  - change ("" +:+ String "/" file) with (String "/" file). simpl.
    rewrite (split_plain _ Hf). now exists "", [file].
  - change (String a dir +:+ String "/" file) with (String a (dir +:+ String "/" file)).
    simpl. rewrite Hs. destruct (Filepath.is_sep a).
    + exists "", (x :: xs). split; [reflexivity|]. split; [discriminate|].
      destruct xs; [now contradiction Hne | exact Hl].
    + now exists (String a x), xs.
Qed.

Lemma Base_of_file dir file :
  has_char "/" file = false -> file <> "" ->
  Filepath.Base (dir +:+ String "/" file) = file.
Proof.
  intros Hf Hne. unfold Filepath.Base.
  destruct (String.eqb (dir +:+ String "/" file) "") eqn:He.
  { apply String.eqb_eq in He. destruct dir; discriminate. }
  cbv zeta.
  replace (dir +:+ String "/" file) with ((dir +:+ "/") +:+ file)
    by (now rewrite append_assoc').
  rewrite rev_append, drop_seps_head.
  - rewrite <- rev_append, rev_rev, append_assoc'.
    change ("/" +:+ file) with (String "/" file).
    destruct (split_last dir file Hf) as (x & xs & -> & Hxs & Hl).
    destruct xs as [|y ys]; [now contradiction Hxs|].
    change (List.last (x :: y :: ys) "") with (List.last (y :: ys) ""). rewrite Hl.
    destruct (String.eqb file "") eqn:Hfe; [apply String.eqb_eq in Hfe; contradiction|].
    reflexivity.
  - now rewrite has_char_rev.
  - intros H. now apply rev_empty in H.
Qed.

(** X27. For an executable at a path that ends in a separator and a file
    name, the name of the client is what stands before the first dot of
    the file name, whatever the directory and whatever follows the dot:
    [launcheq.exe] and [launcheq.v2.exe] both give [launcheq]. *)
Theorem base_name_stops_at_first_dot (dir name rest : string) :
  has_char "." name = false ->
  has_char "/" name = false ->
  has_char "/" rest = false ->
  base_name (dir +:+ String "/" (name +:+ String "." rest)) = name.
Proof.
  intros Hdot Hsep Hrest. unfold base_name. cbv zeta.
  rewrite Base_of_file.
  - rewrite Contains_char, has_char_append. cbn [has_char]. rewrite Hdot. cbn.
    now apply up_to_dot_append.
  - rewrite has_char_append. cbn [has_char]. now rewrite Hsep, Hrest.
  - destruct name; discriminate.
Qed.

Lemma base_name_stops_at_first_dot_witness :
  base_name "/opt/eq/launcheq.v2.exe" = "launcheq" /\
  base_name "/opt/eq/launcheq.exe" = "launcheq".
Proof.
  split.
  - exact (base_name_stops_at_first_dot "/opt/eq" "launcheq" "v2.exe" eq_refl eq_refl eq_refl).
  - vm_compute. reflexivity.
Defined.

(** ** One pass after another *)

(** X28. Once a pass has returned without error, a later pass of the same
    client over the same manifest makes no call and leaves the disk as it
    finds it, whatever became of the files in between, and also when the
    version could not be saved: what counts is the version in memory. *)
Theorem finished_pass_makes_next_idle (c : Client) (env env' : Env) (s s1 : State)
    (disk : gmap string node) :
  patch c env s = (Ok tt, s1) ->
  exists s3,
    patch c env' (set_fs (fun _ => disk) s1) = (Ok tt, s3) /\
    fs s3 = disk /\ trace s3 = trace s1.
Proof.
  intros Hrun.
  assert (Hv : FileListVersion s1 = Version (cacheFileList c)).
  { destruct (patch_cases c env s) as [(Hv & _ & [_ _ [Hv' _]])|(_ & [H|H])];
      rewrite Hrun in *; cbn [fst snd] in *.
    - congruence.
    - destruct H as (e & He & _). discriminate.
    - destruct H as (s0 & _ & _ & _ & _ & Hv & _). exact Hv. }
  unfold patch.
  rewrite (bind_ok _ _ env' (set_fs (fun _ => disk) s1) (FileListVersion s1) _ eq_refl).
  rewrite Hv, String.eqb_refl.
  destruct (_ <? _)%nat; eexists; (split; [reflexivity|]); now split.
Qed.

Lemma finished_pass_makes_next_idle_witness :
  exists s1 s3,
    patch Scenario.sync_client Scenario.sync_env Scenario.sync_start = (Ok tt, s1) /\
    patch Scenario.sync_client Scenario.sync_env (set_fs (fun _ => ∅) s1) = (Ok tt, s3) /\
    fs s3 = ∅.
Proof.
  destruct (patch Scenario.sync_client Scenario.sync_env Scenario.sync_start)
    as [[[]|e] s1] eqn:Hrun; [|vm_compute in Hrun; discriminate].
  destruct (finished_pass_makes_next_idle _ Scenario.sync_env Scenario.sync_env _ _ ∅ Hrun)
    as (s3 & H3 & Hfs & _).
  now exists s1, s3.
Defined.
